(** * Study Buddy: the per-user study state and the two workflows

    A shallow embedding of
      - [StudyState], the Durable Object holding one user's state, with
        its handlers as functions from state to response and state;
      - [StudySessionWorkflow.run]: steps load-progress,
        generate-learning-path, update-mastery and schedule-repetition;
      - [QuizGenerationWorkflow.run]: steps identify-concepts,
        generate-questions, validate-questions, create-answer-key,
        store-quiz and the figures of finalize-quiz, and
        [getFallbackQuestions];
      - [AIService]: the messages [chat] sends and the fallback questions
        of the service;
    together with the properties the specification states about them.

    Objects used as dictionaries ([sessions], [quizzes], [chatHistories],
    [answers]) are finite maps holding their own properties, read through
    [js_get], which also sees what a plain object inherits; arrays are
    lists; timestamps, counters and the points of a question are integers;
    the numbers the code divides are the numbers of the next section. *)

From Stdlib Require Import ZArith QArith Qround Qminmax Lqa Lia List String Ascii.
From Stdlib Require PrimFloat Uint63.
From stdpp Require Import base option list gmap strings pretty.

Local Open Scope string_scope.
Local Open Scope Z_scope.
Local Open Scope list_scope.

(** ** JavaScript numbers

    The fields [percentage], [averageScore], [quizAverage],
    [masteryLevel], [totalStudyTime] and [timeSpent] are JavaScript numbers
    computed with [/], [*], [+] and [Math.min].  They are modelled as exact
    rationals extended with the three exceptional values of the IEEE
    arithmetic; rounding is left out, so a property that states such a
    number spells the operations in the order the code performs them.
    The sign of zero is left out as well: the only divisors in the code are
    [maxScore] and array lengths, which are sums started at [0] and thus
    never a negative zero. *)

Inductive jsnum : Type :=
  | Fin (q : Q)
  | PInf
  | NInf
  | NaN.

Definition Qis_zero (q : Q) : bool := Qeq_bool q 0.
Definition Qis_pos (q : Q) : bool := negb (Qle_bool q 0).

Definition jsinf (positive : bool) : jsnum := if positive then PInf else NInf.

(** [a + b] *)
Definition jadd (a b : jsnum) : jsnum :=
  match a, b with
  | NaN, _ | _, NaN => NaN
  | Fin x, Fin y => Fin (x + y)
  | PInf, NInf | NInf, PInf => NaN
  | PInf, _ | _, PInf => PInf
  | NInf, _ | _, NInf => NInf
  end.

(** [a * b] *)
Definition jmul (a b : jsnum) : jsnum :=
  match a, b with
  | NaN, _ | _, NaN => NaN
  | Fin x, Fin y => Fin (x * y)
  | Fin x, PInf | PInf, Fin x =>
      if Qis_zero x then NaN else jsinf (Qis_pos x)
  | Fin x, NInf | NInf, Fin x =>
      if Qis_zero x then NaN else jsinf (negb (Qis_pos x))
  | PInf, PInf | NInf, NInf => PInf
  | PInf, NInf | NInf, PInf => NInf
  end.

(** [a / b] *)
Definition jdiv (a b : jsnum) : jsnum :=
  match a, b with
  | NaN, _ | _, NaN => NaN
  | Fin x, Fin y =>
      if Qis_zero y then
        if Qis_zero x then NaN else jsinf (Qis_pos x)
      else Fin (x / y)
  | Fin _, (PInf | NInf) => Fin 0
  | PInf, Fin y => jsinf (Qis_zero y || Qis_pos y)
  | NInf, Fin y => jsinf (negb (Qis_zero y || Qis_pos y))
  | (PInf | NInf), (PInf | NInf) => NaN
  end.

(** [Math.min(a, b)]: [NaN] as soon as one argument is. *)
Definition jmin (a b : jsnum) : jsnum :=
  match a, b with
  | NaN, _ | _, NaN => NaN
  | NInf, _ | _, NInf => NInf
  | PInf, c | c, PInf => c
  | Fin x, Fin y => if Qle_bool x y then Fin x else Fin y
  end.

Definition jsZ (z : Z) : jsnum := Fin (inject_Z z).

(** Equality of JavaScript numbers as values: rationals up to [Qeq], and
    each exceptional value only with itself (this is [Object.is] rather
    than [===]: it relates [NaN] to [NaN]). *)
Definition jeq (a b : jsnum) : Prop :=
  match a, b with
  | Fin x, Fin y => (x == y)%Q
  | PInf, PInf | NInf, NInf | NaN, NaN => True
  | _, _ => False
  end.

(** [array.reduce((sum, x) => sum + x, 0)] over numbers. *)
Definition jsum (l : list jsnum) : jsnum := fold_left jadd l (jsZ 0).

(** [xs.reduce((sum, x) => sum + x, 0) / xs.length] *)
Definition jmean (l : list jsnum) : jsnum :=
  jdiv (jsum l) (jsZ (Z.of_nat (length l))).

(** The same arithmetic in IEEE doubles, for the expressions whose
    rounding the properties below look at. *)

Module Doubles.

(** A whole number as a double. *)
Definition of_Z (z : Z) : PrimFloat.float :=
  match z with
  | Z0 => PrimFloat.of_uint63 (Uint63.of_Z 0)
  | Zpos p => PrimFloat.of_uint63 (Uint63.of_Z (Zpos p))
  | Zneg p => PrimFloat.opp (PrimFloat.of_uint63 (Uint63.of_Z (Zpos p)))
  end.

(** [(score / maxScore) * 100] *)
Definition percentage (score maxScore : Z) : PrimFloat.float :=
  PrimFloat.mul (PrimFloat.div (of_Z score) (of_Z maxScore)) (of_Z 100).

End Doubles.

(** ** Strings

    Strings are sequences of bytes.  [String.prototype.toLowerCase] is a
    parameter of the development: it is only known to map the letters
    [A]..[Z] to [a]..[z] and to leave the other characters alone on text
    made of ASCII characters, which is what [ascii_toLowerCase] does on
    every text. *)

Definition lower_ascii (c : ascii) : ascii :=
  let n := nat_of_ascii c in
  if ((65 <=? n) && (n <=? 90))%nat then ascii_of_nat (n + 32) else c.

Fixpoint ascii_toLowerCase (s : string) : string :=
  match s with
  | EmptyString => EmptyString
  | String c r => String (lower_ascii c) (ascii_toLowerCase r)
  end.

Fixpoint is_ascii (s : string) : bool :=
  match s with
  | EmptyString => true
  | String c r => (nat_of_ascii c <? 128)%nat && is_ascii r
  end.

Class Lowercase := {
  toLowerCase : string → string;
  toLowerCase_ascii s : is_ascii s = true → toLowerCase s = ascii_toLowerCase s;
}.

(** The instance the concrete runs below compute with. *)
#[global] Instance ascii_lowercase : Lowercase :=
  {| toLowerCase := ascii_toLowerCase;
     toLowerCase_ascii := λ s _, eq_refl |}.

(** ** Objects used as dictionaries

    [sessions], [quizzes], [chatHistories], the [answers] of a request and
    the answer key are plain objects.  A finite map holds the own
    properties of such an object; reading a name the object does not own
    gives what [Object.prototype] has under that name (a function, or the
    prototype itself for [__proto__]), and [undefined] for every other
    name.  The inherited values are all truthy, and none of them has a
    property [messages], [questions], [topic], [startTime] or
    [toLowerCase].

    The assignments [sessions[session.id] = session] and
    [quizzes[quiz.id] = quiz] are modelled as the definition of an own
    property: the identifiers the Worker draws are [session_...] and
    [quiz_...], never [__proto__].  Completing the name [__proto__] also
    writes [status] and [endTime] onto [Object.prototype]; what that does
    outside the state of the Durable Object is not followed here. *)

Definition Object_prototype_names : list string :=
  [ "constructor"; "__defineGetter__"; "__defineSetter__"; "hasOwnProperty";
    "__lookupGetter__"; "__lookupSetter__"; "isPrototypeOf";
    "propertyIsEnumerable"; "toString"; "valueOf"; "__proto__";
    "toLocaleString" ].

Definition inherited (k : string) : bool :=
  bool_decide (k ∈ Object_prototype_names).

Inductive Lookup (V : Type) : Type :=
  | Own (v : V)
  | Inherited
  | Undefined.
Arguments Own {V} v.
Arguments Inherited {V}.
Arguments Undefined {V}.

(** [obj[k]] *)
Definition js_get {V} (obj : gmap string V) (k : string) : Lookup V :=
  match obj !! k with
  | Some v => Own v
  | None => if inherited k then Inherited else Undefined
  end.

(** [obj[k] = v] for a text [v], on an object created by [{}]: under the
    name [__proto__] the assignment runs the setter of [Object.prototype],
    which ignores a value that is not an object. *)
Definition js_set_text (obj : gmap string string) (k v : string)
  : gmap string string :=
  if String.eqb k "__proto__" then obj else <[k := v]> obj.

(** ** Arrays *)

(** [array.slice(0, n)]: a negative [n] counts from the end. *)
Definition slice0 {A} (n : Z) (l : list A) : list A :=
  if n <? 0 then take (Z.to_nat (Z.of_nat (length l) + n)) l
  else take (Z.to_nat n) l.

(** ** Data model ([types])

    The type of a question is kept as the string the JSON carries
    (['multiple-choice'], ['short-answer'], ['true-false']): the union type
    of the declaration is not checked when a quiz is decoded. *)

Inductive Difficulty := beginner | intermediate | advanced.
Inductive SessionStatus := active | completed | paused.
#[global] Instance SessionStatus_eq_dec : EqDecision SessionStatus.
Proof. solve_decision. Defined.
Inductive Role := user | assistant | system.
Inductive ActivityType := session_activity | quiz_activity.

Record ChatMessage := {
  role : Role;
  content : string;
  msg_timestamp : Z;
}.

Record StudySession := {
  session_id : string;
  session_topic : string;
  duration : Z;
  difficulty : Difficulty;
  startTime : Z;
  endTime : option Z;
  status : SessionStatus;
}.

Record QuizQuestion := {
  q_id : string;
  question : string;
  q_type : string;
  options : option (list string);
  correctAnswer : string;
  explanation : string;
  points : Z;
}.

Record Quiz := {
  quiz_id : string;
  quiz_topic : string;
  quiz_difficulty : Difficulty;
  questions : list QuizQuestion;
  createdAt : Z;
}.

Record QuizResult := {
  quizId : string;
  score : Z;
  maxScore : Z;
  percentage : jsnum;
  answers : gmap string string;
  completedAt : Z;
  result_timeSpent : Z;
}.

(** [topic] is [None] for the entry [updateTopicProgress] pushes when it is
    handed [undefined]; [timeSpent] and [totalStudyTime] are sums of
    durations, which can be [NaN]. *)
Record TopicProgress := {
  topic : option string;
  masteryLevel : jsnum;
  timeSpent : jsnum;
  sessionsCount : Z;
  quizAverage : jsnum;
  lastStudied : Z;
}.

Record ActivityRecord := {
  act_type : ActivityType;
  act_topic : string;
  act_timestamp : Z;
  act_score : option jsnum;
}.

Record ProgressData := {
  totalStudyTime : jsnum;
  totalSessions : Z;
  totalQuizzes : Z;
  averageScore : jsnum;
  currentStreak : Z;
  longestStreak : Z;
  topicsStudied : list TopicProgress;
  recentActivity : list ActivityRecord;
}.

Record SpacedRepetitionItem := {
  sr_topic : string;
  nextReview : Z;
  interval : Z;
  easeFactor : Q;
  repetitions : Z;
}.

Record UserState := {
  sessions : gmap string StudySession;
  chatHistories : gmap string (list ChatMessage);
  quizzes : gmap string Quiz;
  quizResults : list QuizResult;
  progress : ProgressData;
  spacedRepetitionQueue : list SpacedRepetitionItem;
}.

(** Functional updates of the two records every operation writes to. *)

Definition set_progress (p : ProgressData) (s : UserState) : UserState :=
  {| sessions := sessions s; chatHistories := chatHistories s;
     quizzes := quizzes s; quizResults := quizResults s;
     progress := p; spacedRepetitionQueue := spacedRepetitionQueue s |}.

Definition set_topicsStudied (ts : list TopicProgress) (p : ProgressData)
  : ProgressData :=
  {| totalStudyTime := totalStudyTime p; totalSessions := totalSessions p;
     totalQuizzes := totalQuizzes p; averageScore := averageScore p;
     currentStreak := currentStreak p; longestStreak := longestStreak p;
     topicsStudied := ts; recentActivity := recentActivity p |}.

(** ** The Durable Object [StudyState]

    Every handler runs on the state in memory and takes the reading of
    [Date.now()] as the argument [now]: the clock of a Worker does not
    advance while a handler computes, so the readings inside one handler
    are the same.  A handler returns its response and the state it leaves
    behind; a handler that throws is answered by the [catch] of [fetch]
    with status 500, and leaves the state as it was when it threw.
    ([getCurrentSession], which depends on the order in which the keys of
    [sessions] were inserted, is not part of the model.) *)

Module StudyState.

Inductive Response (A : Type) : Type :=
  | Ok (body : A)
  | NotFound (error : string)
  | InternalError.
Arguments Ok {A} body.
Arguments NotFound {A} error.
Arguments InternalError {A}.

Definition createDefaultState : UserState :=
  {| sessions := ∅; chatHistories := ∅; quizzes := ∅; quizResults := [];
     progress :=
       {| totalStudyTime := jsZ 0; totalSessions := 0; totalQuizzes := 0;
          averageScore := jsZ 0; currentStreak := 0; longestStreak := 0;
          topicsStudied := []; recentActivity := [] |};
     spacedRepetitionQueue := [] |}.

(** [Math.min(100, sessionsCount * 10 + quizAverage * 0.5)] *)
Definition mastery (count : Z) (avg : jsnum) : jsnum :=
  jmin (jsZ 100) (jadd (jsZ (count * 10)) (jmul avg (Fin (1 # 2)))).

(** [history?.messages || []]: what is inherited has no [messages]. *)
Definition getChatHistory (sessionId : string) (s : UserState)
  : list ChatMessage :=
  match js_get (chatHistories s) sessionId with
  | Own messages => messages
  | Inherited | Undefined => []
  end.

Definition set_chatHistory (sessionId : string) (msgs : list ChatMessage)
    (s : UserState) : UserState :=
  {| sessions := sessions s;
     chatHistories := <[sessionId := msgs]> (chatHistories s);
     quizzes := quizzes s; quizResults := quizResults s;
     progress := progress s;
     spacedRepetitionQueue := spacedRepetitionQueue s |}.

(** The history is created when [chatHistories[sessionId]] is falsy; an
    inherited value is not, and [messages.push] then throws on it. *)
Definition saveChatMessage (sessionId userMessage aiResponse : string)
    (now : Z) (s : UserState) : Response unit * UserState :=
  let turn := [ {| role := user; content := userMessage;
                   msg_timestamp := now |};
                {| role := assistant; content := aiResponse;
                   msg_timestamp := now + 1 |} ] in
  match js_get (chatHistories s) sessionId with
  | Own messages => (Ok tt, set_chatHistory sessionId (messages ++ turn) s)
  | Undefined => (Ok tt, set_chatHistory sessionId ([] ++ turn) s)
  | Inherited => (InternalError, s)
  end.

Definition createSession (session : StudySession) (s : UserState)
  : UserState :=
  let p := progress s in
  let act := {| act_type := session_activity;
                act_topic := session_topic session;
                act_timestamp := startTime session;
                act_score := None |} in
  {| sessions := <[session_id session := session]> (sessions s);
     chatHistories := chatHistories s;
     quizzes := quizzes s; quizResults := quizResults s;
     progress :=
       {| totalStudyTime := totalStudyTime p;
          totalSessions := totalSessions p + 1;
          totalQuizzes := totalQuizzes p;
          averageScore := averageScore p;
          currentStreak := currentStreak p;
          longestStreak := longestStreak p;
          topicsStudied := topicsStudied p;
          recentActivity := slice0 50 (act :: recentActivity p) |};
     spacedRepetitionQueue := spacedRepetitionQueue s |}.

(** [(session.endTime - session.startTime) / 1000 / 60] *)
Definition elapsed_minutes (session : StudySession) (now : Z) : Q :=
  (inject_Z (now - startTime session) / 1000 / 60)%Q.

(** The entry [updateTopicProgress] pushes when [find] returns nothing. *)
Definition new_topic (t : option string) (now : Z) : TopicProgress :=
  {| topic := t; masteryLevel := jsZ 0; timeSpent := jsZ 0;
     sessionsCount := 0; quizAverage := jsZ 0; lastStudied := now |}.

(** The writes [updateTopicProgress] makes to the entry it holds. *)
Definition record_session (d : jsnum) (now : Z) (tp : TopicProgress)
  : TopicProgress :=
  {| topic := topic tp;
     masteryLevel := mastery (sessionsCount tp + 1) (quizAverage tp);
     timeSpent := jadd (timeSpent tp) d;
     sessionsCount := sessionsCount tp + 1;
     quizAverage := quizAverage tp;
     lastStudied := now |}.

(** [topicsStudied.find(t => t.topic === topic)], with the index of the
    entry found: the entry is then written to in place.  [find_entry] is
    the search for any value of [topic], [undefined] included;
    [find_topic] is the search for a text. *)
Definition find_entry (t : option string) (ts : list TopicProgress)
  : option (nat * TopicProgress) :=
  list_find (λ tp, topic tp = t) ts.

Definition find_topic (t : string) (ts : list TopicProgress)
  : option (nat * TopicProgress) :=
  find_entry (Some t) ts.

Definition updateTopicProgress (t : option string) (d : jsnum) (now : Z)
    (ts : list TopicProgress) : list TopicProgress :=
  match find_entry t ts with
  | Some (i, _) => alter (record_session d now) i ts
  | None => ts ++ [record_session d now (new_topic t now)]
  end.

(** The writes to [progress] after the duration [d] was computed:
    [totalStudyTime += duration] and [updateTopicProgress]. *)
Definition add_duration (t : option string) (d : jsnum) (now : Z)
    (p : ProgressData) : ProgressData :=
  {| totalStudyTime := jadd (totalStudyTime p) d;
     totalSessions := totalSessions p;
     totalQuizzes := totalQuizzes p;
     averageScore := averageScore p;
     currentStreak := currentStreak p;
     longestStreak := longestStreak p;
     topicsStudied := updateTopicProgress t d now (topicsStudied p);
     recentActivity := recentActivity p |}.

(** When [sessions[sessionId]] is inherited, [if (session)] passes: the
    two writes land on the inherited object, [session.startTime] and
    [session.topic] are [undefined], so the duration is [NaN] and the
    topic handed to [updateTopicProgress] is [undefined]. *)
Definition completeSession (sessionId : string) (now : Z) (s : UserState)
  : Response unit * UserState :=
  match js_get (sessions s) sessionId with
  | Own session =>
      let session' :=
        {| session_id := session_id session;
           session_topic := session_topic session;
           duration := duration session;
           difficulty := difficulty session;
           startTime := startTime session;
           endTime := Some now;
           status := completed |} in
      let d := Fin (elapsed_minutes session' now) in
      (Ok tt,
       {| sessions := <[sessionId := session']> (sessions s);
          chatHistories := chatHistories s;
          quizzes := quizzes s; quizResults := quizResults s;
          progress :=
            add_duration (Some (session_topic session)) d now (progress s);
          spacedRepetitionQueue := spacedRepetitionQueue s |})
  | Inherited =>
      (Ok tt, set_progress (add_duration None NaN now (progress s)) s)
  | Undefined => (Ok tt, s)
  end.

Definition saveQuiz (quiz : Quiz) (s : UserState) : UserState :=
  {| sessions := sessions s; chatHistories := chatHistories s;
     quizzes := <[quiz_id quiz := quiz]> (quizzes s);
     quizResults := quizResults s; progress := progress s;
     spacedRepetitionQueue := spacedRepetitionQueue s |}.

(** [quiz.questions.reduce((sum, q) => sum + q.points, 0)]; the points
    are whole numbers, and a sum of whole numbers is exact in doubles as
    long as it stays within [2 ^ 53]. *)
Definition compute_maxScore (qs : list QuizQuestion) : Z :=
  fold_left (λ sum q, sum + points q) qs 0.

Section Scoring.
Context `{L : Lowercase}.

(** [answers[question.id]?.toLowerCase() ===
     question.correctAnswer.toLowerCase()]; [None] when the call throws:
    [?.] lets [undefined] through, and what is inherited has no
    [toLowerCase] to call. *)
Definition is_correct (answers : gmap string string) (q : QuizQuestion)
  : option bool :=
  match js_get answers (q_id q) with
  | Own a => Some (String.eqb (toLowerCase a) (toLowerCase (correctAnswer q)))
  | Undefined => Some false
  | Inherited => None
  end.

(** The [forEach] loop over the questions that adds to [score]; [None]
    when a turn of the loop throws. *)
Fixpoint score_loop (answers : gmap string string)
    (qs : list QuizQuestion) (score : Z) : option Z :=
  match qs with
  | [] => Some score
  | q :: rest =>
      match is_correct answers q with
      | Some true => score_loop answers rest (score + points q)
      | Some false => score_loop answers rest score
      | None => None
      end
  end.

Definition compute_score (answers : gmap string string)
    (qs : list QuizQuestion) : option Z :=
  score_loop answers qs 0.

(** [(score / maxScore) * 100] *)
Definition compute_percentage (score maxScore : Z) : jsnum :=
  jmul (jdiv (jsZ score) (jsZ maxScore)) (jsZ 100).

(** [quizResults.filter(r => quizzes[r.quizId]?.topic === topic)]: what
    [quizzes] inherits has no [topic], so only the quizzes it holds
    count. *)
Definition results_of_topic (t : string) (s : UserState)
  : list QuizResult :=
  filter (λ r, quiz_topic <$> (quizzes s !! quizId r) = Some t)
         (quizResults s).

(** The writes [updateTopicQuizAverage] makes to the entry it found. *)
Definition record_average (avg : jsnum) (tp : TopicProgress)
  : TopicProgress :=
  {| topic := topic tp;
     masteryLevel := mastery (sessionsCount tp) avg;
     timeSpent := timeSpent tp;
     sessionsCount := sessionsCount tp;
     quizAverage := avg;
     lastStudied := lastStudied tp |}.

Definition updateTopicQuizAverage (t : string) (s : UserState)
  : UserState :=
  match find_topic t (topicsStudied (progress s)) with
  | Some (i, _) =>
      let avg := jmean (percentage <$> results_of_topic t s) in
      set_progress
        (set_topicsStudied
           (alter (record_average avg) i (topicsStudied (progress s)))
           (progress s)) s
  | None => s
  end.

(** What [submitQuiz] does once the quiz is scored. *)
Definition record_result (id : string) (quiz : Quiz)
    (answers : gmap string string) (score maxScore : Z) (now : Z)
    (s : UserState) : Response QuizResult * UserState :=
      let result :=
        {| quizId := id; score := score; maxScore := maxScore;
           percentage := compute_percentage score maxScore;
           answers := answers; completedAt := now;
           result_timeSpent := 0 |} in
      let results := quizResults s ++ [result] in
      let p := progress s in
      let act := {| act_type := quiz_activity;
                    act_topic := quiz_topic quiz;
                    act_timestamp := now;
                    act_score := Some (percentage result) |} in
      let s1 :=
        {| sessions := sessions s; chatHistories := chatHistories s;
           quizzes := quizzes s; quizResults := results;
           progress :=
             {| totalStudyTime := totalStudyTime p;
                totalSessions := totalSessions p;
                totalQuizzes := totalQuizzes p + 1;
                averageScore := jmean (percentage <$> results);
                currentStreak := currentStreak p;
                longestStreak := longestStreak p;
                topicsStudied := topicsStudied p;
                recentActivity := act :: recentActivity p |};
           spacedRepetitionQueue := spacedRepetitionQueue s |} in
      (Ok result, updateTopicQuizAverage (quiz_topic quiz) s1).

(** An inherited [quizzes[quizId]] is truthy and has no [questions]:
    [quiz.questions.reduce] throws.  The scoring loop runs before anything
    is written to the state. *)
Definition submitQuiz (id : string) (answers : gmap string string)
    (now : Z) (s : UserState) : Response QuizResult * UserState :=
  match js_get (quizzes s) id with
  | Undefined => (NotFound "Quiz not found", s)
  | Inherited => (InternalError, s)
  | Own quiz =>
      let maxScore := compute_maxScore (questions quiz) in
      match compute_score answers (questions quiz) with
      | Some score => record_result id quiz answers score maxScore now s
      | None => (InternalError, s)
      end
  end.

End Scoring.

Definition getQuizResults (s : UserState) : list QuizResult :=
  quizResults s.

Definition getOverallProgress (s : UserState) : ProgressData := progress s.

Definition getTopicProgress (s : UserState) : list TopicProgress :=
  topicsStudied (progress s).

End StudyState.

(** ** [StudySessionWorkflow]: steps 2, 3, 6 and 7 of [run] *)

Module StudySessionWorkflow.

Record PreviousProgress := {
  prev_masteryLevel : Q;
  prev_timeSpent : Q;
  prev_sessionsCount : Z;
}.

(** A number read back from the JSON body of a response, then [|| 0]:
    [JSON.stringify] writes [NaN] and the infinities as [null]. *)
Definition json_number_or_0 (x : jsnum) : Q :=
  match x with Fin q => q | _ => 0%Q end.

(** Step [load-progress], on the body of [/progress/topics]. *)
Definition load_progress (t : string) (topics : list TopicProgress)
  : PreviousProgress :=
  match list_find (λ tp, topic tp = Some t) topics with
  | Some (_, tp) =>
      {| prev_masteryLevel := json_number_or_0 (masteryLevel tp);
         prev_timeSpent := json_number_or_0 (timeSpent tp);
         prev_sessionsCount := sessionsCount tp |}
  | None =>
      {| prev_masteryLevel := 0; prev_timeSpent := 0;
         prev_sessionsCount := 0 |}
  end.

(** Step [generate-learning-path]: the approach chosen. *)
Definition approach (prev : PreviousProgress) : string :=
  if prev_sessionsCount prev =? 0 then "introduction"
  else if negb (Qle_bool 50 (prev_masteryLevel prev)) then "reinforcement"
  else "advanced".

Record MasteryUpdate := {
  previousLevel : Q;
  newLevel : Q;
  increase : Q;
}.

(** Step [update-mastery]; [duration / 10] is floored, and the session
    duration is a whole number of minutes. *)
Definition update_mastery (prev : PreviousProgress) (duration : Z)
  : MasteryUpdate :=
  let sessionBonus := 5 in
  let timeBonus := Z.min 10 (duration / 10) in
  let newMasteryLevel :=
    Qmin 100 (prev_masteryLevel prev + inject_Z sessionBonus
              + inject_Z timeBonus) in
  {| previousLevel := prev_masteryLevel prev;
     newLevel := newMasteryLevel;
     increase := (newMasteryLevel - prev_masteryLevel prev)%Q |}.

Record RepetitionSchedule := {
  rs_topic : string;
  rs_nextReview : Z;
  intervalDays : Z;
  rs_masteryLevel : Q;
}.

(** Step [schedule-repetition]. *)
Definition schedule_repetition (t : string) (m : MasteryUpdate) (now : Z)
  : RepetitionSchedule :=
  let intervalDays :=
    if Qle_bool 80 (newLevel m) then 7
    else if Qle_bool 60 (newLevel m) then 3
    else if Qle_bool 40 (newLevel m) then 2
    else 1 in
  {| rs_topic := t;
     rs_nextReview := now + intervalDays * 24 * 60 * 60 * 1000;
     intervalDays := intervalDays;
     rs_masteryLevel := newLevel m |}.

(** [getFocusAreas(approach, topic)] *)
Definition getFocusAreas (approach t : string) : list string :=
  if String.eqb approach "introduction" then
    [ "Basic concepts of " +:+ t; "Fundamental principles";
      "Simple examples"; "Common terminology" ]
  else if String.eqb approach "reinforcement" then
    [ "Review core concepts of " +:+ t; "Practice problems";
      "Common misconceptions"; "Real-world applications" ]
  else if String.eqb approach "advanced" then
    [ "Advanced aspects of " +:+ t; "Complex scenarios"; "Edge cases";
      "Integration with other concepts" ]
  else [ "Understanding " +:+ t; "Key concepts"; "Examples" ].

Record LearningPath := {
  lp_approach : string;
  suggestedDuration : Z;
  focusAreas : list string;
}.

(** Step [generate-learning-path]. *)
Definition generate_learning_path (prev : PreviousProgress) (t : string)
    (duration : Z) : LearningPath :=
  {| lp_approach := approach prev;
     suggestedDuration := duration;
     focusAreas := getFocusAreas (approach prev) t |}.

End StudySessionWorkflow.

(** ** [QuizGenerationWorkflow]: steps 3 and 4 of [run] *)

Module QuizGenerationWorkflow.

(** An element of the decoded ["questions"] array.  A field is [None] when
    the object does not have it; a field that is there has the JSON type
    the declaration of [QuizQuestion] gives it. *)
Record Candidate := {
  c_id : option string;
  c_question : option string;
  c_type : option string;
  c_options : option (list string);
  c_correctAnswer : option string;
  c_explanation : option string;
  c_points : option Z;
}.

(** [x || d] on an optional string: the empty string is falsy. *)
Definition str_or (x : option string) (d : string) : string :=
  match x with
  | Some s => if String.eqb s EmptyString then d else s
  | None => d
  end.

(** [!x] on an optional string. *)
Definition str_falsy (x : option string) : bool :=
  match x with
  | Some s => String.eqb s EmptyString
  | None => true
  end.

(** [x || d] on an optional number: zero is falsy. *)
Definition num_or (x : option Z) (d : Z) : Z :=
  match x with
  | Some n => if n =? 0 then d else n
  | None => d
  end.

(** [!q.question || !q.correctAnswer || !q.explanation] *)
Definition missing_required (q : Candidate) : bool :=
  str_falsy (c_question q) || str_falsy (c_correctAnswer q)
  || str_falsy (c_explanation q).

(** The object [validatedQ], built when [validated] holds [n] questions. *)
Definition validatedQ (q : Candidate) (n : nat) : QuizQuestion :=
  {| q_id := str_or (c_id q) ("q" +:+ pretty (n + 1)%nat);
     question := default EmptyString (c_question q);
     q_type := str_or (c_type q) "short-answer";
     options := c_options q;
     correctAnswer := default EmptyString (c_correctAnswer q);
     explanation := default EmptyString (c_explanation q);
     points := num_or (c_points q) 10 |}.

(** The [for ... of] loop of step [validate-questions]; [validated] is
    the array the loop pushes to. *)
Fixpoint validate_loop (generatedQuestions : list Candidate)
    (validated : list QuizQuestion) : list QuizQuestion :=
  match generatedQuestions with
  | [] => validated
  | q :: rest =>
      if missing_required q then validate_loop rest validated
      else validate_loop rest
             (validated ++ [validatedQ q (length validated)])
  end.

(** Step [validate-questions]. *)
Definition validate_questions (generatedQuestions : list Candidate)
    (questionCount : Z) : list QuizQuestion :=
  slice0 questionCount (validate_loop generatedQuestions []).

(** Step [identify-concepts]: [pieces] is what
    [conceptsText.split(',').map(c => c.trim())] gives on the answer of the
    model, [None] when the call to the model fails. *)
Definition identify_concepts (t : string) (pieces : option (list string))
  : list string :=
  match pieces with
  | Some cs => filter (λ c, (0 < String.length c)%nat) cs
  | None => [ "Core " +:+ t +:+ " concepts"; t +:+ " fundamentals";
              t +:+ " applications" ]
  end.

(** [concepts[i % concepts.length] || topic]: with no concept the index is
    [NaN] and the lookup gives [undefined]. *)
Definition concept_at (t : string) (concepts : list string) (i : nat)
  : string :=
  match concepts with
  | [] => t
  | _ => str_or (concepts !! (i mod length concepts)%nat) t
  end.

(** The question pushed by the [i]-th turn of the loop of
    [getFallbackQuestions]. *)
Definition fallback_question (t : string) (concepts : list string)
    (i : nat) : QuizQuestion :=
  let concept := concept_at t concepts i in
  {| q_id := "q" +:+ pretty (i + 1)%nat;
     question := "Explain your understanding of " +:+ concept +:+ ".";
     q_type := "short-answer";
     options := None;
     correctAnswer := "Open-ended answer";
     explanation := "This tests your understanding of " +:+ concept +:+ ".";
     points := 10 |}.

(** [for (let i = 0; i < Math.min(count, 5); i++) questions.push(...)] *)
Definition getFallbackQuestions (t : string) (count : Z)
    (concepts : list string) : list QuizQuestion :=
  fold_left (λ questions i, questions ++ [fallback_question t concepts i])
            (seq 0 (Z.to_nat (Z.min count 5))) [].

(** A fallback question as step [validate-questions] reads it. *)
Definition as_candidate (q : QuizQuestion) : Candidate :=
  {| c_id := Some (q_id q); c_question := Some (question q);
     c_type := Some (q_type q); c_options := options q;
     c_correctAnswer := Some (correctAnswer q);
     c_explanation := Some (explanation q);
     c_points := Some (points q) |}.

(** [content.match(/\{[\s\S]*\}/)]: from the first opening brace to the
    last closing brace after it. *)
Fixpoint upto_last_close (s : string) : option string :=
  match s with
  | EmptyString => None
  | String c r =>
      match upto_last_close r with
      | Some m => Some (String c m)
      | None => if Ascii.eqb c "}" then Some (String c EmptyString) else None
      end
  end.

Fixpoint match_braces (content : string) : option string :=
  match content with
  | EmptyString => None
  | String c r =>
      if Ascii.eqb c "{" then
        match upto_last_close r with
        | Some m => Some (String c m)
        | None => None
        end
      else match_braces r
  end.

(** What the call to the model gives. *)
Inductive AiOutcome :=
  | AiThrows
  | AiResponse (response : option string).

(** What [JSON.parse] gives on the matched text, as far as the step looks
    at it. *)
Inductive Parsed :=
  | SyntaxError
  | NoQuestionsArray
  | Questions (qs : list Candidate).

Section GenerateQuestions.

(** [JSON.parse] followed by the reading of the field ["questions"]. *)
Variable JSON_parse : string -> Parsed.

(** The [try] block of step [generate-questions] when the cache has no
    entry: the questions returned, and whether they came from the model
    (they are then put in the cache) or from [getFallbackQuestions]. *)
Definition generate_questions (t : string) (questionCount : Z)
    (keyConcepts : list string) (ai : AiOutcome)
  : list Candidate * bool :=
  let fallback :=
    (as_candidate <$> getFallbackQuestions t questionCount keyConcepts,
     false) in
  match ai with
  | AiThrows => fallback
  | AiResponse response =>
      let content := str_or response "{}" in
      match match_braces content with
      | None => fallback
      | Some jsonMatch =>
          match JSON_parse jsonMatch with
          | Questions qs => (qs, true)
          | SyntaxError | NoQuestionsArray => fallback
          end
      end
  end.

End GenerateQuestions.

(** Step [create-answer-key]: [key[q.id] = q.correctAnswer] for each
    validated question, in order. *)
Definition create_answer_key (validatedQuestions : list QuizQuestion)
  : gmap string string :=
  fold_left (λ key q, js_set_text key (q_id q) (correctAnswer q))
            validatedQuestions ∅.

(** Step [store-quiz]: the quiz sent to [/quiz/save]; [id] is the
    identifier drawn for it. *)
Definition store_quiz (id t : string) (d : Difficulty)
    (validatedQuestions : list QuizQuestion) (now : Z) (s : UserState)
  : UserState :=
  StudyState.saveQuiz
    {| quiz_id := id; quiz_topic := t; quiz_difficulty := d;
       questions := validatedQuestions; createdAt := now |} s.

(** The figures step [finalize-quiz] adds to the quiz it returns. *)
Definition totalPoints (validatedQuestions : list QuizQuestion) : Z :=
  fold_left (λ sum q, sum + points q) validatedQuestions 0.

Definition estimatedTime (validatedQuestions : list QuizQuestion) : Z :=
  Z.of_nat (length validatedQuestions) * 2.

End QuizGenerationWorkflow.

(** ** [AIService.chat]: the messages sent to the model *)

Module AIService.

(** An element of [messages]: the entries taken from the history keep
    their timestamp, the two entries built here have none. *)
Record PromptMessage := {
  pm_role : Role;
  pm_content : string;
  pm_timestamp : option Z;
}.

Definition of_history (m : ChatMessage) : PromptMessage :=
  {| pm_role := role m; pm_content := content m;
     pm_timestamp := Some (msg_timestamp m) |}.

(** [array.slice(-n)]: the last [n] elements, all of them when there are
    fewer. *)
Definition slice_last {A} (n : nat) (l : list A) : list A :=
  drop (length l - n) l.

Definition systemPrompt : string :=
"You are an encouraging and patient AI study tutor. Your goals:
- Help students understand complex topics through clear explanations
- Break down difficult concepts into simpler parts
- Use analogies and examples to illustrate ideas
- Ask probing questions to check understanding
- Adjust explanations based on student responses
- Encourage critical thinking and curiosity
- Stay focused on educational content
- Be supportive and positive

When explaining:
- Start with high-level concepts, then dive deeper
- Use concrete examples
- Check for understanding regularly
- Relate new concepts to familiar ones".

(** The array [messages] of [chat(userMessage, history)]. *)
Definition chat_messages (userMessage : string) (history : list ChatMessage)
  : list PromptMessage :=
  {| pm_role := system; pm_content := systemPrompt; pm_timestamp := None |}
  :: (of_history <$> slice_last 10 history)
  ++ [ {| pm_role := user; pm_content := userMessage;
          pm_timestamp := None |} ].

(** [getFallbackQuestions(topic, count)] of the service, used when the
    workflow cannot be started and the generation fails. *)
Definition fallback_question (t : string) (i : nat) : QuizQuestion :=
  {| q_id := "q" +:+ pretty (i + 1)%nat;
     question := "What is a key concept in " +:+ t +:+ "?";
     q_type := "short-answer";
     options := None;
     correctAnswer := "Various answers accepted";
     explanation := "This question tests your understanding of "
                    +:+ t +:+ ".";
     points := 10 |}.

Definition getFallbackQuestions (t : string) (count : Z)
  : list QuizQuestion :=
  fold_left (λ questions i, questions ++ [fallback_question t i])
            (seq 0 (Z.to_nat (Z.min count 3))) [].

End AIService.

(** ** Sequences of operations on one user's state

    The handlers the Worker calls.  ([/progress/update], which overwrites
    fields of [progress] with whatever it is sent, has no caller and is
    left out.) *)

Module Store.
Import StudyState.

Inductive Op :=
  | CreateSession (session : StudySession)
  | CompleteSession (sessionId : string) (now : Z)
  | SaveQuiz (quiz : Quiz)
  | SubmitQuiz (id : string) (answers : gmap string string) (now : Z)
  | SaveChatMessage (sessionId userMessage aiResponse : string) (now : Z).

Section Run.
Context `{L : Lowercase}.

Definition step (o : Op) (s : UserState) : UserState :=
  match o with
  | CreateSession session => createSession session s
  | CompleteSession sessionId now => (completeSession sessionId now s).2
  | SaveQuiz quiz => saveQuiz quiz s
  | SubmitQuiz id answers now => (submitQuiz id answers now s).2
  | SaveChatMessage sessionId u a now =>
      (saveChatMessage sessionId u a now s).2
  end.

Definition run (ops : list Op) (s : UserState) : UserState :=
  fold_left (λ s o, step o s) ops s.

(** The states a user can be in: whatever a sequence of calls leaves. *)
Inductive reachable : UserState → Prop :=
  | reach_default : reachable createDefaultState
  | reach_step s o : reachable s → reachable (step o s).

End Run.

(** A quiz as the data model describes it: at least one question, every
    question worth a positive number of points. *)
Definition quiz_ok (q : Quiz) : Prop :=
  questions q ≠ [] ∧ Forall (λ x, 0 < points x) (questions q).

Definition op_ok (o : Op) : Prop :=
  match o with
  | SaveQuiz q => quiz_ok q
  | _ => True
  end.

Definition is_submit (o : Op) : bool :=
  match o with SubmitQuiz _ _ _ => true | _ => false end.

(** The states a user can be in when every quiz saved is such a quiz. *)
Inductive reachable_gradable `{L : Lowercase} : UserState → Prop :=
  | gradable_default : reachable_gradable createDefaultState
  | gradable_step s o :
      reachable_gradable s → op_ok o → reachable_gradable (step o s).

End Store.

(** ** Notions the specification uses *)

Module Spec.
Import StudyState.

(** A response that reports an error. *)
Definition is_error {A} (r : Response A) : bool :=
  match r with Ok _ => false | NotFound _ | InternalError => true end.

(** The submitted answer to a question matches its correct answer,
    whatever the case of the letters. *)
Definition matches `{L : Lowercase} (answers : gmap string string)
    (q : QuizQuestion) : Prop :=
  ∃ a, answers !! q_id q = Some a ∧
       toLowerCase a = toLowerCase (correctAnswer q).

#[global] Instance matches_dec `{L : Lowercase} answers q
  : Decision (matches answers q).
Proof.
  unfold matches. destruct (answers !! q_id q) as [a|].
  - destruct (decide (toLowerCase a = toLowerCase (correctAnswer q)))
      as [E|E].
    + left. exists a. split; [reflexivity | exact E].
    + right. intros (a' & Ha & H). apply E. congruence.
  - right. intros (a' & Ha & _). discriminate.
Defined.

(** The sheet names, for some question, a property that a plain object
    inherits and the sheet does not have itself: scoring that question
    throws. *)
Definition reads_inherited (answers : gmap string string)
    (qs : list QuizQuestion) : Prop :=
  Exists (λ q, answers !! q_id q = None ∧ inherited (q_id q) = true) qs.

#[global] Instance reads_inherited_dec answers qs
  : Decision (reads_inherited answers qs).
Proof. unfold reads_inherited. apply _. Defined.

(** Sum of the points of a list of questions. *)
Fixpoint sum_points (qs : list QuizQuestion) : Z :=
  match qs with
  | [] => 0
  | q :: r => points q + sum_points r
  end.

(** A field a candidate has: it is there and not the empty text. *)
Definition present (x : option string) : Prop :=
  ∃ v, x = Some v ∧ v ≠ EmptyString.

#[global] Instance present_dec x : Decision (present x).
Proof.
  unfold present. destruct x as [v|].
  - destruct (decide (v = EmptyString)) as [E|E].
    + right. intros (v' & Hv & H). apply H. congruence.
    + left. exists v. split; [reflexivity | exact E].
  - right. intros (v & Hv & _). discriminate.
Defined.

(** A candidate with a question text, a correct answer and an
    explanation. *)
Definition complete (q : QuizGenerationWorkflow.Candidate) : Prop :=
  present (QuizGenerationWorkflow.c_question q) ∧
  present (QuizGenerationWorkflow.c_correctAnswer q) ∧
  present (QuizGenerationWorkflow.c_explanation q).

#[global] Instance complete_dec q : Decision (complete q).
Proof. unfold complete. apply _. Defined.

(** The model answered, but no question list can be read from the answer:
    no text between braces, text that does not decode, or decoded data
    without an array under ["questions"]. *)
Definition decoding_fails (JSON_parse : string → QuizGenerationWorkflow.Parsed)
    (response : option string) : Prop :=
  match QuizGenerationWorkflow.match_braces
          (QuizGenerationWorkflow.str_or response "{}") with
  | None => True
  | Some jsonMatch =>
      JSON_parse jsonMatch = QuizGenerationWorkflow.SyntaxError ∨
      JSON_parse jsonMatch = QuizGenerationWorkflow.NoQuestionsArray
  end.

(** What the completion of a session is measured from: its topic and the
    time it started, for every session stored. *)
Definition session_table (s : UserState) : gmap string (string * Z) :=
  (λ x, (session_topic x, startTime x)) <$> sessions s.

(** The completions a sequence of calls makes, in order: for every call
    [completeSession(sessionId)] at time [now] on a session stored by
    then, the topic of the session and the minutes
    [(now - startTime) / 1000 / 60] since it started.  A call on an
    unknown session completes nothing; no other call completes anything. *)
Fixpoint completions (tbl : gmap string (string * Z)) (ops : list Store.Op)
  : list (string * Q) :=
  match ops with
  | [] => []
  | Store.CreateSession x :: rest =>
      completions (<[session_id x := (session_topic x, startTime x)]> tbl)
                  rest
  | Store.CompleteSession sessionId now :: rest =>
      match tbl !! sessionId with
      | Some (t, started) =>
          (t, (inject_Z (now - started) / 1000 / 60)%Q)
          :: completions tbl rest
      | None => completions tbl rest
      end
  | _ :: rest => completions tbl rest
  end.

(** [acc + p1 + ... + pn], added from the left. *)
Fixpoint Qsum_from (acc : Q) (ps : list Q) : Q :=
  match ps with
  | [] => acc
  | p :: rest => Qsum_from (acc + p)%Q rest
  end.

(** The mean of a list of numbers: their sum from [0], by their number. *)
Definition Qmean (ps : list Q) : Q :=
  (Qsum_from 0 ps / inject_Z (Z.of_nat (length ps)))%Q.

(** Number of completions on a topic. *)
Definition completed_on (t : string) (cs : list (string * Q)) : Z :=
  Z.of_nat (length (filter (λ c, c.1 = t) cs)).

(** A call that does not complete a name which plain objects inherit. *)
Definition plain_completion (o : Store.Op) : Prop :=
  match o with
  | Store.CompleteSession sessionId _ => inherited sessionId = false
  | _ => True
  end.

#[global] Instance plain_completion_dec o : Decision (plain_completion o).
Proof. destruct o; apply _. Defined.

(** Number of stored sessions on a topic whose status is [completed]. *)
Definition completed_sessions_on (t : string) (s : UserState) : Z :=
  Z.of_nat (length (filter (λ x, status x = completed ∧ session_topic x = t)
                           (map_to_list (sessions s)).*2)).


(** The quiz results that belong to quizzes of a topic. *)
Definition belongs_to (s : UserState) (t : string) (r : QuizResult)
  : Prop :=
  ∃ q, quizzes s !! quizId r = Some q ∧ quiz_topic q = t.

#[global] Instance belongs_to_dec s t r : Decision (belongs_to s t r).
Proof.
  unfold belongs_to. destruct (quizzes s !! quizId r) as [q|].
  - destruct (decide (quiz_topic q = t)) as [E|E].
    + left. exists q. split; [reflexivity | exact E].
    + right. intros (q' & Hq & H). apply E. congruence.
  - right. intros (q' & Hq & _). discriminate.
Defined.

(** The percentages of the stored results that belong to quizzes of a
    topic, in the order the results were stored. *)
Definition percentages_of (t : string) (s : UserState) : list jsnum :=
  percentage <$> filter (belongs_to s t) (quizResults s).

(** A number in the range of a percentage. *)
Definition in_0_100 (x : jsnum) : Prop :=
  ∃ q, x = Fin q ∧ (0 <= q <= 100)%Q.

(** Order on the numbers that are not exceptional. *)
Definition jle (a b : jsnum) : Prop :=
  match a, b with
  | Fin x, Fin y => (x <= y)%Q
  | _, _ => False
  end.

(** The mastery level recorded for a topic; a topic without an entry
    counts as level 0, as the workflows read it. *)
Definition mastery_of (t : string) (s : UserState) : jsnum :=
  match find_topic t (topicsStudied (progress s)) with
  | Some (_, tp) => masteryLevel tp
  | None => jsZ 0
  end.

(** The number of sessions recorded for a topic. *)
Definition sessionsCount_of (t : string) (s : UserState) : Z :=
  match find_topic t (topicsStudied (progress s)) with
  | Some (_, tp) => sessionsCount tp
  | None => 0
  end.

(** An entry of [topicsStudied] as the handlers leave it. *)
Definition topic_ok (tp : TopicProgress) : Prop :=
  0 ≤ sessionsCount tp ∧
  in_0_100 (quizAverage tp) ∧
  masteryLevel tp = mastery (sessionsCount tp) (quizAverage tp).

(** What holds of every state a user can be in when every quiz saved has
    a question and positive points. *)
Definition state_ok (s : UserState) : Prop :=
  map_Forall (λ _ q, Store.quiz_ok q) (quizzes s) ∧
  Forall (λ r, in_0_100 (percentage r)) (quizResults s) ∧
  Forall topic_ok (topicsStudied (progress s)).

(** A chat history made of whole turns: a [user] message, then the
    [assistant] reply stamped one millisecond later. *)
Inductive whole_turns : list ChatMessage → Prop :=
  | turns_nil : whole_turns []
  | turns_cons u a rest :
      role u = user → role a = assistant →
      msg_timestamp a = msg_timestamp u + 1 →
      whole_turns rest → whole_turns (u :: a :: rest).

(** Two answer sheets that differ at most in the case of letters. *)
Definition same_up_to_case `{L : Lowercase} (a1 a2 : gmap string string)
  : Prop :=
  ∀ k, toLowerCase <$> (a1 !! k) = toLowerCase <$> (a2 !! k).

(** Some stored result has a percentage that is not a number. *)
Definition has_NaN_result (s : UserState) : Prop :=
  ∃ r, r ∈ quizResults s ∧ percentage r = NaN.

(** A character occurs in a string. *)
Fixpoint occurs (c : ascii) (s : string) : Prop :=
  match s with
  | EmptyString => False
  | String c' r => c' = c ∨ occurs c r
  end.

(** The two figures kept about quiz results agree with the results
    stored. *)
Definition results_counted (s : UserState) : Prop :=
  totalQuizzes (progress s) = Z.of_nat (length (quizResults s)) ∧
  (quizResults s = [] → averageScore (progress s) = jsZ 0) ∧
  (quizResults s ≠ [] →
   ∀ ps, percentage <$> quizResults s = Fin <$> ps →
     ∃ a, averageScore (progress s) = Fin a ∧ (a == Qmean ps)%Q) ∧
  (has_NaN_result s → averageScore (progress s) = NaN).

(** A question with every field the validation step asks for or fills
    in. *)
Definition question_ok (v : QuizQuestion) : Prop :=
  q_id v ≠ EmptyString ∧ question v ≠ EmptyString ∧
  q_type v ≠ EmptyString ∧ correctAnswer v ≠ EmptyString ∧
  explanation v ≠ EmptyString ∧ points v ≠ 0.

End Spec.

(** ** Concrete states used below *)

Module Examples.
Import StudyState Store.

Definition physics_session (k : nat) : StudySession :=
  {| session_id := "session_" +:+ pretty k; session_topic := "Physics";
     duration := 30; difficulty := beginner; startTime := Z.of_nat k;
     endTime := None; status := active |}.

(** The quiz of the scenario: 10 points for ["A"], 15 for ["True"]. *)
Definition two_questions : Quiz :=
  {| quiz_id := "quiz_1"; quiz_topic := "Physics";
     quiz_difficulty := beginner;
     questions :=
       [ {| q_id := "q1"; question := "First?"; q_type := "multiple-choice";
            options := Some ["A"; "B"]; correctAnswer := "A";
            explanation := "E1"; points := 10 |};
         {| q_id := "q2"; question := "Second?"; q_type := "true-false";
            options := None; correctAnswer := "True";
            explanation := "E2"; points := 15 |} ];
     createdAt := 0 |}.

Definition scenario_answers : gmap string string :=
  {[ "q1" := "a"; "q2" := "False" ]}.

(** One question, 10 points, correct answer ["A"]. *)
Definition one_question : Quiz :=
  {| quiz_id := "quiz_2"; quiz_topic := "Physics";
     quiz_difficulty := beginner;
     questions :=
       [ {| q_id := "q1"; question := "First?"; q_type := "short-answer";
            options := None; correctAnswer := "A";
            explanation := "E1"; points := 10 |} ];
     createdAt := 0 |}.

(** A quiz whose questions were all discarded. *)
Definition no_question : Quiz :=
  {| quiz_id := "quiz_3"; quiz_topic := "Physics";
     quiz_difficulty := beginner; questions := []; createdAt := 0 |}.


(** Fifty sessions created one after the other, then a quiz saved. *)
Definition fifty_sessions : list Op :=
  (CreateSession ∘ physics_session <$> seq 0 50) ++ [SaveQuiz one_question].

(** One completed session on Physics, a quiz on Physics answered right,
    then the same quiz answered wrong. *)
Definition session_then_quiz : list Op :=
  [ CreateSession (physics_session 0);
    CompleteSession "session_0" 1800000;
    SaveQuiz one_question;
    SubmitQuiz "quiz_2" {[ "q1" := "a" ]} 1800001 ].

(** Two sessions on Physics and one on Algebra. *)
Definition three_sessions : list Op :=
  [ CreateSession (physics_session 0);
    CreateSession (physics_session 1);
    CreateSession
      {| session_id := "session_a"; session_topic := "Algebra";
         duration := 10; difficulty := advanced; startTime := 2;
         endTime := None; status := active |} ].

(** They are completed after 30, 10 and 25 minutes, the first of them
    once more after 40 minutes; one call names a session that does not
    exist. *)
Definition three_completions : list Op :=
  [ CompleteSession "session_0" 1800000;
    CompleteSession "session_a" 600002;
    CompleteSession "session_x" 1200002;
    CompleteSession "session_1" 1500001;
    CompleteSession "session_0" 2400000 ].

Definition wrong_answer : Op := SubmitQuiz "quiz_2" {[ "q1" := "b" ]} 1800002.

End Examples.

(** * Properties *)

(** ** Numbers *)

Lemma jadd_NaN_r a : jadd a NaN = NaN.
Proof. by destruct a. Qed.

Lemma jsum_app l x : jsum (l ++ [x]) = jadd (jsum l) x.
Proof. unfold jsum. by rewrite fold_left_app. Qed.

Lemma jmean_NaN_last l : jmean (l ++ [NaN]) = NaN.
Proof. unfold jmean. by rewrite jsum_app, jadd_NaN_r. Qed.

Lemma jsum_NaN_acc l : fold_left jadd l NaN = NaN.
Proof. induction l as [|x l IH]; [done|]. exact IH. Qed.

Lemma jsum_NaN_in l acc : NaN ∈ l → fold_left jadd l acc = NaN.
Proof.
  revert acc. induction l as [|x l IH]; intros acc Hin.
  - by apply not_elem_of_nil in Hin.
  - apply elem_of_cons in Hin as [<- | Hin].
    + cbn. rewrite jadd_NaN_r. apply jsum_NaN_acc.
    + cbn. by apply IH.
Qed.

Lemma jmean_NaN_in l : NaN ∈ l → jmean l = NaN.
Proof. intros H. unfold jmean, jsum. by rewrite jsum_NaN_in. Qed.

Lemma Qis_zero_inject z : Qis_zero (inject_Z z) = bool_decide (z = 0).
Proof.
  unfold Qis_zero. case_bool_decide as H.
  - by subst.
  - apply not_true_is_false. intros E. apply Qeq_bool_iff in E.
    apply H. unfold Qeq in E. simpl in E. lia.
Qed.

Lemma Qis_pos_inject z : Qis_pos (inject_Z z) = bool_decide (0 < z).
Proof.
  unfold Qis_pos. case_bool_decide as H.
  - apply negb_true_iff, not_true_is_false. intros E.
    apply Qle_bool_iff in E. unfold Qle in E. simpl in E. lia.
  - apply negb_false_iff, Qle_bool_iff. unfold Qle. simpl. lia.
Qed.

(** ** Reading a property of an object *)

Section Objects.

Lemma js_get_Own {V} (obj : gmap string V) k v :
  obj !! k = Some v → js_get obj k = Own v.
Proof. unfold js_get. by intros ->. Qed.

Lemma js_get_Undefined {V} (obj : gmap string V) k :
  obj !! k = None → inherited k = false → js_get obj k = Undefined.
Proof. unfold js_get. by intros -> ->. Qed.

Lemma js_get_Inherited {V} (obj : gmap string V) k :
  obj !! k = None → inherited k = true → js_get obj k = Inherited.
Proof. unfold js_get. by intros -> ->. Qed.

Lemma js_get_Own_inv {V} (obj : gmap string V) k v :
  js_get obj k = Own v → obj !! k = Some v.
Proof.
  unfold js_get. destruct (obj !! k); [congruence|].
  by destruct (inherited k).
Qed.

End Objects.

(** ** Scoring a quiz *)

Section Scoring.
Import StudyState Spec.

Lemma is_correct_matches `{L : Lowercase} answers q :
  is_correct answers q = Some true ↔ matches answers q.
Proof.
  unfold is_correct, matches, js_get. destruct (answers !! q_id q) as [a|].
  - split.
    + intros [= H]. apply String.eqb_eq in H. by exists a.
    + intros (a' & [= <-] & H). f_equal. by apply String.eqb_eq.
  - split; [by destruct (inherited (q_id q)) | by intros (a & ? & _)].
Qed.

Lemma is_correct_throws `{L : Lowercase} answers q :
  is_correct answers q = None
  ↔ answers !! q_id q = None ∧ inherited (q_id q) = true.
Proof.
  unfold is_correct, js_get. destruct (answers !! q_id q) as [a|].
  - split; [done | by intros [? _]].
  - destruct (inherited (q_id q)); split; try done. by intros [_ ?].
Qed.

(** On text made of ASCII characters, every [toLowerCase] computes what
    the instance of the concrete runs computes. *)
Lemma is_correct_ascii `{L : Lowercase} answers q :
  map_Forall (λ _ a, is_ascii a = true) answers →
  is_ascii (correctAnswer q) = true →
  is_correct answers q = is_correct (L := ascii_lowercase) answers q.
Proof.
  intros Ha Hc. unfold is_correct, js_get.
  destruct (answers !! q_id q) as [a|] eqn:E;
    [|by destruct (inherited (q_id q))].
  rewrite (toLowerCase_ascii a) by by eapply Ha.
  by rewrite (toLowerCase_ascii (correctAnswer q)).
Qed.

Lemma compute_score_ascii `{L : Lowercase} answers qs :
  map_Forall (λ _ a, is_ascii a = true) answers →
  Forall (λ q, is_ascii (correctAnswer q) = true) qs →
  compute_score answers qs = compute_score (L := ascii_lowercase) answers qs.
Proof.
  intros Ha Hqs. unfold compute_score. generalize 0.
  induction Hqs as [|q qs Hq _ IH]; intros acc; [done|].
  cbn [score_loop]. rewrite (is_correct_ascii answers q Ha Hq).
  destruct (is_correct (L := ascii_lowercase) answers q) as [[|]|];
    [apply IH | apply IH | done].
Qed.

Lemma compute_maxScore_acc qs acc :
  fold_left (λ sum q, sum + points q) qs acc = acc + sum_points qs.
Proof.
  revert acc. induction qs as [|q qs IH]; intros acc; simpl; [lia|].
  rewrite IH. lia.
Qed.

Lemma compute_maxScore_sum qs : compute_maxScore qs = sum_points qs.
Proof. unfold compute_maxScore. by rewrite compute_maxScore_acc. Qed.

Lemma score_loop_sum `{L : Lowercase} answers qs acc :
  ¬ reads_inherited answers qs →
  score_loop answers qs acc
  = Some (acc + sum_points (filter (matches answers) qs)).
Proof.
  revert acc. induction qs as [|q qs IH]; intros acc Hn; simpl.
  - f_equal. lia.
  - assert (Hq : ¬ reads_inherited answers qs).
    { intros H. apply Hn. by apply Exists_cons_tl. }
    rewrite filter_cons.
    destruct (is_correct answers q) as [[|]|] eqn:E.
    + rewrite decide_True by by apply is_correct_matches.
      rewrite IH by done. f_equal. simpl. lia.
    + rewrite decide_False.
      * by rewrite IH.
      * intros H. apply is_correct_matches in H. congruence.
    + exfalso. apply Hn. apply Exists_cons_hd.
      by apply is_correct_throws.
Qed.

Lemma score_loop_throws `{L : Lowercase} answers qs acc :
  reads_inherited answers qs → score_loop answers qs acc = None.
Proof.
  revert acc. induction qs as [|q qs IH]; intros acc Hn; simpl.
  - by apply Exists_nil in Hn.
  - destruct (is_correct answers q) as [[|]|] eqn:E; [| |done].
    + apply IH. apply Exists_cons in Hn as [H|H]; [|done].
      apply is_correct_throws in H. congruence.
    + apply IH. apply Exists_cons in Hn as [H|H]; [|done].
      apply is_correct_throws in H. congruence.
Qed.

Lemma compute_score_sum `{L : Lowercase} answers qs :
  ¬ reads_inherited answers qs →
  compute_score answers qs
  = Some (sum_points (filter (matches answers) qs)).
Proof. intros H. unfold compute_score. by rewrite score_loop_sum. Qed.

Lemma compute_score_Some `{L : Lowercase} answers qs sc :
  compute_score answers qs = Some sc →
  ¬ reads_inherited answers qs ∧
  sc = sum_points (filter (matches answers) qs).
Proof.
  intros E. destruct (decide (reads_inherited answers qs)) as [H|H].
  - unfold compute_score in E. by rewrite score_loop_throws in E.
  - split; [done|]. rewrite compute_score_sum in E by done. congruence.
Qed.

Lemma compute_percentage_Fin sc m :
  m ≠ 0 →
  ∃ p, compute_percentage sc m = Fin p ∧
       (p == inject_Z sc / inject_Z m * 100)%Q.
Proof.
  intros Hm. unfold compute_percentage, jsZ. cbn [jdiv].
  rewrite Qis_zero_inject, bool_decide_false by done.
  eexists. split; [reflexivity|]. reflexivity.
Qed.

Lemma compute_percentage_zero sc :
  ∀ p, compute_percentage sc 0 ≠ Fin p.
Proof.
  intros p. unfold compute_percentage, jsZ. cbn [jdiv].
  change (Qis_zero (inject_Z 0)) with true. cbn iota.
  destruct (Qis_zero (inject_Z sc)); [done|].
  destruct (Qis_pos (inject_Z sc)); done.
Qed.

(** Sums and means of numbers that are all finite. *)
Lemma jsum_Fin_acc ps acc :
  fold_left jadd (Fin <$> ps) (Fin acc) = Fin (Qsum_from acc ps).
Proof.
  revert acc. induction ps as [|p ps IH]; intros acc; simpl; [done|].
  apply IH.
Qed.

Lemma jmean_Fin ps :
  ps ≠ [] →
  ∃ a, jmean (Fin <$> ps) = Fin a ∧ (a == Qmean ps)%Q.
Proof.
  intros Hne. unfold jmean, jsum, jsZ. rewrite jsum_Fin_acc, length_fmap.
  cbn [jdiv]. rewrite Qis_zero_inject, bool_decide_false.
  - eexists. split; [reflexivity|]. reflexivity.
  - destruct ps; [done|]. simpl. lia.
Qed.

End Scoring.

(** ** The two lookups that can fail *)

Section Lookups.
Import StudyState Spec.


Lemma completeSession_unknown s sessionId now :
  sessions s !! sessionId = None → inherited sessionId = false →
  completeSession sessionId now s = (Ok tt, s).
Proof.
  intros Hs Hi. unfold completeSession. by rewrite js_get_Undefined.
Qed.

(** C7: the identifier [constructor] is unknown to the default state, as
    a quiz and as a session; yet [submitQuiz] on it answers with the
    internal error instead of the not-found error, and [completeSession]
    on it answers with success but changes the state: [totalStudyTime]
    becomes [NaN] and [topicsStudied] gets an entry without a topic, with
    one session and a mastery level of 10. *)
Theorem unknown_ids_asymmetry :
  let s := createDefaultState in
  let done := completeSession "constructor" 60000 s in
  quizzes s !! "constructor" = None ∧
  sessions s !! "constructor" = None ∧
  submitQuiz "constructor" ∅ 60000 s = (InternalError, s) ∧
  submitQuiz "constructor" ∅ 60000 s ≠ (NotFound "Quiz not found", s) ∧
  done.1 = Ok tt ∧
  done.2 ≠ s ∧
  totalStudyTime (progress done.2) = NaN ∧
  ∃ tp, topicsStudied (progress done.2) = [tp] ∧
        topic tp = None ∧ sessionsCount tp = 1 ∧ timeSpent tp = NaN ∧
        jeq (masteryLevel tp) (jsZ 10).
Proof.
  cbv zeta. split; [done|]. split; [done|]. split; [done|].
  split; [done|]. split; [done|]. split; [by vm_compute|].
  split; [done|]. eexists. split; [reflexivity|].
  by vm_compute.
Qed.

End Lookups.

(** ** [submitQuiz] on a stored quiz *)

Section Submit.
Import StudyState Spec Examples.

Lemma submitQuiz_found `{L : Lowercase} s id quiz answers now sc :
  quizzes s !! id = Some quiz →
  compute_score answers (questions quiz) = Some sc →
  ∃ r s',
    submitQuiz id answers now s = (Ok r, s') ∧
    quizId r = id ∧
    score r = sc ∧
    maxScore r = compute_maxScore (questions quiz) ∧
    percentage r = compute_percentage (score r) (maxScore r) ∧
    quizzes s' = quizzes s ∧
    sessions s' = sessions s ∧
    quizResults s' = quizResults s ++ [r] ∧
    totalQuizzes (progress s') = totalQuizzes (progress s) + 1 ∧
    totalStudyTime (progress s') = totalStudyTime (progress s) ∧
    averageScore (progress s') = jmean (percentage <$> quizResults s') ∧
    recentActivity (progress s')
      = {| act_type := quiz_activity; act_topic := quiz_topic quiz;
           act_timestamp := now; act_score := Some (percentage r) |}
        :: recentActivity (progress s).
Proof.
  intros Hq Hsc. unfold submitQuiz. rewrite (js_get_Own _ _ _ Hq), Hsc.
  unfold record_result. cbv zeta.
  eexists _, _. split; [reflexivity|].
  unfold updateTopicQuizAverage. cbn [progress topicsStudied].
  destruct (find_topic _ _) as [[i tp]|]; cbn; repeat split; reflexivity.
Qed.

Lemma submitQuiz_throws `{L : Lowercase} s id quiz answers now :
  quizzes s !! id = Some quiz →
  compute_score answers (questions quiz) = None →
  submitQuiz id answers now s = (InternalError, s).
Proof.
  intros Hq Hsc. unfold submitQuiz. by rewrite (js_get_Own _ _ _ Hq), Hsc.
Qed.

(** The outcomes of [submitQuiz]: an error that leaves the state alone,
    or a stored quiz scored. *)
Lemma submitQuiz_cases `{L : Lowercase} s id answers now :
  (is_error (submitQuiz id answers now s).1 = true ∧
   (submitQuiz id answers now s).2 = s) ∨
  (∃ quiz sc, quizzes s !! id = Some quiz ∧
              compute_score answers (questions quiz) = Some sc).
Proof.
  unfold submitQuiz, js_get. destruct (quizzes s !! id) as [quiz|] eqn:Hq.
  - destruct (compute_score answers (questions quiz)) as [sc|] eqn:E.
    + right. by exists quiz, sc.
    + by left.
  - left. by destruct (inherited id).
Qed.




End Submit.

(** ** Quizzes without questions *)

Section EmptyQuiz.
Import StudyState Spec Examples QuizGenerationWorkflow.

Lemma validate_loop_all_missing cands validated :
  Forall (λ q, missing_required q = true) cands →
  validate_loop cands validated = validated.
Proof.
  induction 1 as [|q cands Hq _ IH]; simpl; [done|]. by rewrite Hq.
Qed.

Lemma slice0_nil {A} n : slice0 n (@nil A) = [].
Proof. unfold slice0. destruct (n <? 0); apply take_nil. Qed.

(** C10: the percentage of a result is a number exactly when the maximal
    score is not zero.  The validation step returns no question when every
    candidate misses a required field; [saveQuiz] stores a quiz without
    questions as any other; and [submitQuiz] on such a quiz computes
    [maxScore = 0], divides by it, returns [NaN] as the percentage and
    leaves [NaN] in [averageScore]. *)
Theorem empty_quiz_percentage_NaN `{L : Lowercase} (s : UserState)
    (quiz : Quiz) (cands : list Candidate) (questionCount : Z)
    (answers : gmap string string) (now : Z) :
  Forall (λ q, missing_required q = true) cands →
  questions quiz = validate_questions cands questionCount →
  questions quiz = [] ∧
  quizzes (saveQuiz quiz s) !! quiz_id quiz = Some quiz ∧
  ∃ r s',
    submitQuiz (quiz_id quiz) answers now (saveQuiz quiz s) = (Ok r, s') ∧
    maxScore r = 0 ∧
    percentage r = NaN ∧
    averageScore (progress s') = NaN ∧
    (∀ sc m, (∃ p, compute_percentage sc m = Fin p) ↔ m ≠ 0).
Proof.
  intros Hall Hqs.
  assert (Hnil : questions quiz = []).
  { rewrite Hqs. unfold validate_questions.
    rewrite validate_loop_all_missing by done. apply slice0_nil. }
  assert (Hlook : quizzes (saveQuiz quiz s) !! quiz_id quiz = Some quiz).
  { unfold saveQuiz. cbn. apply lookup_insert_eq. }
  split; [exact Hnil|]. split; [exact Hlook|].
  assert (Hsc : compute_score answers (questions quiz) = Some 0)
    by by rewrite Hnil.
  destruct (submitQuiz_found _ _ _ answers now _ Hlook Hsc)
    as (r & s' & E & _ & Hs & Hm & Hp & _ & _ & Hr & _ & _ & Ha & _).
  rewrite Hnil in Hm. cbn in Hm.
  assert (HNaN : percentage r = NaN) by (by rewrite Hp, Hs, Hm).
  exists r, s'. split; [exact E|]. split; [exact Hm|].
  split; [exact HNaN|]. split.
  - rewrite Ha, Hr, fmap_app. cbn [fmap list_fmap]. rewrite HNaN.
    apply jmean_NaN_last.
  - intros sc m. split.
    + intros [p Hfin] ->. by apply (compute_percentage_zero sc p).
    + intros Hm0. destruct (compute_percentage_Fin sc m Hm0) as (p & E' & _).
      by exists p.
Qed.

Lemma empty_quiz_percentage_NaN_witness :
  ∃ r s',
    submitQuiz "quiz_3" ∅ 0 (saveQuiz no_question createDefaultState)
      = (Ok r, s') ∧
    percentage r = NaN ∧ averageScore (progress s') = NaN.
Proof.
  destruct (empty_quiz_percentage_NaN createDefaultState no_question
              [ {| c_id := Some "q1"; c_question := Some "What?";
                   c_type := None; c_options := None;
                   c_correctAnswer := None; c_explanation := Some "E";
                   c_points := None |} ] 5 ∅ 0)
    as (_ & _ & r & s' & E & _ & Hp & Ha & _).
  - repeat constructor.
  - reflexivity.
  - exists r, s'. split; [exact E|]. split; [exact Hp | exact Ha].
Defined.

End EmptyQuiz.

(** ** The bound on [recentActivity] *)

Section RecentActivity.
Import StudyState Spec Store Examples.

Lemma slice0_50_length {A} (l : list A) : (length (slice0 50 l) ≤ 50)%nat.
Proof. unfold slice0. cbn. rewrite length_take. lia. Qed.

(** [createSession] keeps the fifty most recent activities. *)
Lemma createSession_recentActivity s session :
  recentActivity (progress (createSession session s))
  = take 50 ({| act_type := session_activity;
                act_topic := session_topic session;
                act_timestamp := startTime session;
                act_score := None |} :: recentActivity (progress s)) ∧
  (length (recentActivity (progress (createSession session s))) ≤ 50)%nat.
Proof.
  split; [reflexivity|]. cbn. apply slice0_50_length.
Qed.

(** [submitQuiz] puts its record in front and cuts nothing off. *)
Lemma submitQuiz_recentActivity_length `{L : Lowercase} s id quiz answers
    now sc :
  quizzes s !! id = Some quiz →
  compute_score answers (questions quiz) = Some sc →
  length (recentActivity (progress (submitQuiz id answers now s).2))
  = S (length (recentActivity (progress s))).
Proof.
  intros Hq Hsc.
  destruct (submitQuiz_found s id quiz answers now sc Hq Hsc)
    as (r & s' & E & H). rewrite E. cbn.
  destruct H as (_ & _ & _ & _ & _ & _ & _ & _ & _ & _ & ->). done.
Qed.

Lemma run_reachable_gradable `{L : Lowercase} ops s :
  reachable_gradable s → Forall op_ok ops → reachable_gradable (run ops s).
Proof.
  intros Hs Hops. revert s Hs.
  induction Hops as [|o ops Ho _ IH]; intros s Hs; [done|].
  cbn. apply IH. by constructor.
Qed.

Lemma run_reachable `{L : Lowercase} ops s :
  reachable s → reachable (run ops s).
Proof.
  revert s. induction ops as [|o ops IH]; intros s Hs; [done|].
  cbn. apply IH. by constructor.
Qed.

Lemma reachable_gradable_reachable `{L : Lowercase} s :
  reachable_gradable s → reachable s.
Proof. induction 1; by constructor. Qed.

(** C1: after fifty sessions were created and a quiz was saved, the state
    is reachable and holds fifty activities; one [submitQuiz] on the saved
    quiz then leaves fifty-one activities in [recentActivity]. *)
Theorem submitQuiz_recentActivity_51 :
  let s := run fifty_sessions createDefaultState in
  reachable_gradable s ∧
  length (recentActivity (progress s)) = 50%nat ∧
  length (recentActivity
            (progress (submitQuiz "quiz_2" {[ "q1" := "a" ]} 99 s).2))
  = 51%nat.
Proof.
  cbv zeta. split; [|split].
  - apply run_reachable_gradable; [constructor|].
    unfold fifty_sessions. apply Forall_app. split.
    + apply Forall_fmap, Forall_forall. by intros.
    + repeat constructor. done. 
  - by vm_compute.
  - by vm_compute.
Qed.

End RecentActivity.

(** ** Mastery update and review interval of the study-session workflow *)

Section MasteryUpdate.
Import StudySessionWorkflow.

(** C6: for a previous level [p] in [0,100] and a duration [d] of 5 to
    120 minutes, step [update-mastery] computes
    [newLevel = min(100, p + 5 + min(10, floor(d / 10)))] and
    [increase = newLevel - p]; step [schedule-repetition] then gives an
    interval of 7 days from level 80, of 3 days from 60, of 2 days from
    40 and of 1 day below, and a next review that many days after [now],
    in milliseconds. *)
Theorem update_mastery_schedule (prev : PreviousProgress) (d now : Z)
    (t : string) :
  (0 <= prev_masteryLevel prev <= 100)%Q →
  5 ≤ d ≤ 120 →
  let p := prev_masteryLevel prev in
  let m := update_mastery prev d in
  let r := schedule_repetition t m now in
  previousLevel m = p ∧
  newLevel m
    = Qmin 100 (p + 5 + inject_Z (Z.min 10 (Qfloor (inject_Z d / 10)))) ∧
  increase m = (newLevel m - p)%Q ∧
  (0 <= increase m)%Q ∧
  ((80 <= newLevel m)%Q → intervalDays r = 7) ∧
  ((60 <= newLevel m)%Q → (newLevel m < 80)%Q → intervalDays r = 3) ∧
  ((40 <= newLevel m)%Q → (newLevel m < 60)%Q → intervalDays r = 2) ∧
  ((newLevel m < 40)%Q → intervalDays r = 1) ∧
  rs_nextReview r = now + intervalDays r * 86400000 ∧
  rs_masteryLevel r = newLevel m ∧
  rs_topic r = t.
Proof.
  intros Hp Hd p m r.
  assert (Hfloor : Qfloor (inject_Z d / 10) = d / 10).
  { symmetry. apply (Zdiv_Qdiv d 10). }
  assert (Hbonus : 0 ≤ Z.min 10 (d / 10)).
  { apply Z.min_glb; [lia|]. apply Z.div_pos; lia. }
  split; [reflexivity|]. split.
  { subst m p. cbn [update_mastery newLevel]. by rewrite Hfloor. }
  split; [reflexivity|]. split.
  { subst m p. cbn [update_mastery increase].
    assert (H0 : (0 <= inject_Z (Z.min 10 (d / 10)))%Q).
    { change 0%Q with (inject_Z 0). by rewrite <- Zle_Qle. }
    destruct (Q.min_spec 100 (prev_masteryLevel prev + inject_Z 5
                              + inject_Z (Z.min 10 (d / 10))))
      as [[_ ->]|[_ ->]].
    - lra.
    - change (inject_Z 5) with 5%Q. lra. }
  subst r. unfold schedule_repetition. cbn [intervalDays rs_nextReview
    rs_masteryLevel rs_topic].
  destruct (Qle_bool 80 (newLevel m)) eqn:E80;
    [apply Qle_bool_iff in E80 | apply not_true_iff_false in E80;
                                  rewrite Qle_bool_iff in E80];
  (destruct (Qle_bool 60 (newLevel m)) eqn:E60;
    [apply Qle_bool_iff in E60 | apply not_true_iff_false in E60;
                                  rewrite Qle_bool_iff in E60]);
  (destruct (Qle_bool 40 (newLevel m)) eqn:E40;
    [apply Qle_bool_iff in E40 | apply not_true_iff_false in E40;
                                  rewrite Qle_bool_iff in E40]);
  repeat split; try reflexivity; try lia; intros; try reflexivity; lra.
Qed.

(** The scenario of the specification: no history, 30 minutes. *)
Lemma update_mastery_schedule_witness :
  let prev := load_progress "Physics" [] in
  let m := update_mastery prev 30 in
  (newLevel m == 8)%Q ∧ (increase m == 8)%Q ∧
  intervalDays (schedule_repetition "Physics" m 1000) = 1 ∧
  rs_nextReview (schedule_repetition "Physics" m 1000) = 86401000.
Proof.
  cbv zeta.
  pose proof (update_mastery_schedule (load_progress "Physics" []) 30 1000
                "Physics") as H.
  cbv zeta in H.
  destruct H as (_ & Hn & Hi & _ & _ & _ & _ & H1 & Hr & _).
  - cbn. lra.
  - lia.
  - assert (Hlt : (newLevel (update_mastery (load_progress "Physics" []) 30)
                   < 40)%Q) by (rewrite Hn; reflexivity).
    rewrite Hr, (H1 Hlt), Hi, Hn. repeat split; reflexivity.
Defined.

End MasteryUpdate.

(** ** Validation of the generated questions *)

Section Validation.
Import QuizGenerationWorkflow Spec.

Lemma str_falsy_present x : str_falsy x = false ↔ present x.
Proof.
  unfold str_falsy, present. destruct x as [v|].
  - rewrite String.eqb_neq. split.
    + intros H. by exists v.
    + by intros (v' & [= <-] & H).
  - split; [done | by intros (v & ? & _)].
Qed.

Lemma missing_required_complete q :
  missing_required q = false ↔ complete q.
Proof.
  unfold missing_required, complete.
  rewrite !orb_false_iff, !str_falsy_present. tauto.
Qed.

(** The loop pushes the complete candidates in order, each one built at
    the position it gets in [validated]. *)
Lemma validate_loop_spec cands validated :
  validate_loop cands validated
  = validated ++ imap (λ n q, validatedQ q (length validated + n))
                      (filter complete cands).
Proof.
  revert validated.
  induction cands as [|q cands IH]; intros validated; simpl.
  - by rewrite app_nil_r.
  - rewrite filter_cons. destruct (missing_required q) eqn:E.
    + rewrite decide_False; [apply IH|].
      intros H. apply missing_required_complete in H. congruence.
    + rewrite decide_True by by apply missing_required_complete.
      rewrite IH, <- app_assoc. f_equal. cbn [imap app].
      rewrite Nat.add_0_r. f_equal.
      apply imap_ext. intros n c _. cbn.
      rewrite length_app. cbn. f_equal. lia.
Qed.

Lemma slice0_take {A} (c : Z) (l : list A) :
  0 ≤ c → slice0 c l = take (Z.to_nat c) l.
Proof.
  intros Hc. unfold slice0.
  destruct (c <? 0) eqn:E; [apply Z.ltb_lt in E; lia | done].
Qed.

Lemma str_or_None d : str_or None d = d.
Proof. done. Qed.

Lemma str_or_Some v d : v ≠ EmptyString → str_or (Some v) d = v.
Proof.
  intros H. unfold str_or. apply String.eqb_neq in H. by rewrite H.
Qed.

Lemma num_or_Some n d : n ≠ 0 → num_or (Some n) d = n.
Proof.
  intros H. unfold num_or. apply Z.eqb_neq in H. by rewrite H.
Qed.

(** C8: step [validate-questions] keeps, in order, the candidates that have
    a question text, a correct answer and an explanation, and drops the
    others; a kept candidate without an id gets the id [q{n}], [n] being
    its position, counted from 1, among the kept ones; a kept candidate
    without a type gets ["short-answer"], one without points gets 10; and
    the step returns the first [questionCount] of them, or all of them
    when there are fewer. *)
Theorem validate_questions_spec (cands : list Candidate)
    (questionCount : Z) :
  0 ≤ questionCount →
  let kept := filter complete cands in
  let out := validate_questions cands questionCount in
  out = take (Z.to_nat questionCount) (imap (λ n q, validatedQ q n) kept) ∧
  length out = (Z.to_nat questionCount `min` length kept)%nat ∧
  (Z.of_nat (length out) ≤ questionCount) ∧
  ∀ (n : nat) (v : QuizQuestion),
    out !! n = Some v →
    ∃ q, kept !! n = Some q ∧ q ∈ cands ∧ complete q ∧
      c_question q = Some (question v) ∧
      c_correctAnswer q = Some (correctAnswer v) ∧
      c_explanation q = Some (explanation v) ∧
      options v = c_options q ∧
      (c_id q = None → q_id v = "q" +:+ pretty (n + 1)%nat) ∧
      (∀ i, c_id q = Some i → i ≠ EmptyString → q_id v = i) ∧
      (c_type q = None → q_type v = "short-answer") ∧
      (∀ ty, c_type q = Some ty → ty ≠ EmptyString → q_type v = ty) ∧
      (c_points q = None → points v = 10) ∧
      (∀ p, c_points q = Some p → p ≠ 0 → points v = p).
Proof.
  intros Hc kept out.
  assert (Hout : out = take (Z.to_nat questionCount)
                         (imap (λ n q, validatedQ q n) kept)).
  { subst out kept. unfold validate_questions.
    rewrite slice0_take, validate_loop_spec by done. done. }
  assert (Hlen : length out
                 = (Z.to_nat questionCount `min` length kept)%nat).
  { by rewrite Hout, length_take, length_imap. }
  split; [exact Hout|]. split; [exact Hlen|]. split; [lia|].
  intros n v Hv. rewrite Hout in Hv.
  apply lookup_take_Some in Hv as [Hv _].
  rewrite list_lookup_imap in Hv.
  destruct (kept !! n) as [q|] eqn:Hq; [|done].
  cbn in Hv. injection Hv as <-.
  assert (Hin : q ∈ kept) by (by eapply list_elem_of_lookup_2).
  apply list_elem_of_filter in Hin as [Hcomp Hin].
  exists q. split; [done|]. split; [done|]. split; [done|].
  destruct Hcomp as ((vq & Eq & _) & (va & Ea & _) & (ve & Ee & _)).
  cbn. rewrite Eq, Ea, Ee. cbn.
  repeat split; try done.
  - by intros ->.
  - intros i -> Hi. by apply str_or_Some.
  - by intros ->.
  - intros ty -> Hty. by apply str_or_Some.
  - by intros ->.
  - intros p -> Hp. by apply num_or_Some.
Qed.

Lemma validate_questions_spec_witness :
  validate_questions
    [ {| c_id := None; c_question := Some "What?"; c_type := None;
         c_options := None; c_correctAnswer := None;
         c_explanation := Some "E"; c_points := None |};
      {| c_id := None; c_question := Some "Why?"; c_type := None;
         c_options := None; c_correctAnswer := Some "Because";
         c_explanation := Some "E"; c_points := None |};
      {| c_id := Some "last"; c_question := Some "How?";
         c_type := Some "true-false"; c_options := None;
         c_correctAnswer := Some "True"; c_explanation := Some "E";
         c_points := Some 15 |} ] 1
  = [ {| q_id := "q1"; question := "Why?"; q_type := "short-answer";
         options := None; correctAnswer := "Because"; explanation := "E";
         points := 10 |} ].
Proof.
  pose proof (validate_questions_spec
    [ {| c_id := None; c_question := Some "What?"; c_type := None;
         c_options := None; c_correctAnswer := None;
         c_explanation := Some "E"; c_points := None |};
      {| c_id := None; c_question := Some "Why?"; c_type := None;
         c_options := None; c_correctAnswer := Some "Because";
         c_explanation := Some "E"; c_points := None |};
      {| c_id := Some "last"; c_question := Some "How?";
         c_type := Some "true-false"; c_options := None;
         c_correctAnswer := Some "True"; c_explanation := Some "E";
         c_points := Some 15 |} ] 1) as H.
  cbv zeta in H. destruct H as (H & _); [lia|].
  rewrite H. reflexivity.
Defined.

End Validation.

(** ** The fallback questions *)

Section Fallback.
Import QuizGenerationWorkflow Spec.

Lemma app_nonempty_r (a b : string) : b ≠ EmptyString → a +:+ b ≠ EmptyString.
Proof. intros Hb. destruct a; [done | discriminate]. Qed.

(** The key concepts step [identify-concepts] hands over are never empty
    texts. *)
Lemma identify_concepts_nonempty t pieces :
  Forall (λ c, c ≠ EmptyString) (identify_concepts t pieces).
Proof.
  destruct pieces as [cs|]; cbn [identify_concepts].
  - apply Forall_forall. intros c Hc.
    apply list_elem_of_filter in Hc as [Hc _]. intros ->. cbn in Hc. lia.
  - repeat constructor.
    + discriminate.
    + by apply app_nonempty_r.
    + by apply app_nonempty_r.
Qed.

Lemma push_loop_map {A B} (f : A → B) (l : list A) (acc : list B) :
  fold_left (λ out i, out ++ [f i]) l acc = acc ++ (f <$> l).
Proof.
  revert acc. induction l as [|x l IH]; intros acc; simpl.
  - by rewrite app_nil_r.
  - by rewrite IH, <- app_assoc.
Qed.

Lemma getFallbackQuestions_map t count concepts :
  getFallbackQuestions t count concepts
  = fallback_question t concepts <$> seq 0 (Z.to_nat (Z.min count 5)).
Proof. unfold getFallbackQuestions. by rewrite push_loop_map. Qed.

Lemma getFallbackQuestions_lookup t count concepts (i : nat) :
  Z.of_nat i < Z.min count 5 →
  getFallbackQuestions t count concepts !! i
  = Some (fallback_question t concepts i).
Proof.
  intros Hi. rewrite getFallbackQuestions_map, list_lookup_fmap.
  rewrite lookup_seq_lt by lia. done.
Qed.

Lemma concept_at_spec t concepts i :
  Forall (λ c, c ≠ EmptyString) concepts →
  (concepts = [] → concept_at t concepts i = t) ∧
  (concepts ≠ [] →
   concepts !! (i mod length concepts)%nat = Some (concept_at t concepts i)).
Proof.
  intros Hne. split; [by intros ->|]. intros Hcs.
  unfold concept_at. destruct concepts as [|c cs]; [done|].
  set (l := c :: cs) in *.
  assert (Hlt : (i mod length l < length l)%nat).
  { apply Nat.mod_upper_bound. subst l. cbn. lia. }
  destruct (lookup_lt_is_Some_2 l _ Hlt) as [x Hx].
  rewrite Hx. f_equal. symmetry. apply str_or_Some.
  rewrite Forall_forall in Hne. apply Hne.
  by eapply list_elem_of_lookup_2.
Qed.

Lemma fallback_question_complete t concepts i :
  missing_required (as_candidate (fallback_question t concepts i)) = false.
Proof. reflexivity. Qed.

Lemma validatedQ_fallback t concepts i n :
  validatedQ (as_candidate (fallback_question t concepts i)) n
  = fallback_question t concepts i.
Proof. reflexivity. Qed.

(** Step [validate-questions] returns the fallback questions as they
    are. *)
Lemma validate_loop_fallback t concepts (l : list nat)
    (validated : list QuizQuestion) :
  validate_loop (as_candidate ∘ fallback_question t concepts <$> l) validated
  = validated ++ (fallback_question t concepts <$> l).
Proof.
  revert validated. induction l as [|i l IH]; intros validated.
  - cbn. by rewrite app_nil_r.
  - cbn [fmap list_fmap validate_loop].
    change (list_fmap ?f ?l) with (f <$> l).
    change ((as_candidate ∘ fallback_question t concepts) i)
      with (as_candidate (fallback_question t concepts i)).
    rewrite fallback_question_complete, validatedQ_fallback, IH.
    by rewrite <- app_assoc.
Qed.

(** C9: when the answer of the model cannot be decoded into a question
    list (or the call to the model fails), step [generate-questions]
    returns the fallback: [min(c, 5)] questions, the [i]-th (from 0) being
    the short-answer question worth 10 points whose text is
    ["Explain your understanding of "], the concept, and a full stop,
    the concept being element [i mod length] of the key concepts, or the
    topic when there is no key concept.  (The key concepts the workflow
    passes are never empty texts.)  Step [validate-questions] returns
    these questions unchanged. *)
Theorem generate_questions_fallback (JSON_parse : string → Parsed)
    (t : string) (c : Z) (concepts : list string) (ai : AiOutcome) :
  1 ≤ c ≤ 20 →
  Forall (λ x, x ≠ EmptyString) concepts →
  (ai = AiThrows ∨
   ∃ response, ai = AiResponse response ∧
               decoding_fails JSON_parse response) →
  let fallback := getFallbackQuestions t c concepts in
  generate_questions JSON_parse t c concepts ai
    = (as_candidate <$> fallback, false) ∧
  Z.of_nat (length fallback) = Z.min c 5 ∧
  (∀ i : nat, Z.of_nat i < Z.min c 5 →
     ∃ q concept,
       fallback !! i = Some q ∧
       question q = "Explain your understanding of " +:+ concept +:+ "." ∧
       q_type q = "short-answer" ∧
       points q = 10 ∧
       q_id q = "q" +:+ pretty (i + 1)%nat ∧
       (concepts = [] → concept = t) ∧
       (concepts ≠ [] →
        concepts !! (i mod length concepts)%nat = Some concept)) ∧
  validate_questions (as_candidate <$> fallback) c = fallback.
Proof.
  intros Hc Hne Hfail fallback. split; [|split; [|split]].
  - destruct Hfail as [->|(response & -> & Hfail)]; [done|].
    unfold generate_questions, decoding_fails in *.
    destruct (match_braces _) as [m|]; [|done].
    by destruct Hfail as [-> | ->].
  - subst fallback. rewrite getFallbackQuestions_map, length_fmap, length_seq.
    lia.
  - intros i Hi. exists (fallback_question t concepts i),
      (concept_at t concepts i).
    split; [by apply getFallbackQuestions_lookup|].
    repeat split; try apply (concept_at_spec t concepts i Hne).
  - subst fallback. unfold validate_questions.
    rewrite slice0_take by lia.
    rewrite getFallbackQuestions_map, <- list_fmap_compose.
    rewrite validate_loop_fallback. cbn [app].
    apply take_ge. rewrite length_fmap, length_seq. lia.
Qed.

Lemma generate_questions_fallback_witness :
  question <$> getFallbackQuestions "Calculus" 7 ["limits"; "derivatives"]
  = [ "Explain your understanding of limits.";
      "Explain your understanding of derivatives.";
      "Explain your understanding of limits.";
      "Explain your understanding of derivatives.";
      "Explain your understanding of limits." ] ∧
  validate_questions
    (generate_questions (λ _, SyntaxError) "Calculus" 7
       ["limits"; "derivatives"] (AiResponse (Some "no braces here"))).1 7
  = getFallbackQuestions "Calculus" 7 ["limits"; "derivatives"].
Proof.
  pose proof (generate_questions_fallback (λ _, SyntaxError) "Calculus" 7
                ["limits"; "derivatives"]
                (AiResponse (Some "no braces here"))) as H.
  cbv zeta in H. destruct H as (Hg & _ & _ & Hv).
  - lia.
  - repeat constructor; discriminate.
  - right. exists (Some "no braces here"). split; [reflexivity|].
    exact I.
  - split; [reflexivity|]. rewrite Hg. exact Hv.
Defined.

End Fallback.

(** ** Entries of [topicsStudied] *)

Section Topics.
Import StudyState Spec.

Lemma find_topic_cons t tp ts :
  find_entry t (tp :: ts)
  = if decide (topic tp = t) then Some (0%nat, tp)
    else prod_map S id <$> find_entry t ts.
Proof. reflexivity. Qed.

Lemma find_topic_Some_topic t ts i tp :
  find_entry t ts = Some (i, tp) → topic tp = t ∧ ts !! i = Some tp.
Proof.
  unfold find_entry. intros H. apply list_find_Some in H. tauto.
Qed.

(** Writing to the entry found for [t] changes what is found for [t] and
    nothing else, as long as the write keeps the topic of the entry. *)
Lemma find_topic_alter (f : TopicProgress → TopicProgress) t t' ts i tp :
  (∀ x, topic (f x) = topic x) →
  find_entry t ts = Some (i, tp) →
  snd <$> find_entry t' (alter f i ts)
  = if decide (t' = t) then Some (f tp) else snd <$> find_entry t' ts.
Proof.
  intros Hf. revert i.
  induction ts as [|x ts IH]; intros i; [done|].
  rewrite find_topic_cons. destruct (decide (topic x = t)) as [Hx|Hx].
  - intros [= <- <-]. cbn [alter list_alter].
    rewrite !find_topic_cons, Hf.
    destruct (decide (t' = t)) as [->|Hne].
    + by rewrite decide_True.
    + rewrite !decide_False by congruence. done.
  - destruct (find_entry t ts) as [[j y]|] eqn:E; [|done].
    intros [= <- <-]. cbn [alter list_alter].
    rewrite !find_topic_cons.
    destruct (decide (topic x = t')) as [Hx'|Hx'].
    + rewrite decide_False by congruence. done.
    + specialize (IH j eq_refl).
      destruct (find_entry t' (alter f j ts)) as [[? ?]|],
               (find_entry t' ts) as [[? ?]|];
        destruct (decide (t' = t)); cbn in *; congruence.
Qed.

Lemma find_topic_push t t' ts x :
  find_entry t ts = None →
  topic x = t →
  snd <$> find_entry t' (ts ++ [x])
  = if decide (t' = t) then Some x else snd <$> find_entry t' ts.
Proof.
  intros Hnone Hx. induction ts as [|y ts IH].
  - cbn [app]. rewrite find_topic_cons, Hx.
    destruct (decide (t = t')) as [->|Hne].
    + by rewrite decide_True.
    + by rewrite decide_False by congruence.
  - rewrite find_topic_cons in Hnone.
    destruct (decide (topic y = t)) as [|Hy]; [done|].
    destruct (find_entry t ts) as [[? ?]|] eqn:E; [done|].
    specialize (IH eq_refl).
    rewrite <- app_comm_cons, !find_topic_cons.
    destruct (decide (topic y = t')) as [Hy'|Hy'].
    + rewrite decide_False by congruence. done.
    + destruct (find_entry t' (ts ++ [x])) as [[? ?]|],
               (find_entry t' ts) as [[? ?]|];
        destruct (decide (t' = t)); cbn in *; congruence.
Qed.

(** The entry [updateTopicProgress] leaves for each topic. *)
Lemma updateTopicProgress_find t t' d now ts :
  snd <$> find_entry t' (updateTopicProgress t d now ts)
  = if decide (t' = t)
    then Some (record_session d now
                 (default (new_topic t now) (snd <$> find_entry t ts)))
    else snd <$> find_entry t' ts.
Proof.
  unfold updateTopicProgress.
  destruct (find_entry t ts) as [[i tp]|] eqn:E.
  - by apply find_topic_alter.
  - by apply find_topic_push.
Qed.

(** The entries [submitQuiz] leaves: those it found, one of them possibly
    rewritten by [updateTopicQuizAverage]. *)
Lemma updateTopicQuizAverage_topics t s :
  topicsStudied (progress (updateTopicQuizAverage t s))
  = topicsStudied (progress s) ∨
  ∃ i tp avg,
    find_topic t (topicsStudied (progress s)) = Some (i, tp) ∧
    topicsStudied (progress (updateTopicQuizAverage t s))
    = alter (record_average avg) i (topicsStudied (progress s)).
Proof.
  unfold updateTopicQuizAverage.
  destruct (find_topic t (topicsStudied (progress s))) as [[i tp]|] eqn:E.
  - right. by exists i, tp, (jmean (percentage <$> results_of_topic t s)).
  - by left.
Qed.

Lemma submitQuiz_topics `{L : Lowercase} s id answers now :
  topicsStudied (progress (submitQuiz id answers now s).2)
  = topicsStudied (progress s) ∨
  ∃ t i tp avg,
    find_topic t (topicsStudied (progress s)) = Some (i, tp) ∧
    topicsStudied (progress (submitQuiz id answers now s).2)
    = alter (record_average avg) i (topicsStudied (progress s)).
Proof.
  unfold submitQuiz. destruct (js_get (quizzes s) id) as [quiz| |];
    [|by left..].
  destruct (compute_score answers (questions quiz)) as [sc|]; [|by left].
  unfold record_result. cbv zeta. cbn [snd].
  match goal with
  | |- context [updateTopicQuizAverage ?t ?s1] =>
      destruct (updateTopicQuizAverage_topics t s1) as [H|(i & tp & avg & H)]
  end.
  - left. by rewrite H.
  - right. exists (quiz_topic quiz), i, tp, avg. exact H.
Qed.

End Topics.

(** ** Completed sessions *)

Section Completions.
Import StudyState Spec Store Examples.

Lemma sessionsCount_of_find t s :
  sessionsCount_of t s
  = default 0 (sessionsCount <$>
                 (snd <$> find_entry (Some t) (topicsStudied (progress s)))).
Proof.
  unfold sessionsCount_of, find_topic. by destruct (find_entry _ _) as [[? ?]|].
Qed.

(** One call on a stored session. *)
Lemma completeSession_known s sessionId session now :
  sessions s !! sessionId = Some session →
  let s' := (completeSession sessionId now s).2 in
  totalStudyTime (progress s')
    = jadd (totalStudyTime (progress s))
           (Fin (inject_Z (now - startTime session) / 1000 / 60)) ∧
  (∀ t, sessionsCount_of t s'
        = sessionsCount_of t s
          + (if decide (session_topic session = t) then 1 else 0)) ∧
  session_table s' = session_table s.
Proof.
  intros Hs. unfold completeSession. rewrite (js_get_Own _ _ _ Hs). cbn.
  split; [reflexivity|]. split.
  - intros t. rewrite !sessionsCount_of_find. cbn [progress topicsStudied].
    unfold add_duration. cbn [topicsStudied].
    rewrite updateTopicProgress_find.
    destruct (decide (Some t = Some (session_topic session))) as [[= ->]|Hne].
    + rewrite decide_True by done. cbn.
      by destruct (find_entry _ _) as [[? ?]|].
    + rewrite decide_False by congruence. lia.
  - unfold session_table. cbn [sessions]. rewrite fmap_insert. cbn.
    apply insert_id. by rewrite lookup_fmap, Hs.
Qed.

(** [submitQuiz] rewrites the average and the level of an entry, not its
    count of sessions. *)
Lemma submitQuiz_sessionsCount `{L : Lowercase} s id answers now t :
  sessionsCount_of t (submitQuiz id answers now s).2 = sessionsCount_of t s.
Proof.
  rewrite !sessionsCount_of_find.
  destruct (submitQuiz_topics s id answers now)
    as [->|(t' & i & tp & avg & Hf & ->)]; [done|].
  unfold find_topic in Hf.
  rewrite (find_topic_alter (record_average avg) _ (Some t) _ _ _
             (λ _, eq_refl) Hf).
  destruct (decide (Some t = Some t')) as [E|_]; [|done].
  rewrite E, Hf. done.
Qed.

Lemma submitQuiz_sessions `{L : Lowercase} s id answers now :
  sessions (submitQuiz id answers now s).2 = sessions s ∧
  totalStudyTime (progress (submitQuiz id answers now s).2)
  = totalStudyTime (progress s).
Proof.
  destruct (submitQuiz_cases s id answers now)
    as [[_ ->]|(quiz & sc & Hq & Hsc)]; [done|].
  destruct (submitQuiz_found s id quiz answers now sc Hq Hsc)
    as (r & s' & E & _ & _ & _ & _ & _ & Hs & _ & _ & Ht & _).
  by rewrite E.
Qed.

(** What any sequence of calls adds to the totals of any state. *)
Lemma run_adds `{L : Lowercase} ops s :
  Forall plain_completion ops →
  totalStudyTime (progress (run ops s))
  = fold_left jadd (Fin <$> (completions (session_table s) ops).*2)
              (totalStudyTime (progress s)) ∧
  ∀ t, sessionsCount_of t (run ops s)
       = sessionsCount_of t s
         + completed_on t (completions (session_table s) ops).
Proof.
  intros Hops. revert s.
  induction Hops as [|o ops Ho _ IH]; intros s.
  - cbn. split; [done|]. intros t. unfold completed_on. cbn. lia.
  - cbn [run fold_left].
    change (fold_left _ ops ?x) with (run ops x).
    destruct (IH (step o s)) as [IHt IHc]. clear IH.
    destruct o as [x|sessionId now|quiz|id answers now|sid u a now];
      cbn [completions step] in *.
    + assert (Ht : session_table (createSession x s)
                   = <[session_id x := (session_topic x, startTime x)]>
                       (session_table s)).
      { unfold session_table. cbn. by rewrite fmap_insert. }
      rewrite Ht in IHt, IHc. split; [exact IHt|]. intros t. by rewrite IHc.
    + cbn in Ho.
      destruct (sessions s !! sessionId) as [session|] eqn:Hs.
      * destruct (completeSession_known s sessionId session now Hs)
          as (Ht & Hc & Htbl).
        cbn [step] in IHt, IHc. rewrite Htbl in IHt, IHc.
        assert (El : session_table s !! sessionId
                     = Some (session_topic session, startTime session)).
        { unfold session_table. by rewrite lookup_fmap, Hs. }
        rewrite El. cbn [fmap list_fmap snd fold_left]. split.
        -- by rewrite IHt, Ht.
        -- intros t. rewrite IHc, Hc. unfold completed_on.
           rewrite filter_cons. cbn [fst].
           destruct (decide (session_topic session = t)); cbn [length]; lia.
      * assert (El : session_table s !! sessionId = None).
        { unfold session_table. by rewrite lookup_fmap, Hs. }
        rewrite El.
        rewrite (completeSession_unknown s sessionId now Hs Ho) in *.
        split; [exact IHt|]. exact IHc.
    + split; [exact IHt|]. exact IHc.
    + cbn [step] in IHt, IHc.
      destruct (submitQuiz_sessions s id answers now) as [Hs Ht].
      unfold session_table in IHt, IHc. rewrite Hs, Ht in IHt.
      rewrite Hs in IHc. split; [exact IHt|].
      intros t. rewrite IHc. by rewrite submitQuiz_sessionsCount.
    + cbn [step] in IHt, IHc.
      assert (E : sessions (saveChatMessage sid u a now s).2 = sessions s
                  ∧ progress (saveChatMessage sid u a now s).2 = progress s).
      { unfold saveChatMessage.
        by destruct (js_get (chatHistories s) sid). }
      destruct E as [Es Ep]. unfold session_table, sessionsCount_of in *.
      rewrite Es, Ep in IHt. rewrite Es in IHc.
      split; [exact IHt|]. intros t. rewrite IHc. by rewrite Ep.
Qed.

(** C5: take any state and any sequence of calls in which no
    [completeSession] names a property that objects inherit.  Every call
    [completeSession] on a session stored by then is one completion, of
    [(now - startTime) / 1000 / 60] minutes; a call on an unknown session
    is none.  After the sequence, the total study time is what it was plus
    the minutes of the completions, added in the order of the calls, and
    the [sessionsCount] of every topic is what it was plus the number of
    completions on that topic. *)
Theorem complete_all_totals `{L : Lowercase} (ops : list Op)
    (s : UserState) (T : Q) :
  Forall plain_completion ops →
  totalStudyTime (progress s) = Fin T →
  let cs := completions (session_table s) ops in
  totalStudyTime (progress (run ops s)) = Fin (Qsum_from T cs.*2) ∧
  ∀ t, sessionsCount_of t (run ops s)
       = sessionsCount_of t s + completed_on t cs.
Proof.
  intros Hops HT cs.
  destruct (run_adds ops s Hops) as (Ht & Hc). split.
  - rewrite Ht, HT. apply jsum_Fin_acc.
  - exact Hc.
Qed.

(** Three sessions created, then completed after 30, 10 and 25 minutes,
    the first of them a second time after 40 minutes; one call names a
    session that does not exist. *)
Lemma complete_all_totals_witness :
  let s' := run (three_sessions ++ three_completions) createDefaultState in
  jeq (totalStudyTime (progress s')) (Fin 105) ∧
  sessionsCount_of "Physics" s' = 3 ∧
  sessionsCount_of "Algebra" s' = 1 ∧
  sessionsCount_of "Chemistry" s' = 0.
Proof.
  cbv zeta.
  destruct (complete_all_totals (three_sessions ++ three_completions)
              createDefaultState 0)
    as (Ht & Hc).
  - apply (bool_decide_unpack _). by vm_compute.
  - reflexivity.
  - rewrite Ht, !Hc. by vm_compute.
Defined.

(** C5, where it fails: a session on Physics completed twice, 30 and then
    40 minutes after it started.  One session on Physics is completed,
    and it lasted 40 minutes; the [sessionsCount] of Physics is 2 and the
    total study time is 70 minutes.  And in the default state, where
    there is no session to complete, a call that names [constructor]
    leaves a total study time that is not a number. *)
Lemma complete_twice_counts_twice :
  let s := run [ CreateSession (physics_session 0);
                 CompleteSession "session_0" 1800000;
                 CompleteSession "session_0" 2400000 ] createDefaultState in
  completed_sessions_on "Physics" s = 1 ∧
  (endTime <$> sessions s !! "session_0") = Some (Some 2400000) ∧
  sessionsCount_of "Physics" s = 2 ∧
  jeq (totalStudyTime (progress s)) (Fin 70) ∧
  totalStudyTime
    (progress (run [CompleteSession "constructor" 60000] createDefaultState))
  = NaN.
Proof. by vm_compute. Qed.

End Completions.

(** ** Identifiers the state does not hold *)

Section UnknownIds.
Import StudyState Spec.



End UnknownIds.

(** ** The quiz average of a topic *)

Section TopicAverage.
Import StudyState Spec Examples.

Lemma find_topic_alter_same (f : TopicProgress → TopicProgress) t ts i tp :
  (∀ x, topic (f x) = topic x) →
  find_entry t ts = Some (i, tp) →
  find_entry t (alter f i ts) = Some (i, f tp).
Proof.
  intros Hf. revert i.
  induction ts as [|x ts IH]; intros i; [done|].
  rewrite find_topic_cons. destruct (decide (topic x = t)) as [Hx|Hx].
  - intros [= <- <-]. cbn [alter list_alter].
    by rewrite find_topic_cons, Hf, decide_True.
  - destruct (find_entry t ts) as [[j y]|] eqn:E; [|done].
    intros [= <- <-]. cbn [alter list_alter].
    rewrite find_topic_cons, decide_False by done.
    by rewrite (IH j eq_refl).
Qed.

Lemma results_of_topic_belongs s t r :
  quiz_topic <$> (quizzes s !! quizId r) = Some t ↔ belongs_to s t r.
Proof.
  unfold belongs_to. split.
  - intros H. destruct (quizzes s !! quizId r) as [q|]; [|done].
    exists q. split; [done|]. by injection H.
  - intros (q & Hq & Ht). by rewrite Hq, <- Ht.
Qed.

Lemma results_of_topic_filter s t :
  results_of_topic t s = filter (belongs_to s t) (quizResults s).
Proof.
  unfold results_of_topic. apply list_filter_iff.
  intros r. apply results_of_topic_belongs.
Qed.

(** The state [updateTopicQuizAverage] leaves: the entry found for the
    topic, if any, is rewritten; nothing else changes. *)
Lemma updateTopicQuizAverage_found t s i tp :
  find_topic t (topicsStudied (progress s)) = Some (i, tp) →
  let s' := updateTopicQuizAverage t s in
  quizzes s' = quizzes s ∧ quizResults s' = quizResults s ∧
  topicsStudied (progress s')
    = alter (record_average (jmean (percentage <$> results_of_topic t s)))
            i (topicsStudied (progress s)).
Proof.
  intros H. unfold updateTopicQuizAverage. rewrite H. done.
Qed.

Lemma updateTopicQuizAverage_absent t s :
  find_topic t (topicsStudied (progress s)) = None →
  updateTopicQuizAverage t s = s.
Proof. intros H. unfold updateTopicQuizAverage. by rewrite H. Qed.

Lemma mastery_formula n a :
  ∃ m, mastery n (Fin a) = Fin m ∧
       (m == Qmin 100 (inject_Z n * 10 + a * (1 # 2)))%Q.
Proof.
  unfold mastery, jsZ. cbn [jmul jadd jmin].
  assert (E : (inject_Z (n * 10) == inject_Z n * 10)%Q)
    by by rewrite inject_Z_mult.
  destruct (Qle_bool (inject_Z 100) _) eqn:H100.
  - eexists. split; [reflexivity|]. apply Qle_bool_iff in H100.
    rewrite Q.min_l; [reflexivity|]. by rewrite <- E.
  - eexists. split; [reflexivity|].
    apply not_true_iff_false in H100. rewrite Qle_bool_iff in H100.
    rewrite Q.min_r; [by rewrite E|].
    rewrite <- E. apply Qlt_le_weak. by apply Qnot_le_lt.
Qed.

(** C4, as the code has it: a successful [submitQuiz] on a quiz of topic
    [T] stores a result that belongs to [T] and rewrites the entry of [T]
    in [topicsStudied] when there is one.  The entry keeps its place and
    its count of sessions.  When the percentages of the stored results
    that belong to quizzes of [T] are all finite, its quiz average becomes
    their sum, added from the left, divided by their number, and its
    mastery level becomes [min(100, sessionsCount * 10 + quizAverage *
    0.5)]; when one of them is [NaN], both become [NaN].  When [T] has no
    entry, none is created and [topicsStudied] stays as it was. *)
Theorem submitQuiz_topic_average `{L : Lowercase} (s : UserState)
    (id : string) (quiz : Quiz) (answers : gmap string string) (now : Z)
    (r : QuizResult) (s' : UserState) :
  quizzes s !! id = Some quiz →
  submitQuiz id answers now s = (Ok r, s') →
  let T := quiz_topic quiz in
  r ∈ quizResults s' ∧ belongs_to s' T r ∧
  (∀ i tp,
     find_topic T (topicsStudied (progress s)) = Some (i, tp) →
     ∃ tp',
       find_topic T (topicsStudied (progress s')) = Some (i, tp') ∧
       sessionsCount tp' = sessionsCount tp ∧
       (∀ ps, percentages_of T s' = Fin <$> ps →
          ∃ a m,
            quizAverage tp' = Fin a ∧
            (a == Qsum_from 0 ps / inject_Z (Z.of_nat (length ps)))%Q ∧
            masteryLevel tp' = Fin m ∧
            (m == Qmin 100 (inject_Z (sessionsCount tp') * 10
                            + a * (1 # 2)))%Q) ∧
       (NaN ∈ percentages_of T s' →
        quizAverage tp' = NaN ∧ masteryLevel tp' = NaN)) ∧
  (find_topic T (topicsStudied (progress s)) = None →
   topicsStudied (progress s') = topicsStudied (progress s)).
Proof.
  intros Hq E T. subst T. unfold submitQuiz in E. rewrite (js_get_Own _ _ _ Hq) in E.
  destruct (compute_score answers (questions quiz)) as [sc|]; [|done].
  unfold record_result in E. cbv zeta in E.
  set (r0 := {| quizId := id |}) in E.
  set (s1 := {| quizResults := quizResults s ++ [r0] |}) in E.
  injection E as <- <-.
  assert (Hsame : ∀ s2, quizzes s2 = quizzes s →
                        quizResults s2 = quizResults s ++ [r0] →
                        r0 ∈ quizResults s2 ∧ belongs_to s2 (quiz_topic quiz) r0).
  { intros s2 H1 H2. split.
    - rewrite H2. apply elem_of_app. right. apply list_elem_of_here.
    - exists quiz. by rewrite H1. }
  destruct (find_topic (quiz_topic quiz) (topicsStudied (progress s1))) as [[i tp]|] eqn:Ef.
  - destruct (updateTopicQuizAverage_found (quiz_topic quiz) s1 i tp Ef) as (H1 & H2 & H3).
    destruct (Hsame (updateTopicQuizAverage (quiz_topic quiz) s1)) as [Hin Hb];
      [by rewrite H1 | by rewrite H2 |].
    split; [exact Hin|]. split; [exact Hb|].
    change (find_topic (quiz_topic quiz) (topicsStudied (progress s))
            = Some (i, tp)) in Ef.
    split; [|intros Hn; congruence].
    intros i' tp0 Ef0. rewrite Ef in Ef0. injection Ef0 as <- <-.
    assert (Hps : percentages_of (quiz_topic quiz) (updateTopicQuizAverage (quiz_topic quiz) s1)
                  = percentage <$> results_of_topic (quiz_topic quiz) s1).
    { unfold percentages_of. rewrite results_of_topic_filter.
      rewrite H2. f_equal. apply list_filter_iff.
      intros x. unfold belongs_to. by rewrite H1. }
    eexists. split.
    { rewrite H3. unfold find_topic in *.
      by apply find_topic_alter_same. }
    cbn [quizAverage masteryLevel sessionsCount record_average].
    split; [reflexivity|]. rewrite Hps. split.
    + intros ps Hps0. rewrite Hps0.
      assert (Hne : ps ≠ []).
      { intros ->.
        assert (Hr0 : r0 ∈ results_of_topic (quiz_topic quiz) s1).
        { rewrite results_of_topic_filter. apply list_elem_of_filter.
          split; [by exists quiz|].
          cbn. apply elem_of_app. right. apply list_elem_of_here. }
        apply (list_elem_of_fmap_2 percentage) in Hr0.
        rewrite Hps0 in Hr0. by apply not_elem_of_nil in Hr0. }
      destruct (jmean_Fin ps Hne) as (a & -> & Ha).
      destruct (mastery_formula (sessionsCount tp) a) as (m & -> & Hm).
      exists a, m. split; [reflexivity|]. split; [exact Ha|].
      split; [reflexivity | exact Hm].
    + intros HNaN. rewrite (jmean_NaN_in _ HNaN). done.
  - rewrite (updateTopicQuizAverage_absent (quiz_topic quiz) s1 Ef).
    destruct (Hsame s1) as [Hin Hb]; [done..|].
    change (find_topic (quiz_topic quiz) (topicsStudied (progress s))
            = None) in Ef.
    split; [exact Hin|]. split; [exact Hb|].
    split; [intros ? ? ?; congruence | done].
Qed.

(** One completed session on Physics; the quiz answered right and then
    wrong: the average is (100 + 0) / 2 = 50 and the level
    min(100, 1 * 10 + 50 * 0.5) = 35. *)
Lemma submitQuiz_topic_average_witness :
  ∃ r s' tp',
    submitQuiz "quiz_2" {[ "q1" := "b" ]} 1800002
      (Store.run session_then_quiz createDefaultState) = (Ok r, s') ∧
    find_topic "Physics" (topicsStudied (progress s')) = Some (0%nat, tp') ∧
    sessionsCount tp' = 1 ∧
    jeq (quizAverage tp') (Fin 50) ∧ jeq (masteryLevel tp') (Fin 35).
Proof.
  destruct (submitQuiz "quiz_2" {[ "q1" := "b" ]} 1800002
              (Store.run session_then_quiz createDefaultState))
    as [[r| |] s'] eqn:E; [|by vm_compute in E..].
  assert (Hq : quizzes (Store.run session_then_quiz createDefaultState)
               !! "quiz_2" = Some one_question) by by vm_compute.
  destruct (submitQuiz_topic_average _ _ _ _ _ r s' Hq E)
    as (_ & _ & Hrec & _).
  edestruct (Hrec 0%nat) as (tp' & Hf & Hc & Hfin & _);
    [by vm_compute|].
  exists r, s', tp'. split; [reflexivity|]. split; [exact Hf|].
  split; [by rewrite Hc|].
  destruct (Hfin [ (inject_Z 10 / inject_Z 10 * 100)%Q;
                   (inject_Z 0 / inject_Z 10 * 100)%Q ])
    as (a & m & -> & Ha & -> & Hm).
  { vm_compute in E. injection E as <- <-. by vm_compute. }
  cbn [jeq]. rewrite Hm, Hc, Ha. split; by vm_compute.
Defined.

(** C4 does not hold when the topic has no entry yet: a quiz on Physics is
    answered right before any session on Physics was completed; the
    submission succeeds with 100 percent, and afterwards there is still no
    entry of Physics to hold that average. *)
Lemma submitQuiz_topic_average_absent :
  let s := saveQuiz one_question createDefaultState in
  ∃ r s',
    submitQuiz "quiz_2" {[ "q1" := "a" ]} 5 s = (Ok r, s') ∧
    jeq (percentage r) (Fin 100) ∧
    topicsStudied (progress s') = [] ∧
    find_topic "Physics" (topicsStudied (progress s')) = None.
Proof.
  cbv zeta. eexists _, _. split; [reflexivity|].
  split; [by vm_compute|]. split; reflexivity.
Qed.

End TopicAverage.

(** ** Range and growth of the mastery level *)

Section Mastery.
Import StudyState Spec Store Examples.

Lemma mastery_Fin n q :
  mastery n (Fin q)
  = if Qle_bool 100 (inject_Z (n * 10) + q * (1 # 2))
    then Fin 100 else Fin (inject_Z (n * 10) + q * (1 # 2)).
Proof. reflexivity. Qed.

Lemma inject_Z_times_10 n : (inject_Z (n * 10) == inject_Z n * 10)%Q.
Proof. by rewrite inject_Z_mult. Qed.

Lemma mastery_range n a :
  0 ≤ n → in_0_100 a → in_0_100 (mastery n a).
Proof.
  intros Hn (q & -> & Hq). rewrite mastery_Fin.
  assert (H0 : (0 <= inject_Z n)%Q).
  { change 0%Q with (inject_Z 0). by rewrite <- Zle_Qle. }
  pose proof (inject_Z_times_10 n) as E.
  destruct (Qle_bool 100 _) eqn:H100.
  - exists 100%Q. split; [done|]. lra.
  - apply not_true_iff_false in H100. rewrite Qle_bool_iff in H100.
    exists (inject_Z (n * 10) + q * (1 # 2))%Q. split; [done|]. lra.
Qed.

Lemma mastery_mono n a :
  in_0_100 a → jle (mastery n a) (mastery (n + 1) a).
Proof.
  intros (q & -> & Hq). rewrite !mastery_Fin.
  pose proof (inject_Z_times_10 n) as E.
  pose proof (inject_Z_times_10 (n + 1)) as E1.
  rewrite inject_Z_plus in E1. change (inject_Z 1) with 1%Q in E1.
  destruct (Qle_bool 100 (inject_Z (n * 10) + _)) eqn:H1;
    destruct (Qle_bool 100 (inject_Z ((n + 1) * 10) + _)) eqn:H2;
    try apply Qle_bool_iff in H1; try apply Qle_bool_iff in H2;
    try (apply not_true_iff_false in H1; rewrite Qle_bool_iff in H1);
    try (apply not_true_iff_false in H2; rewrite Qle_bool_iff in H2);
    cbn; lra.
Qed.

Lemma jle_refl_in_0_100 a : in_0_100 a → jle a a.
Proof. intros (q & -> & _). cbn. lra. Qed.

Lemma sum_points_pos qs :
  qs ≠ [] → Forall (λ x, 0 < points x) qs → 0 < sum_points qs.
Proof.
  intros Hne Hall. destruct Hall as [|q qs Hq Hall]; [done|].
  cbn. clear Hne.
  assert (0 ≤ sum_points qs); [|lia].
  induction Hall; cbn; lia.
Qed.

Lemma sum_points_filter (P : QuizQuestion → Prop)
    `{∀ x, Decision (P x)} qs :
  Forall (λ x, 0 < points x) qs →
  0 ≤ sum_points (filter P qs) ≤ sum_points qs.
Proof.
  induction 1 as [|q qs Hq _ IH]; [done|].
  rewrite filter_cons. destruct (decide (P q)); cbn; lia.
Qed.

Lemma compute_percentage_range sc m :
  0 ≤ sc ≤ m → 0 < m → in_0_100 (compute_percentage sc m).
Proof.
  intros Hsc Hm.
  destruct (compute_percentage_Fin sc m) as (p & -> & Hp); [lia|].
  exists p. split; [done|].
  assert (Hm' : (0 < inject_Z m)%Q).
  { change 0%Q with (inject_Z 0). by rewrite <- Zlt_Qlt. }
  assert (Hsc0 : (0 <= inject_Z sc)%Q).
  { change 0%Q with (inject_Z 0). rewrite <- Zle_Qle. lia. }
  assert (Hscm : (inject_Z sc <= inject_Z m)%Q).
  { rewrite <- Zle_Qle. lia. }
  assert (H0 : (0 <= inject_Z sc / inject_Z m)%Q)
    by (apply Qle_shift_div_l; [done | lra]).
  assert (H1 : (inject_Z sc / inject_Z m <= 1)%Q)
    by (apply Qle_shift_div_r; [done | lra]).
  rewrite Hp. set (x := (inject_Z sc / inject_Z m)%Q) in *. lra.
Qed.

Lemma quiz_percentage_range `{L : Lowercase} quiz answers sc :
  quiz_ok quiz →
  compute_score answers (questions quiz) = Some sc →
  in_0_100 (compute_percentage sc (compute_maxScore (questions quiz))).
Proof.
  intros [Hne Hall] Hsc. apply compute_score_Some in Hsc as [_ ->].
  rewrite compute_maxScore_sum.
  apply compute_percentage_range.
  - by apply sum_points_filter.
  - by apply sum_points_pos.
Qed.

Lemma jsum_range_acc l a :
  Forall in_0_100 l →
  ∃ σ, fold_left jadd l (Fin a) = Fin σ ∧
       (a <= σ <= a + 100 * inject_Z (Z.of_nat (length l)))%Q.
Proof.
  intros Hall. revert a.
  induction Hall as [|x l (q & -> & Hq) _ IH]; intros a.
  - exists a. split; [done|].
    change (inject_Z (Z.of_nat (length (@nil jsnum)))) with 0%Q. lra.
  - cbn [fold_left jadd]. destruct (IH (a + q)%Q) as (σ & -> & Hσ).
    exists σ. split; [done|].
    cbn [length]. rewrite Nat2Z.inj_succ. unfold Z.succ.
    rewrite inject_Z_plus. change (inject_Z 1) with 1%Q. lra.
Qed.

Lemma jmean_range l :
  l ≠ [] → Forall in_0_100 l → in_0_100 (jmean l).
Proof.
  intros Hne Hall. unfold jmean, jsum, jsZ.
  destruct (jsum_range_acc l (inject_Z 0) Hall) as (σ & -> & Hσ).
  assert (Hlen : 0 < Z.of_nat (length l)) by (destruct l; [done|cbn; lia]).
  cbn [jdiv]. rewrite Qis_zero_inject, bool_decide_false by lia.
  eexists. split; [done|].
  assert (Hlen' : (0 < inject_Z (Z.of_nat (length l)))%Q).
  { change 0%Q with (inject_Z 0). by rewrite <- Zlt_Qlt. }
  change (inject_Z 0) with 0%Q in Hσ. split.
  - apply Qle_shift_div_l; [done|]. lra.
  - apply Qle_shift_div_r; [done|]. lra.
Qed.

Lemma in_0_100_zero : in_0_100 (jsZ 0).
Proof. exists 0%Q. split; [done|]. lra. Qed.

Lemma record_session_ok d now tp :
  0 ≤ sessionsCount tp → in_0_100 (quizAverage tp) →
  topic_ok (record_session d now tp).
Proof. intros Hn Ha. unfold topic_ok. cbn. split; [lia|done]. Qed.

Lemma record_average_ok avg tp :
  topic_ok tp → in_0_100 avg → topic_ok (record_average avg tp).
Proof. intros (Hn & _) Ha. unfold topic_ok. cbn. done. Qed.

Lemma updateTopicProgress_ok t d now ts :
  Forall topic_ok ts → Forall topic_ok (updateTopicProgress t d now ts).
Proof.
  intros Hall. unfold updateTopicProgress.
  destruct (find_entry t ts) as [[i tp]|].
  - apply Forall_alter; [done|].
    intros x _ (Hn & Ha & _). by apply record_session_ok.
  - apply Forall_app. split; [done|]. constructor; [|done].
    apply record_session_ok; cbn; [lia | apply in_0_100_zero].
Qed.

Lemma state_ok_default : state_ok createDefaultState.
Proof.
  split; [|split]; cbn; [apply map_Forall_empty | done | done].
Qed.

Lemma submitQuiz_state_ok `{L : Lowercase} s id answers now :
  state_ok s → state_ok (submitQuiz id answers now s).2.
Proof.
  intros (Hq & Hr & Ht). unfold submitQuiz.
  destruct (js_get (quizzes s) id) as [quiz| |] eqn:E; [|done..].
  apply js_get_Own_inv in E.
  destruct (compute_score answers (questions quiz)) as [sc|] eqn:Hsc;
    [|done].
  unfold record_result. cbv zeta. cbn [snd].
  set (r := {| quizId := id |}).
  set (s1 := {| quizResults := quizResults s ++ [r] |}).
  assert (Hquiz : quiz_ok quiz) by (by eapply Hq).
  assert (Hr1 : Forall (λ x, in_0_100 (percentage x)) (quizResults s1)).
  { cbn. apply Forall_app. split; [done|]. constructor; [|done].
    cbn. by eapply quiz_percentage_range. }
  assert (Hs1 : state_ok s1) by done.
  unfold updateTopicQuizAverage.
  destruct (find_topic _ _) as [[i tp]|] eqn:Ef; [|done].
  split; [done|]. split; [done|]. cbn.
  apply Forall_alter; [done|]. intros x _ Hx.
  apply record_average_ok; [done|]. apply jmean_range.
  - assert (Hin : r ∈ results_of_topic (quiz_topic quiz) s1).
    { rewrite results_of_topic_filter. apply list_elem_of_filter.
      split; [by exists quiz|].
      cbn. apply elem_of_app. right. apply list_elem_of_here. }
    intros Hnil. apply fmap_nil_inv in Hnil.
    change (results_of_topic (quiz_topic quiz) s1 = []) in Hnil.
    rewrite Hnil in Hin.
    by apply not_elem_of_nil in Hin.
  - apply Forall_fmap, Forall_forall. intros y Hy.
    apply list_elem_of_filter in Hy as [_ Hy].
    rewrite Forall_forall in Hr1. by apply Hr1.
Qed.

Lemma saveChatMessage_keeps s sessionId u a now :
  let s' := (saveChatMessage sessionId u a now s).2 in
  sessions s' = sessions s ∧ quizzes s' = quizzes s ∧
  quizResults s' = quizResults s ∧ progress s' = progress s.
Proof.
  unfold saveChatMessage. by destruct (js_get (chatHistories s) sessionId).
Qed.

Lemma step_state_ok `{L : Lowercase} s o :
  state_ok s → op_ok o → state_ok (step o s).
Proof.
  intros Hs Ho. destruct o as [session|sessionId now|quiz|id answers now|].
  - done.
  - destruct Hs as (Hq & Hr & Ht). cbn. unfold completeSession.
    destruct (js_get (sessions s) sessionId); [| |done].
    + split; [done|]. split; [done|]. cbn.
      by apply updateTopicProgress_ok.
    + split; [done|]. split; [done|]. cbn.
      by apply updateTopicProgress_ok.
  - destruct Hs as (Hq & Hr & Ht). split; [|done].
    cbn. by apply map_Forall_insert_2.
  - by apply submitQuiz_state_ok.
  - cbn [step].
    destruct (saveChatMessage_keeps s sessionId userMessage aiResponse now)
      as (_ & E1 & E2 & E3).
    unfold state_ok. by rewrite E1, E2, E3.
Qed.

Lemma reachable_state_ok `{L : Lowercase} s :
  reachable_gradable s → state_ok s.
Proof.
  induction 1 as [|s o _ IH Ho]; [apply state_ok_default|].
  by apply step_state_ok.
Qed.

Lemma mastery_of_find t s :
  mastery_of t s
  = default (jsZ 0)
      (masteryLevel <$>
         (snd <$> find_entry (Some t) (topicsStudied (progress s)))).
Proof.
  unfold mastery_of, find_topic. by destruct (find_entry _ _) as [[? ?]|].
Qed.

Lemma find_topic_ok t s i tp :
  state_ok s →
  find_topic t (topicsStudied (progress s)) = Some (i, tp) → topic_ok tp.
Proof.
  intros (_ & _ & Ht) H. apply find_topic_Some_topic in H as [_ H].
  rewrite Forall_forall in Ht. apply Ht. by eapply list_elem_of_lookup_2.
Qed.

Lemma mastery_of_range t s : state_ok s → in_0_100 (mastery_of t s).
Proof.
  intros Hs. unfold mastery_of.
  destruct (find_topic _ _) as [[i tp]|] eqn:E; [|apply in_0_100_zero].
  destruct (find_topic_ok t s i tp Hs E) as (Hn & Ha & ->).
  by apply mastery_range.
Qed.

Lemma completeSession_mastery_mono s sessionId now t :
  state_ok s →
  jle (mastery_of t s) (mastery_of t (completeSession sessionId now s).2).
Proof.
  intros Hs.
  assert (Hadd : ∀ t0 d,
    jle (mastery_of t s)
        (default (jsZ 0)
           (masteryLevel <$>
              (snd <$> find_entry (Some t)
                         (updateTopicProgress t0 d now
                            (topicsStudied (progress s))))))).
  { intros t0 d. rewrite updateTopicProgress_find.
    destruct (decide (Some t = t0)) as [<-|Hne].
    - unfold mastery_of, find_topic.
      destruct (find_entry _ _) as [[i tp]|] eqn:E.
      + destruct (find_topic_ok _ s i tp Hs E) as (Hn & Ha & Hm).
        cbn. rewrite Hm. by apply mastery_mono.
      + by vm_compute.
    - rewrite <- mastery_of_find.
      by apply jle_refl_in_0_100, mastery_of_range. }
  unfold completeSession.
  destruct (js_get (sessions s) sessionId) as [session| |];
    [| |by apply jle_refl_in_0_100, mastery_of_range].
  - cbn [snd]. rewrite (mastery_of_find t {| sessions := _ |}).
    cbn [progress topicsStudied add_duration]. apply Hadd.
  - cbn [snd]. rewrite (mastery_of_find t (set_progress _ _)).
    cbn [progress set_progress topicsStudied add_duration]. apply Hadd.
Qed.

(** C2, as the code has it: in every state a user can reach (the quizzes
    saved having at least one question and positive points), the mastery
    level of every topic entry lies in [0,100], and an operation other
    than [submitQuiz] never lowers the mastery level of a topic; completing
    a session on the topic is the operation that raises it.  ([submitQuiz]
    computes the level again from the new quiz average of the topic, which
    can be lower than the one before.) *)
Theorem mastery_range_and_growth `{L : Lowercase} (s : UserState) :
  reachable_gradable s →
  (∀ tp, tp ∈ topicsStudied (progress s) → in_0_100 (masteryLevel tp)) ∧
  (∀ t, in_0_100 (mastery_of t s)) ∧
  (∀ o t, op_ok o → is_submit o = false →
          jle (mastery_of t s) (mastery_of t (step o s))).
Proof.
  intros Hreach. pose proof (reachable_state_ok s Hreach) as Hs.
  split; [|split].
  - intros tp Htp. destruct Hs as (_ & _ & Ht).
    rewrite Forall_forall in Ht. destruct (Ht tp Htp) as (Hn & Ha & ->).
    by apply mastery_range.
  - intros t. by apply mastery_of_range.
  - intros o t Ho Hsub.
    destruct o as [session|sessionId now|quiz|id answers now|].
    + change (mastery_of t (step (CreateSession session) s))
        with (mastery_of t s).
      by apply jle_refl_in_0_100, mastery_of_range.
    + by apply completeSession_mastery_mono.
    + change (mastery_of t (step (SaveQuiz quiz) s)) with (mastery_of t s).
      by apply jle_refl_in_0_100, mastery_of_range.
    + discriminate.
    + cbn [step].
      destruct (saveChatMessage_keeps s sessionId userMessage aiResponse now)
        as (_ & _ & _ & E).
      unfold mastery_of at 2. rewrite E.
      by apply jle_refl_in_0_100, mastery_of_range.
Qed.

Lemma mastery_range_and_growth_witness :
  let s := run session_then_quiz createDefaultState in
  in_0_100 (mastery_of "Physics" s) ∧
  jle (mastery_of "Physics" s)
      (mastery_of "Physics" (step (CompleteSession "session_0" 1900000) s)).
Proof.
  cbv zeta.
  destruct (mastery_range_and_growth (run session_then_quiz createDefaultState))
    as (_ & Hr & Hm).
  - apply run_reachable_gradable; [constructor|].
    repeat constructor; discriminate.
  - split; [apply Hr|]. by apply Hm.
Defined.

(** C2 does not hold for quiz submissions: after one completed session on
    Physics and a quiz on Physics answered right, the mastery level of
    Physics is 60; the same quiz answered wrong brings it down to 35. *)
Lemma mastery_drops_after_quiz :
  let s := run session_then_quiz createDefaultState in
  let s' := step wrong_answer s in
  reachable_gradable s ∧ reachable_gradable s' ∧
  jeq (mastery_of "Physics" s) (Fin 60) ∧
  jeq (mastery_of "Physics" s') (Fin 35) ∧
  ¬ jle (mastery_of "Physics" s) (mastery_of "Physics" s').
Proof.
  cbv zeta.
  assert (Hs : reachable_gradable
                 (run session_then_quiz createDefaultState)).
  { apply run_reachable_gradable; [constructor|].
    repeat constructor; discriminate. }
  split; [exact Hs|]. split; [by constructor|].
  split; [by vm_compute|]. split; [by vm_compute|].
  vm_compute. intros H. by apply H.
Qed.

End Mastery.

(** * Further properties of the handlers *)

(** ** Chat histories *)

Section Chat.
Import StudyState Spec Store Examples.

Lemma getChatHistory_lookup s sessionId :
  getChatHistory sessionId s = default [] (chatHistories s !! sessionId).
Proof.
  unfold getChatHistory, js_get.
  destruct (chatHistories s !! sessionId); [done|].
  by destruct (inherited sessionId).
Qed.

Lemma saveChatMessage_history_same s sessionId u a now :
  is_Some (chatHistories s !! sessionId) ∨ inherited sessionId = false →
  saveChatMessage sessionId u a now s
  = (Ok tt,
     set_chatHistory sessionId
       (getChatHistory sessionId s
        ++ [ {| role := user; content := u; msg_timestamp := now |};
             {| role := assistant; content := a;
                msg_timestamp := now + 1 |} ]) s).
Proof.
  intros H. unfold saveChatMessage, getChatHistory, js_get.
  destruct (chatHistories s !! sessionId) as [m|]; [done|].
  destruct H as [[? H]|H]; [done|]. by rewrite H.
Qed.

Lemma saveChatMessage_inherited s sessionId u a now :
  chatHistories s !! sessionId = None → inherited sessionId = true →
  saveChatMessage sessionId u a now s = (InternalError, s).
Proof.
  intros H1 H2. unfold saveChatMessage. by rewrite js_get_Inherited.
Qed.

Lemma set_chatHistory_same s sessionId msgs :
  getChatHistory sessionId (set_chatHistory sessionId msgs s) = msgs.
Proof.
  rewrite getChatHistory_lookup. cbn. by rewrite lookup_insert_eq.
Qed.

Lemma set_chatHistory_other s sessionId other msgs :
  other ≠ sessionId →
  getChatHistory other (set_chatHistory sessionId msgs s)
  = getChatHistory other s.
Proof.
  intros Hne. rewrite !getChatHistory_lookup. cbn.
  by rewrite lookup_insert_ne.
Qed.

Lemma saveChatMessage_history_other s sessionId other u a now :
  other ≠ sessionId →
  getChatHistory other (saveChatMessage sessionId u a now s).2
  = getChatHistory other s.
Proof.
  intros Hne. unfold saveChatMessage.
  destruct (js_get (chatHistories s) sessionId); cbn [snd];
    [by apply set_chatHistory_other | done | by apply set_chatHistory_other].
Qed.

(** What [saveChatMessage] leaves as the history of its session: the
    history with one more turn, or the history as it was. *)
Lemma saveChatMessage_history s sessionId u a now :
  getChatHistory sessionId (saveChatMessage sessionId u a now s).2
  = getChatHistory sessionId s
    ++ [ {| role := user; content := u; msg_timestamp := now |};
         {| role := assistant; content := a; msg_timestamp := now + 1 |} ]
  ∨ (saveChatMessage sessionId u a now s).2 = s.
Proof.
  destruct (chatHistories s !! sessionId) as [m|] eqn:E.
  - left. rewrite saveChatMessage_history_same by eauto.
    apply set_chatHistory_same.
  - destruct (inherited sessionId) eqn:Hi.
    + right. by rewrite saveChatMessage_inherited.
    + left. rewrite saveChatMessage_history_same by eauto.
      apply set_chatHistory_same.
Qed.



Lemma whole_turns_app l1 l2 :
  whole_turns l1 → whole_turns l2 → whole_turns (l1 ++ l2).
Proof.
  induction 1 as [|u a rest Hu Ha Ht _ IH]; intros H2; [done|].
  cbn. constructor; auto.
Qed.

Lemma step_chatHistories `{L : Lowercase} s o :
  (∀ sessionId u a now, o ≠ SaveChatMessage sessionId u a now) →
  chatHistories (step o s) = chatHistories s.
Proof.
  intros Hne.
  destruct o as [session|sessionId now|quiz|id answers now|sid' u a now].
  - done.
  - cbn. unfold completeSession.
    by destruct (js_get (sessions s) sessionId).
  - done.
  - cbn. unfold submitQuiz. destruct (js_get (quizzes s) id); [|done..].
    destruct (compute_score _ _); [|done].
    unfold record_result. cbv zeta. cbn [snd]. unfold updateTopicQuizAverage.
    by destruct (find_topic _ _) as [[? ?]|].
  - by destruct (Hne sid' u a now).
Qed.

Lemma step_whole_turns `{L : Lowercase} s o :
  (∀ sid, whole_turns (getChatHistory sid s)) →
  ∀ sid, whole_turns (getChatHistory sid (step o s)).
Proof.
  intros Hs sid.
  destruct o as [session|sessionId now|quiz|id answers now|sid' u a now];
    [unfold getChatHistory; rewrite step_chatHistories by done; apply Hs..|].
  cbn [step]. destruct (decide (sid = sid')) as [->|Hne].
  - destruct (saveChatMessage_history s sid' u a now) as [-> | ->];
      [|apply Hs].
    apply whole_turns_app; [apply Hs|]. by repeat constructor.
  - rewrite saveChatMessage_history_other by done. apply Hs.
Qed.

Lemma reachable_whole_turns `{L : Lowercase} s :
  reachable s → ∀ sid, whole_turns (getChatHistory sid s).
Proof.
  induction 1 as [|s o _ IH].
  - intros sid. rewrite getChatHistory_lookup. cbn. rewrite lookup_empty.
    constructor.
  - by apply step_whole_turns.
Qed.

Lemma whole_turns_even l : whole_turns l → Nat.Even (length l).
Proof.
  induction 1 as [|u a rest _ _ _ _ [k Hk]]; [by exists 0%nat|].
  exists (S k). cbn. lia.
Qed.

(** X2: in every state the handlers can leave, whatever was saved and
    submitted, each chat history is made of whole turns: a user message
    followed by the assistant reply stamped one millisecond later; a
    history thus has an even number of messages. *)
Theorem chat_histories_whole_turns `{L : Lowercase} (s : UserState)
    (sessionId : string) :
  reachable s →
  whole_turns (getChatHistory sessionId s) ∧
  Nat.Even (length (getChatHistory sessionId s)).
Proof.
  intros Hs. pose proof (reachable_whole_turns s Hs sessionId) as H.
  split; [exact H | by apply whole_turns_even].
Qed.

Lemma chat_histories_whole_turns_witness :
  whole_turns
    (getChatHistory "a"
       (run [SaveQuiz no_question; SubmitQuiz "quiz_3" ∅ 3;
             SaveChatMessage "a" "one" "first" 5;
             SaveChatMessage "toString" "lost" "lost" 7;
             SaveChatMessage "a" "two" "second" 9] createDefaultState)).
Proof.
  apply (chat_histories_whole_turns _ "a").
  apply run_reachable. constructor.
Defined.

End Chat.

(** ** The context sent to the model *)

Section ChatContext.
Import StudyState Spec Store Examples AIService.

Lemma whole_turns_drop_even l k :
  whole_turns l → whole_turns (drop (2 * k) l).
Proof.
  intros H. revert k. induction H as [|u a rest Hu Ha Ht H IH]; intros k.
  - rewrite drop_nil. constructor.
  - destruct k as [|k]; [by constructor|].
    replace (2 * S k)%nat with (S (S (2 * k))) by lia. cbn [drop]. apply IH.
Qed.

Lemma slice_last_whole_turns l :
  whole_turns l → whole_turns (slice_last 10 l).
Proof.
  intros H. unfold slice_last.
  destruct (whole_turns_even l H) as [k Hk].
  replace (length l - 10)%nat with (2 * (k - 5))%nat by lia.
  by apply whole_turns_drop_even.
Qed.

(** X3: for every history, the messages [chat] sends are the system
    prompt, the last ten messages of the history (all of them when there
    are at most ten), and the new user message: at most twelve messages,
    and the history is never reordered.  When the history is one that
    [getChatHistory] returns in a state the handlers can leave, the
    context is made of whole turns, so the message after the system prompt
    is never an assistant reply cut off from its question. *)
Theorem chat_messages_context `{L : Lowercase} (u : string)
    (history : list ChatMessage) :
  let context := slice_last 10 history in
  chat_messages u history
    = {| pm_role := system; pm_content := systemPrompt;
         pm_timestamp := None |}
      :: (of_history <$> context)
      ++ [ {| pm_role := user; pm_content := u; pm_timestamp := None |} ] ∧
  context `suffix_of` history ∧
  length context = (length history `min` 10)%nat ∧
  (length history ≤ 10 → context = history)%nat ∧
  (length (chat_messages u history) ≤ 12)%nat ∧
  (∀ s sessionId,
     reachable s → history = getChatHistory sessionId s →
     whole_turns context).
Proof.
  intros context.
  assert (Hlen : length context = (length history `min` 10)%nat).
  { subst context. unfold slice_last. rewrite length_drop. lia. }
  split; [reflexivity|]. split.
  { subst context. unfold slice_last. apply suffix_drop. }
  split; [exact Hlen|]. split.
  { intros Hle. subst context. unfold slice_last.
    replace (length history - 10)%nat with 0%nat by lia. done. }
  split.
  { unfold chat_messages. cbn [length].
    rewrite length_app, length_fmap. fold context. cbn. lia. }
  intros s sessionId Hs ->.
  apply slice_last_whole_turns. by apply reachable_whole_turns.
Qed.

Lemma chat_messages_context_witness :
  let s := run [SaveChatMessage "a" "one" "first" 5;
                SaveChatMessage "a" "two" "second" 9] createDefaultState in
  pm_content <$> chat_messages "three" (getChatHistory "a" s)
  = [systemPrompt; "one"; "first"; "two"; "second"; "three"] ∧
  whole_turns (slice_last 10 (getChatHistory "a" s)).
Proof.
  cbv zeta.
  destruct (chat_messages_context "three"
              (getChatHistory "a"
                 (run [SaveChatMessage "a" "one" "first" 5;
                       SaveChatMessage "a" "two" "second" 9]
                      createDefaultState)))
    as (H & _ & _ & _ & _ & Hw).
  split.
  - rewrite H. reflexivity.
  - apply (Hw (run [SaveChatMessage "a" "one" "first" 5;
                    SaveChatMessage "a" "two" "second" 9]
                   createDefaultState) "a"); [|reflexivity].
    apply run_reachable. constructor.
Defined.

End ChatContext.

(** ** Counters of the progress aggregate *)

Section Counters.
Import StudyState Spec Store Examples.

Lemma results_counted_ext s s' :
  quizResults s' = quizResults s →
  totalQuizzes (progress s') = totalQuizzes (progress s) →
  averageScore (progress s') = averageScore (progress s) →
  results_counted s → results_counted s'.
Proof.
  unfold results_counted, has_NaN_result. by intros -> -> ->.
Qed.

Lemma step_results_counted `{L : Lowercase} s o :
  results_counted s → results_counted (step o s).
Proof.
  intros Hs.
  destruct o as [session|sessionId now|quiz|id answers now|sid' u a now].
  - by apply (results_counted_ext s).
  - apply (results_counted_ext s); [| | |done]; cbn; unfold completeSession;
      by destruct (js_get (sessions s) sessionId).
  - by apply (results_counted_ext s).
  - cbn [step]. destruct (submitQuiz_cases s id answers now)
      as [[_ ->]|(quiz & sc & Hq & Hsc)]; [done|].
    destruct (submitQuiz_found s id quiz answers now sc Hq Hsc)
      as (r & s' & E & _ & _ & _ & _ & _ & _ & Hr & Ht & _ & Hav & _).
    rewrite E. cbn [snd]. destruct Hs as (Hn & _).
    assert (Hne : quizResults s' ≠ []).
    { rewrite Hr. by destruct (quizResults s). }
    split; [|split; [|split]].
    + rewrite Ht, Hr, length_app, Hn. cbn. lia.
    + done.
    + intros _ ps Hps. rewrite Hav, Hps. apply jmean_Fin.
      intros ->. by apply fmap_nil_inv in Hps.
    + intros (x & Hx & HNaN). rewrite Hav. apply jmean_NaN_in.
      rewrite <- HNaN. by apply list_elem_of_fmap_2.
  - cbn [step].
    destruct (saveChatMessage_keeps s sid' u a now) as (_ & _ & E1 & E2).
    apply (results_counted_ext s); [done|by rewrite E2..|done].
Qed.

Lemma reachable_results_counted `{L : Lowercase} s :
  reachable s → results_counted s.
Proof.
  induction 1 as [|s o _ IH].
  - split; [done|]. split; [done|]. split; [done|].
    intros (r & Hr & _). by apply not_elem_of_nil in Hr.
  - by apply step_results_counted.
Qed.

(** X4: in every state the handlers can leave, whatever was saved and
    submitted, [totalQuizzes] is the number of stored results, and
    [averageScore] is 0 while there is no result; afterwards it is the sum
    of the percentages of all stored results, added from the left, divided
    by their number, when these are all finite, and [NaN] when one of
    them is. *)
Theorem totalQuizzes_counts_results `{L : Lowercase} (s : UserState) :
  reachable s →
  totalQuizzes (progress s) = Z.of_nat (length (getQuizResults s)) ∧
  (getQuizResults s = [] → averageScore (progress s) = jsZ 0) ∧
  (getQuizResults s ≠ [] →
   ∀ ps, percentage <$> getQuizResults s = Fin <$> ps →
     ∃ a, averageScore (progress s) = Fin a ∧
          (a == Qsum_from 0 ps / inject_Z (Z.of_nat (length ps)))%Q) ∧
  ((∃ r, r ∈ getQuizResults s ∧ percentage r = NaN) →
   averageScore (progress s) = NaN).
Proof.
  intros Hs. exact (reachable_results_counted s Hs).
Qed.

Lemma totalQuizzes_counts_results_witness :
  let s := step wrong_answer (run session_then_quiz createDefaultState) in
  let s' := run [SaveQuiz no_question; SubmitQuiz "quiz_3" ∅ 3] s in
  totalQuizzes (progress s) = 2 ∧ jeq (averageScore (progress s)) (Fin 50) ∧
  totalQuizzes (progress s') = 3 ∧ averageScore (progress s') = NaN.
Proof.
  cbv zeta.
  destruct (totalQuizzes_counts_results
              (step wrong_answer (run session_then_quiz createDefaultState)))
    as (Hn & _ & Ha & _).
  { constructor. apply run_reachable. constructor. }
  destruct (totalQuizzes_counts_results
              (run [SaveQuiz no_question; SubmitQuiz "quiz_3" ∅ 3]
                 (step wrong_answer
                    (run session_then_quiz createDefaultState))))
    as (Hn' & _ & _ & HNaN).
  { apply run_reachable. constructor. apply run_reachable. constructor. }
  split; [by rewrite Hn|]. split.
  - assert (Hne : getQuizResults
                    (step wrong_answer
                       (run session_then_quiz createDefaultState)) ≠ [])
      by (vm_compute; discriminate).
    destruct (Ha Hne [ (inject_Z 10 / inject_Z 10 * 100)%Q;
                       (inject_Z 0 / inject_Z 10 * 100)%Q ])
      as (a & -> & Hq); [by vm_compute|].
    cbn [jeq]. rewrite Hq. by vm_compute.
  - split; [by rewrite Hn'|]. apply HNaN.
    eexists. split.
    + apply list_elem_of_lookup_2 with 2%nat. vm_compute. reflexivity.
    + reflexivity.
Defined.

Lemma step_sessions_counted `{L : Lowercase} s o :
  Z.of_nat (size (sessions s)) ≤ totalSessions (progress s) →
  Z.of_nat (size (sessions (step o s))) ≤ totalSessions (progress (step o s)).
Proof.
  intros H.
  destruct o as [session|sessionId now|quiz|id answers now|sid' u a now];
    try assumption.
  - cbn. destruct (sessions s !! session_id session) eqn:E.
    + rewrite map_size_insert_Some by done. lia.
    + rewrite map_size_insert_None by done. lia.
  - cbn. unfold completeSession.
    destruct (js_get (sessions s) sessionId) eqn:E; [| |done].
    + apply js_get_Own_inv in E.
      cbn. rewrite map_size_insert_Some by done. done.
    + done.
  - cbn [step]. destruct (submitQuiz_cases s id answers now)
      as [[_ ->]|(quiz & sc & Hq & Hsc)]; [done|].
    destruct (submitQuiz_found s id quiz answers now sc Hq Hsc)
      as (r & s' & E & _ & _ & _ & _ & _ & Hs & _).
    rewrite E. cbn [snd]. rewrite Hs.
    unfold submitQuiz in E. rewrite (js_get_Own _ _ _ Hq), Hsc in E.
    unfold record_result in E. cbv zeta in E. injection E as _ <-.
    unfold updateTopicQuizAverage.
    by destruct (find_topic _ _) as [[? ?]|].
  - cbn [step].
    destruct (saveChatMessage_keeps s sid' u a now) as (E1 & _ & _ & E2).
    by rewrite E1, E2.
Qed.

(** X5: [totalSessions] counts the calls to [createSession], not the
    sessions stored: in every state the handlers can leave it is at least
    the number of stored sessions; in any state [createSession] adds one
    to it and stores the session under its id, and under an id already in
    use the number of stored sessions stays the same. *)
Theorem totalSessions_counts_calls `{L : Lowercase} (s : UserState)
    (session : StudySession) :
  (reachable s → Z.of_nat (size (sessions s)) ≤ totalSessions (progress s)) ∧
  totalSessions (progress (createSession session s))
    = totalSessions (progress s) + 1 ∧
  sessions (createSession session s) !! session_id session = Some session ∧
  (is_Some (sessions s !! session_id session) →
   size (sessions (createSession session s)) = size (sessions s)).
Proof.
  split.
  - intros Hs.
    induction Hs as [|s o _ IH]; [done|]. by apply step_sessions_counted.
  - split; [reflexivity|]. split; [apply lookup_insert_eq|].
    intros [x Hx]. cbn. by rewrite map_size_insert_Some.
Qed.

Lemma totalSessions_counts_calls_witness :
  let s := run [CreateSession (physics_session 0)] createDefaultState in
  let s' := createSession (physics_session 0) s in
  Z.of_nat (size (sessions s')) ≤ totalSessions (progress s') ∧
  totalSessions (progress s') = 2 ∧ size (sessions s') = 1%nat.
Proof.
  cbv zeta.
  destruct (totalSessions_counts_calls
              (run [CreateSession (physics_session 0)] createDefaultState)
              (physics_session 0)) as (_ & Ht & _ & Hsz).
  destruct (totalSessions_counts_calls
              (createSession (physics_session 0)
                 (run [CreateSession (physics_session 0)]
                    createDefaultState))
              (physics_session 0)) as (Hle & _).
  split; [|split].
  - apply Hle.
    apply (reach_step _ (CreateSession (physics_session 0))).
    apply run_reachable. constructor.
  - rewrite Ht. by vm_compute.
  - rewrite Hsz; [by vm_compute|]. eexists. by vm_compute.
Defined.

Lemma is_Some_snd {A B} (x : option (A * B)) :
  is_Some (snd <$> x) → is_Some x.
Proof. destruct x; [by eexists | by intros [? ?]]. Qed.

(** X6: no handler deletes anything: across any operation every stored
    session and quiz keeps its key, the results stored stay in front of
    the new list of results in the same order, each chat history is
    extended at its end only, and a topic that has an entry keeps one. *)
Theorem step_keeps_records `{L : Lowercase} (s : UserState) (o : Op) :
  let s' := step o s in
  dom (sessions s) ⊆ dom (sessions s') ∧
  dom (quizzes s) ⊆ dom (quizzes s') ∧
  quizResults s `prefix_of` quizResults s' ∧
  (∀ sid, getChatHistory sid s `prefix_of` getChatHistory sid s') ∧
  (∀ t, is_Some (find_topic t (topicsStudied (progress s))) →
        is_Some (find_topic t (topicsStudied (progress s')))).
Proof.
  cbv zeta.
  assert (Hadd : ∀ t0 d now t,
    is_Some (find_topic t (topicsStudied (progress s))) →
    is_Some (find_topic t (updateTopicProgress t0 d now
                             (topicsStudied (progress s))))).
  { intros t0 d now t [[i tp] Hf]. apply is_Some_snd. unfold find_topic in *.
    rewrite updateTopicProgress_find.
    destruct (decide _); [by eexists|]. rewrite Hf. by eexists. }
  destruct o as [session|sessionId now|quiz|id answers now|sid' u a now].
  - cbn. repeat split; try done. set_solver.
  - cbn [step]. unfold completeSession.
    destruct (js_get (sessions s) sessionId) as [session| |] eqn:E; [| |done].
    + cbn [snd sessions quizzes quizResults progress topicsStudied
           add_duration].
      repeat split; try done; [set_solver | apply Hadd].
    + cbn [snd sessions quizzes quizResults progress topicsStudied
           add_duration set_progress].
      repeat split; try done. apply Hadd.
  - cbn. repeat split; try done. set_solver.
  - cbn [step]. unfold submitQuiz.
    destruct (js_get (quizzes s) id) as [quiz| |] eqn:E; [|done..].
    destruct (compute_score answers (questions quiz)) as [sc|]; [|done].
    unfold record_result.
    cbv zeta. cbn [snd]. unfold updateTopicQuizAverage.
    cbn [progress topicsStudied].
    destruct (find_topic (quiz_topic quiz) _) as [[i tp]|] eqn:Ef.
    + cbn [set_progress set_topicsStudied sessions quizzes quizResults
           progress topicsStudied].
      repeat split; try done.
      * by apply prefix_app_r.
      * intros t [[j tq] Hf]. apply is_Some_snd. unfold find_topic in *.
        rewrite (find_topic_alter _ (Some (quiz_topic quiz)) (Some t) _ i tp)
          by done.
        destruct (decide _); [by eexists|]. rewrite Hf. by eexists.
    + cbn. repeat split; try done. by apply prefix_app_r.
  - cbn [step].
    destruct (saveChatMessage_keeps s sid' u a now) as (E1 & E2 & E3 & E4).
    rewrite E1, E2, E3, E4. repeat split; try done.
    intros sid. destruct (decide (sid = sid')) as [->|Hne].
    + destruct (saveChatMessage_history s sid' u a now) as [-> | ->];
        [by apply prefix_app_r | done].
    + by rewrite saveChatMessage_history_other.
Qed.

End Counters.

(** ** Saving and submitting quizzes *)

Section Quizzes.
Import StudyState Spec Store Examples.



(** X8: [submitQuiz] is not idempotent: when a submission succeeds, the
    same answers submitted to the same quiz once more succeed again and
    store a second result, with the same score, maximal score and
    percentage, and [totalQuizzes] has grown by two.  When a submission
    fails with the internal error, it stores nothing and fails in the same
    way when repeated. *)
Theorem submitQuiz_twice `{L : Lowercase} (s : UserState) (id : string)
    (quiz : Quiz) (answers : gmap string string) (now1 now2 : Z) :
  quizzes s !! id = Some quiz →
  (∀ r1 s1,
     submitQuiz id answers now1 s = (Ok r1, s1) →
     ∃ r2 s2,
       submitQuiz id answers now2 s1 = (Ok r2, s2) ∧
       quizResults s2 = quizResults s ++ [r1; r2] ∧
       score r2 = score r1 ∧ maxScore r2 = maxScore r1 ∧
       percentage r2 = percentage r1 ∧
       totalQuizzes (progress s2) = totalQuizzes (progress s) + 2) ∧
  ((submitQuiz id answers now1 s).1 = InternalError →
   submitQuiz id answers now1 s = (InternalError, s) ∧
   submitQuiz id answers now2 s = (InternalError, s)).
Proof.
  intros Hq. split.
  - intros r1 s1 E1.
    destruct (compute_score answers (questions quiz)) as [sc|] eqn:Hsc.
    2: { by rewrite (submitQuiz_throws s id quiz answers now1 Hq Hsc) in E1. }
    destruct (submitQuiz_found s id quiz answers now1 sc Hq Hsc)
      as (r1' & s1' & E1' & _ & Hs1 & Hm1 & Hp1 & Hq1 & _ & Hr1 & Ht1 & _).
    rewrite E1 in E1'. injection E1' as <- <-.
    assert (Hq' : quizzes s1 !! id = Some quiz) by (by rewrite Hq1).
    destruct (submitQuiz_found s1 id quiz answers now2 sc Hq' Hsc)
      as (r2 & s2 & E2 & _ & Hs2 & Hm2 & Hp2 & _ & _ & Hr2 & Ht2 & _).
    exists r2, s2. split; [exact E2|].
    split; [by rewrite Hr2, Hr1, <- app_assoc|].
    split; [congruence|]. split; [congruence|].
    split; [by rewrite Hp2, Hp1, Hs2, Hm2, Hs1, Hm1|]. lia.
  - intros Herr.
    destruct (compute_score answers (questions quiz)) as [sc|] eqn:Hsc.
    + destruct (submitQuiz_found s id quiz answers now1 sc Hq Hsc)
        as (r1 & s1 & E1 & _). by rewrite E1 in Herr.
    + split; by apply (submitQuiz_throws s id quiz).
Qed.

Lemma submitQuiz_twice_witness :
  let s := saveQuiz two_questions createDefaultState in
  ∃ r1 s1 r2 s2,
    submitQuiz "quiz_1" scenario_answers 1 s = (Ok r1, s1) ∧
    submitQuiz "quiz_1" scenario_answers 2 s1 = (Ok r2, s2) ∧
    length (quizResults s2) = 2%nat ∧
    jeq (averageScore (progress s2)) (Fin 40).
Proof.
  cbv zeta.
  destruct (submitQuiz "quiz_1" scenario_answers 1
              (saveQuiz two_questions createDefaultState))
    as [[r1| |] s1] eqn:E1; [|by vm_compute in E1..].
  destruct (submitQuiz_twice (saveQuiz two_questions createDefaultState)
              "quiz_1" two_questions scenario_answers 1 2 eq_refl)
    as (Hok & _).
  destruct (Hok r1 s1 E1) as (r2 & s2 & E2 & Hr & _).
  exists r1, s1, r2, s2. split; [reflexivity|]. split; [exact E2|].
  split; [by rewrite Hr|].
  vm_compute in E1. injection E1 as <- <-.
  vm_compute in E2. injection E2 as <- <-. by vm_compute.
Defined.

Lemma is_correct_same_up_to_case `{L : Lowercase} a1 a2 q :
  same_up_to_case a1 a2 → is_correct a1 q = is_correct a2 q.
Proof.
  intros H. specialize (H (q_id q)). unfold is_correct, js_get.
  destruct (a1 !! q_id q) as [x|], (a2 !! q_id q) as [y|]; try done.
  injection H as ->. done.
Qed.

(** X9: the score does not depend on the case of the letters of the
    submitted answers: two answer sheets that hold the same identifiers
    and whose answers agree after [toLowerCase] get the same score on
    every list of questions, or make the scoring throw alike. *)
Theorem score_same_up_to_case `{L : Lowercase} (a1 a2 : gmap string string)
    (qs : list QuizQuestion) :
  same_up_to_case a1 a2 →
  compute_score a1 qs = compute_score a2 qs.
Proof.
  intros H. unfold compute_score. generalize 0.
  induction qs as [|q qs IH]; intros acc; [done|].
  cbn [score_loop]. rewrite (is_correct_same_up_to_case a1 a2 q H).
  destruct (is_correct a2 q) as [[|]|]; [apply IH | apply IH | done].
Qed.

Lemma score_same_up_to_case_witness :
  compute_score {[ "q1" := "A"; "q2" := "TRUE" ]} (questions two_questions)
  = compute_score {[ "q1" := "a"; "q2" := "True" ]}
      (questions two_questions).
Proof.
  apply (score_same_up_to_case {[ "q1" := "A"; "q2" := "TRUE" ]}
           {[ "q1" := "a"; "q2" := "True" ]}).
  intros k.
  destruct (decide (k = "q1")) as [->|H1]; [reflexivity|].
  destruct (decide (k = "q2")) as [->|H2]; [reflexivity|].
  rewrite !lookup_insert_ne, !lookup_singleton_ne by done. reflexivity.
Defined.

End Quizzes.

(** ** Scores and the answer key *)

Section AnswerKey.
Import StudyState Spec Store Examples QuizGenerationWorkflow.


Lemma sum_points_filter_all (P : QuizQuestion → Prop)
    `{∀ x, Decision (P x)} qs :
  Forall P qs → sum_points (filter P qs) = sum_points qs.
Proof.
  induction 1 as [|q qs Hq _ IH]; [done|].
  rewrite filter_cons, decide_True by done. cbn. by rewrite IH.
Qed.


Lemma matches_not_inherited `{L : Lowercase} answers qs :
  Forall (matches answers) qs → ¬ reads_inherited answers qs.
Proof.
  intros Hall Hr. apply Exists_exists in Hr as (q & Hq & Hnone & _).
  rewrite Forall_forall in Hall. destruct (Hall q Hq) as (a & Ha & _).
  congruence.
Qed.



Lemma answer_key_other qs (acc : gmap string string) k :
  k ∉ q_id <$> qs →
  fold_left (λ key q, js_set_text key (q_id q) (correctAnswer q)) qs acc
    !! k
  = acc !! k.
Proof.
  revert acc. induction qs as [|x qs IH]; intros acc Hk; [done|].
  rewrite fmap_cons, not_elem_of_cons in Hk. destruct Hk as [Hx Hk].
  cbn [fold_left]. rewrite IH by done. unfold js_set_text.
  destruct (String.eqb _ _); [done|]. by apply lookup_insert_ne.
Qed.

Lemma answer_key_lookup qs (acc : gmap string string) q :
  NoDup (q_id <$> qs) → "__proto__" ∉ q_id <$> qs → q ∈ qs →
  fold_left (λ key q, js_set_text key (q_id q) (correctAnswer q)) qs acc
    !! q_id q
  = Some (correctAnswer q).
Proof.
  revert acc. induction qs as [|x qs IH]; intros acc Hnd Hp Hq.
  - by apply not_elem_of_nil in Hq.
  - rewrite fmap_cons in Hnd. apply NoDup_cons in Hnd as [Hx Hnd].
    rewrite fmap_cons, not_elem_of_cons in Hp. destruct Hp as [Hpx Hp].
    cbn [fold_left]. apply elem_of_cons in Hq as [-> | Hq].
    + rewrite answer_key_other by done. unfold js_set_text.
      destruct (String.eqb_spec (q_id x) "__proto__") as [E|_].
      * by rewrite E in Hpx.
      * apply lookup_insert_eq.
    + by apply IH.
Qed.

Lemma answer_key_proto qs (acc : gmap string string) :
  acc !! "__proto__" = None →
  fold_left (λ key q, js_set_text key (q_id q) (correctAnswer q)) qs acc
    !! "__proto__" = None.
Proof.
  revert acc. induction qs as [|x qs IH]; intros acc Hacc; [done|].
  cbn [fold_left]. apply IH. unfold js_set_text.
  destruct (String.eqb_spec (q_id x) "__proto__") as [E|E]; [done|].
  by rewrite lookup_insert_ne.
Qed.

Lemma answer_key_matches `{L : Lowercase} qs :
  NoDup (q_id <$> qs) → "__proto__" ∉ q_id <$> qs →
  Forall (matches (create_answer_key qs)) qs.
Proof.
  intros Hnd Hp. apply Forall_forall. intros q Hq.
  exists (correctAnswer q). split; [|done].
  by apply answer_key_lookup.
Qed.

(** X11: the answer key of step [create-answer-key] never holds the name
    [__proto__].  When the ids of the validated questions are pairwise
    different and none of them is [__proto__], the key maps the id of
    every question to its correct answer and holds nothing else, and an
    answer sheet equal to the key scores the maximum. *)
Theorem answer_key_full_score `{L : Lowercase} (qs : list QuizQuestion) :
  create_answer_key qs !! "__proto__" = None ∧
  (NoDup (q_id <$> qs) → "__proto__" ∉ q_id <$> qs →
   (∀ q, q ∈ qs → create_answer_key qs !! q_id q = Some (correctAnswer q)) ∧
   (∀ k, k ∉ q_id <$> qs → create_answer_key qs !! k = None) ∧
   compute_score (create_answer_key qs) qs = Some (compute_maxScore qs)).
Proof.
  split; [by apply answer_key_proto|].
  intros Hnd Hp. split; [|split].
  - intros q Hq. by apply answer_key_lookup.
  - intros k Hk. unfold create_answer_key.
    rewrite answer_key_other by done. apply lookup_empty.
  - rewrite compute_score_sum, compute_maxScore_sum.
    + f_equal. by apply sum_points_filter_all, answer_key_matches.
    + by apply matches_not_inherited, answer_key_matches.
Qed.

Lemma answer_key_full_score_witness :
  compute_score (create_answer_key (questions two_questions))
    (questions two_questions) = Some 25.
Proof.
  destruct (answer_key_full_score (questions two_questions))
    as (_ & H).
  destruct H as (_ & _ & H).
  - apply (bool_decide_unpack _). by vm_compute.
  - apply (bool_decide_unpack _). by vm_compute.
  - rewrite H. reflexivity.
Defined.

Lemma totalPoints_sum qs : totalPoints qs = sum_points qs.
Proof. unfold totalPoints. by rewrite compute_maxScore_acc. Qed.

Lemma compute_percentage_full m :
  m ≠ 0 → jeq (compute_percentage m m) (Fin 100).
Proof.
  intros Hm. destruct (compute_percentage_Fin m m Hm) as (p & -> & Hp).
  cbn. rewrite Hp. field.
  intros E. apply Hm. unfold Qeq in E. simpl in E. lia.
Qed.

(** X12: the quiz workflow and the store fit together, for questions
    whose fields have the types the declaration of [QuizQuestion] gives
    them: once step [store-quiz] has saved the validated questions,
    submitting the answer key of the workflow to that quiz succeeds when
    the ids of the questions are pairwise different and none of them is
    [__proto__], with a maximal score and a score both equal to the
    [totalPoints] the workflow returned and, when that total is not 0,
    with 100 percent. *)
Theorem stored_quiz_answer_key `{L : Lowercase} (s : UserState)
    (id t : string) (d : Difficulty) (qs : list QuizQuestion)
    (now now' : Z) :
  NoDup (q_id <$> qs) →
  "__proto__" ∉ q_id <$> qs →
  ∃ r s',
    submitQuiz id (create_answer_key qs) now' (store_quiz id t d qs now s)
      = (Ok r, s') ∧
    maxScore r = totalPoints qs ∧
    score r = totalPoints qs ∧
    (totalPoints qs ≠ 0 → jeq (percentage r) (Fin 100)).
Proof.
  intros Hnd Hproto.
  assert (Hq : quizzes (store_quiz id t d qs now s) !! id
               = Some {| quiz_id := id; quiz_topic := t;
                         quiz_difficulty := d; questions := qs;
                         createdAt := now |})
    by apply lookup_insert_eq.
  assert (Hsc : compute_score (create_answer_key qs) qs
                = Some (totalPoints qs)).
  { rewrite compute_score_sum, totalPoints_sum.
    - f_equal. by apply sum_points_filter_all, answer_key_matches.
    - by apply matches_not_inherited, answer_key_matches. }
  destruct (submitQuiz_found _ _ _ (create_answer_key qs) now' _ Hq Hsc)
    as (r & s' & E & _ & Hs & Hm & Hp & _).
  cbn [questions] in Hm.
  assert (Hm' : maxScore r = totalPoints qs).
  { by rewrite Hm, compute_maxScore_sum, totalPoints_sum. }
  exists r, s'. split; [exact E|]. split; [exact Hm'|].
  split; [exact Hs|]. intros Hne. rewrite Hp, Hs, Hm'.
  by apply compute_percentage_full.
Qed.

Lemma stored_quiz_answer_key_witness :
  ∃ r s',
    submitQuiz "quiz_9"
      (create_answer_key (getFallbackQuestions "Calculus" 4 ["limits"])) 8
      (store_quiz "quiz_9" "Calculus" beginner
         (getFallbackQuestions "Calculus" 4 ["limits"]) 7 createDefaultState)
      = (Ok r, s') ∧
    score r = 40 ∧ jeq (percentage r) (Fin 100).
Proof.
  destruct (stored_quiz_answer_key createDefaultState "quiz_9" "Calculus"
              beginner (getFallbackQuestions "Calculus" 4 ["limits"]) 7 8)
    as (r & s' & E & _ & Hs & Hp).
  - apply (bool_decide_unpack _). by vm_compute.
  - apply (bool_decide_unpack _). by vm_compute.
  - exists r, s'. split; [exact E|]. split.
    + rewrite Hs. by vm_compute.
    + apply Hp. by vm_compute.
Defined.

End AnswerKey.

(** ** Invariants of the topic entries *)

Section TopicInvariants.
Import StudyState Spec Store Examples.

Lemma fmap_topic_alter (f : TopicProgress → TopicProgress) (i : nat)
    (ts : list TopicProgress) :
  (∀ x, topic (f x) = topic x) →
  topic <$> alter f i ts = topic <$> ts.
Proof.
  intros Hf. revert i. induction ts as [|x ts IH]; intros [|i]; cbn;
    [done | done | by rewrite Hf | by rewrite IH].
Qed.

Lemma find_topic_None_notin t ts :
  find_entry t ts = None → t ∉ topic <$> ts.
Proof.
  unfold find_entry. intros H. apply list_find_None in H.
  intros Hin. apply list_elem_of_fmap in Hin as (x & -> & Hx).
  rewrite Forall_forall in H. by apply (H x).
Qed.

Lemma updateTopicProgress_topics t d now ts :
  NoDup (topic <$> ts) →
  NoDup (topic <$> updateTopicProgress t d now ts).
Proof.
  intros Hnd. unfold updateTopicProgress.
  destruct (find_entry t ts) as [[i tp]|] eqn:E.
  - by rewrite fmap_topic_alter.
  - rewrite fmap_app. apply NoDup_app. split; [done|]. split.
    + intros x Hx Hin. cbn in Hin. apply list_elem_of_singleton in Hin.
      subst x. by apply (find_topic_None_notin t ts).
    + cbn. apply NoDup_singleton.
Qed.

Lemma step_topics_unique `{L : Lowercase} s o :
  NoDup (topic <$> topicsStudied (progress s)) →
  NoDup (topic <$> topicsStudied (progress (step o s))).
Proof.
  intros H.
  destruct o as [session|sessionId now|quiz|id answers now|sid' u a now];
    try assumption.
  - cbn [step]. unfold completeSession.
    destruct (js_get (sessions s) sessionId); [| |done];
      cbn [snd progress set_progress topicsStudied add_duration];
      by apply updateTopicProgress_topics.
  - cbn [step].
    destruct (submitQuiz_topics s id answers now)
      as [->|(t & i & tp & avg & _ & ->)]; [done|].
    by rewrite fmap_topic_alter.
  - cbn [step].
    destruct (saveChatMessage_keeps s sid' u a now) as (_ & _ & _ & ->).
    done.
Qed.

(** X13: in every state the handlers can leave, whatever was saved and
    submitted, [topicsStudied] holds at most one entry per topic (and at
    most one entry without a topic); the entry [find] returns for a topic
    is thus the only one. *)
Theorem topicsStudied_unique `{L : Lowercase} (s : UserState) :
  reachable s → NoDup (topic <$> getTopicProgress s).
Proof.
  unfold getTopicProgress.
  induction 1 as [|s o _ IH]; [constructor|]. by apply step_topics_unique.
Qed.

Lemma topicsStudied_unique_witness :
  let s := run (three_sessions ++ three_completions
                ++ [SaveQuiz no_question; SubmitQuiz "quiz_3" ∅ 3;
                    CompleteSession "valueOf" 9;
                    CompleteSession "toString" 9])
             createDefaultState in
  topic <$> getTopicProgress s = [Some "Physics"; Some "Algebra"; None] ∧
  NoDup (topic <$> getTopicProgress s).
Proof.
  cbv zeta. split; [by vm_compute|].
  apply topicsStudied_unique.
  apply run_reachable. constructor.
Defined.

End TopicInvariants.

(** ** What sessions alone guarantee, and what a bad result spoils *)

Section Floors.
Import StudyState Spec Store Examples.

Lemma mastery_floor n a :
  in_0_100 a →
  jle (jmin (jsZ 100) (jsZ (n * 10))) (mastery n a) ∧
  (10 ≤ n → jeq (mastery n a) (Fin 100)).
Proof.
  intros (q & -> & Hq). rewrite mastery_Fin. unfold jsZ. cbn [jmin].
  pose proof (inject_Z_times_10 n) as E.
  assert (H100 : inject_Z 100 = 100%Q) by reflexivity.
  split.
  - destruct (Qle_bool (inject_Z 100) (inject_Z (n * 10))) eqn:H1;
      destruct (Qle_bool 100 (inject_Z (n * 10) + q * (1 # 2))) eqn:H2;
      try apply Qle_bool_iff in H1; try apply Qle_bool_iff in H2;
      try (apply not_true_iff_false in H1; rewrite Qle_bool_iff in H1);
      try (apply not_true_iff_false in H2; rewrite Qle_bool_iff in H2);
      rewrite ?H100 in *; cbn [jle]; lra.
  - intros Hn.
    assert (Hn' : (10 <= inject_Z n)%Q).
    { change 10%Q with (inject_Z 10). by rewrite <- Zle_Qle. }
    destruct (Qle_bool 100 (inject_Z (n * 10) + q * (1 # 2))) eqn:H2.
    + cbn. lra.
    + apply not_true_iff_false in H2. rewrite Qle_bool_iff in H2.
      exfalso. apply H2. lra.
Qed.

Lemma updateTopicProgress_counts_positive t d now ts :
  Forall (λ tp, 1 ≤ sessionsCount tp) ts →
  Forall (λ tp, 1 ≤ sessionsCount tp) (updateTopicProgress t d now ts).
Proof.
  intros H. unfold updateTopicProgress.
  destruct (find_entry _ _) as [[i tp]|].
  - apply Forall_alter; [done|]. intros x _ Hx. cbn. lia.
  - apply Forall_app. split; [done|]. by repeat constructor.
Qed.

Lemma step_counts_positive `{L : Lowercase} s o :
  Forall (λ tp, 1 ≤ sessionsCount tp) (topicsStudied (progress s)) →
  Forall (λ tp, 1 ≤ sessionsCount tp) (topicsStudied (progress (step o s))).
Proof.
  intros H.
  destruct o as [session|sessionId now|quiz|id answers now|sid' u a now];
    try assumption.
  - cbn [step]. unfold completeSession.
    destruct (js_get (sessions s) sessionId); [| |done];
      cbn [snd progress set_progress topicsStudied add_duration];
      by apply updateTopicProgress_counts_positive.
  - cbn [step].
    destruct (submitQuiz_topics s id answers now)
      as [->|(t & i & tp & avg & _ & ->)]; [done|].
    apply Forall_alter; [done|]. by intros x _ Hx.
  - cbn [step].
    destruct (saveChatMessage_keeps s sid' u a now) as (_ & _ & _ & ->).
    done.
Qed.

Lemma reachable_counts_positive `{L : Lowercase} s :
  reachable s →
  Forall (λ tp, 1 ≤ sessionsCount tp) (topicsStudied (progress s)).
Proof.
  induction 1 as [|s o _ IH]; [constructor|].
  by apply step_counts_positive.
Qed.

(** X15: in every state a user can reach (the quizzes saved having at
    least one question and positive points), a topic has an entry only
    once a session on it was completed, and the mastery level of the entry
    is never below [min(100, sessionsCount * 10)], whatever the quiz
    results; from ten completed sessions on, it is 100. *)
Theorem mastery_at_least_sessions `{L : Lowercase} (s : UserState)
    (tp : TopicProgress) :
  reachable_gradable s →
  tp ∈ getTopicProgress s →
  1 ≤ sessionsCount tp ∧
  jle (jmin (jsZ 100) (jsZ (sessionsCount tp * 10))) (masteryLevel tp) ∧
  (10 ≤ sessionsCount tp → jeq (masteryLevel tp) (Fin 100)).
Proof.
  intros Hs Htp. unfold getTopicProgress in Htp.
  pose proof (reachable_counts_positive s
                (reachable_gradable_reachable s Hs)) as Hpos.
  rewrite Forall_forall in Hpos. split; [by apply Hpos|].
  destruct (reachable_state_ok s Hs) as (_ & _ & Hok).
  rewrite Forall_forall in Hok.
  destruct (Hok tp Htp) as (_ & Ha & ->). by apply mastery_floor.
Qed.

Lemma mastery_at_least_sessions_witness :
  ∃ tp, tp ∈ getTopicProgress
               (step wrong_answer (run session_then_quiz createDefaultState)) ∧
        sessionsCount tp = 1 ∧ jle (Fin 10) (masteryLevel tp).
Proof.
  assert (Hgen : ∀ s tp, reachable_gradable s → tp ∈ getTopicProgress s →
            sessionsCount tp = 1 →
            sessionsCount tp = 1 ∧ jle (Fin 10) (masteryLevel tp)).
  { intros s tp Hs Htp E. split; [exact E|].
    destruct (mastery_at_least_sessions s tp Hs Htp) as (_ & H & _).
    rewrite E in H. by destruct (masteryLevel tp). }
  eexists. split; [vm_compute; apply list_elem_of_here|].
  apply (Hgen (step wrong_answer
                 (run session_then_quiz createDefaultState)));
    [| vm_compute; apply list_elem_of_here | reflexivity].
  constructor; [|exact I]. apply run_reachable_gradable; [constructor|].
  repeat constructor; discriminate.
Defined.

Lemma step_NaN_sticks `{L : Lowercase} s o :
  has_NaN_result s ∧ averageScore (progress s) = NaN →
  has_NaN_result (step o s) ∧ averageScore (progress (step o s)) = NaN.
Proof.
  intros [(r0 & Hin & Hr0) Ha].
  destruct o as [session|sessionId now|quiz|id answers now|sid' u a now].
  - split; [by exists r0 | done].
  - cbn [step]. unfold completeSession.
    destruct (js_get (sessions s) sessionId);
      (split; [by exists r0 | done]).
  - split; [by exists r0 | done].
  - cbn [step]. destruct (submitQuiz_cases s id answers now)
      as [[_ ->]|(quiz & sc & Hq & Hsc)]; [split; [by exists r0 | done]|].
    destruct (submitQuiz_found s id quiz answers now sc Hq Hsc)
      as (r & s' & E & _ & _ & _ & _ & _ & _ & Hr & _ & _ & Hav & _).
    rewrite E. cbn [snd].
    assert (Hin' : r0 ∈ quizResults s').
    { rewrite Hr. apply elem_of_app. by left. }
    split; [by exists r0|]. rewrite Hav. apply jmean_NaN_in.
    apply list_elem_of_fmap. by exists r0.
  - cbn [step].
    destruct (saveChatMessage_keeps s sid' u a now) as (_ & _ & E1 & E2).
    split; [exists r0; by rewrite E1 | by rewrite E2].
Qed.

(** X16: a percentage that is not a number is never repaired: once a
    stored result has one and [averageScore] is not a number, both stay so
    after any further sequence of operations: every later [submitQuiz]
    computes the mean over all stored results again and gets [NaN]. *)
Theorem NaN_average_sticks `{L : Lowercase} (s : UserState)
    (ops : list Op) :
  has_NaN_result s →
  averageScore (progress s) = NaN →
  has_NaN_result (run ops s) ∧ averageScore (progress (run ops s)) = NaN.
Proof.
  intros H1 H2. assert (H : has_NaN_result s ∧ averageScore (progress s) = NaN)
    by done. clear H1 H2.
  revert s H. induction ops as [|o ops IH]; intros s H; [done|].
  cbn. apply IH. by apply step_NaN_sticks.
Qed.

Lemma NaN_average_sticks_witness :
  averageScore
    (progress
       (run [SaveQuiz one_question; SubmitQuiz "quiz_2" {[ "q1" := "a" ]} 3]
          (run [SaveQuiz no_question; SubmitQuiz "quiz_3" ∅ 2]
             createDefaultState))) = NaN.
Proof.
  apply (NaN_average_sticks
           (run [SaveQuiz no_question; SubmitQuiz "quiz_3" ∅ 2]
              createDefaultState)).
  - eexists. split; [vm_compute; apply list_elem_of_here | reflexivity].
  - by vm_compute.
Defined.

Lemma step_recentActivity_bound `{L : Lowercase} s o :
  is_submit o = false →
  (length (recentActivity (progress s)) ≤ 50)%nat →
  (length (recentActivity (progress (step o s))) ≤ 50)%nat.
Proof.
  intros Ho H.
  destruct o as [session|sessionId now|quiz|id answers now|sid' u a now];
    try assumption; try discriminate.
  - cbn. apply slice0_50_length.
  - cbn [step]. unfold completeSession.
    by destruct (js_get (sessions s) sessionId).
  - cbn [step].
    destruct (saveChatMessage_keeps s sid' u a now) as (_ & _ & _ & ->).
    done.
Qed.

(** X17: as long as no quiz is submitted the bound on [recentActivity]
    holds: from a state with at most 50 activities, any sequence of
    operations other than [submitQuiz] leaves at most 50; and a
    [createSession] brings the list back to at most 50 from any state. *)
Theorem recentActivity_bound_without_submit `{L : Lowercase}
    (s : UserState) (ops : list Op) (session : StudySession) :
  (length (recentActivity (progress s)) ≤ 50)%nat →
  Forall (λ o, is_submit o = false) ops →
  (length (recentActivity (progress (run ops s))) ≤ 50)%nat ∧
  (∀ s0, length (recentActivity (progress (createSession session s0)))
         ≤ 50)%nat.
Proof.
  intros Hs Hops. split.
  - revert s Hs. induction Hops as [|o ops Ho _ IH]; intros s Hs; [done|].
    cbn. apply IH. by apply step_recentActivity_bound.
  - intros s0. cbn. apply slice0_50_length.
Qed.

Lemma recentActivity_bound_without_submit_witness :
  (length (recentActivity
             (progress
                (run [CreateSession (physics_session 50)]
                   (run fifty_sessions createDefaultState)))) ≤ 50)%nat.
Proof.
  apply (recentActivity_bound_without_submit
           (run fifty_sessions createDefaultState)
           [CreateSession (physics_session 50)] (physics_session 0)).
  - by vm_compute.
  - by repeat constructor.
Defined.

End Floors.

(** ** The study-session workflow *)

Section SessionWorkflow.
Import StudyState Spec Store Examples StudySessionWorkflow.

(** X18: step [generate-learning-path] classifies a topic never studied
    as ["introduction"], a studied topic below level 50 as
    ["reinforcement"] and any other as ["advanced"]; the approach is always
    one of these three, so [getFocusAreas] never takes its default branch:
    the path always carries four focus areas, the first one naming the
    topic, and the suggested duration is the requested one. *)
Theorem learning_path_cases (prev : PreviousProgress) (t : string)
    (duration : Z) :
  let path := generate_learning_path prev t duration in
  (prev_sessionsCount prev = 0 → lp_approach path = "introduction") ∧
  (prev_sessionsCount prev ≠ 0 → (prev_masteryLevel prev < 50)%Q →
   lp_approach path = "reinforcement") ∧
  (prev_sessionsCount prev ≠ 0 → (50 <= prev_masteryLevel prev)%Q →
   lp_approach path = "advanced") ∧
  lp_approach path ∈ ["introduction"; "reinforcement"; "advanced"] ∧
  length (focusAreas path) = 4%nat ∧
  focusAreas path ≠ ["Understanding " +:+ t; "Key concepts"; "Examples"] ∧
  suggestedDuration path = duration.
Proof.
  cbv zeta. unfold generate_learning_path, approach.
  cbn [lp_approach focusAreas suggestedDuration].
  destruct (prev_sessionsCount prev =? 0) eqn:E0;
    [apply Z.eqb_eq in E0 | apply Z.eqb_neq in E0];
    (destruct (Qle_bool 50 (prev_masteryLevel prev)) eqn:E50;
      [apply Qle_bool_iff in E50
      | apply not_true_iff_false in E50; rewrite Qle_bool_iff in E50]);
    cbn; repeat split; try done; try lra;
    repeat first [apply list_elem_of_here | apply list_elem_of_further].
Qed.

Lemma schedule_interval_cases t m now :
  let r := schedule_repetition t m now in
  (intervalDays r = 7 ∧ (80 <= newLevel m)%Q) ∨
  (intervalDays r = 3 ∧ (60 <= newLevel m)%Q ∧ (newLevel m < 80)%Q) ∨
  (intervalDays r = 2 ∧ (40 <= newLevel m)%Q ∧ (newLevel m < 60)%Q) ∨
  (intervalDays r = 1 ∧ (newLevel m < 40)%Q).
Proof.
  cbv zeta. unfold schedule_repetition. cbn [intervalDays].
  destruct (Qle_bool 80 (newLevel m)) eqn:E80;
    [apply Qle_bool_iff in E80; by left|].
  apply not_true_iff_false in E80. rewrite Qle_bool_iff in E80.
  destruct (Qle_bool 60 (newLevel m)) eqn:E60;
    [apply Qle_bool_iff in E60; right; left; repeat split; [done|lra]|].
  apply not_true_iff_false in E60. rewrite Qle_bool_iff in E60.
  destruct (Qle_bool 40 (newLevel m)) eqn:E40;
    [apply Qle_bool_iff in E40; right; right; left;
     repeat split; [done|lra]|].
  apply not_true_iff_false in E40. rewrite Qle_bool_iff in E40.
  right; right; right. split; [done|lra].
Qed.

(** X19: the review interval grows with the mastery level: a higher new
    level never gets a shorter interval; the interval is 1, 2, 3 or 7
    days, and the next review lies between one and seven days after
    [now]. *)
Theorem schedule_repetition_monotone (t : string) (m1 m2 : MasteryUpdate)
    (now : Z) :
  (newLevel m1 <= newLevel m2)%Q →
  intervalDays (schedule_repetition t m1 now)
    ≤ intervalDays (schedule_repetition t m2 now) ∧
  intervalDays (schedule_repetition t m1 now) ∈ [1; 2; 3; 7] ∧
  now + 86400000 ≤ rs_nextReview (schedule_repetition t m1 now)
    ≤ now + 604800000.
Proof.
  intros Hle.
  assert (Hr : rs_nextReview (schedule_repetition t m1 now)
               = now + intervalDays (schedule_repetition t m1 now) * 86400000).
  { unfold schedule_repetition. cbn. lia. }
  rewrite Hr.
  destruct (schedule_interval_cases t m1 now)
    as [[-> H1]|[[-> H1]|[[-> H1]|[-> H1]]]];
  destruct (schedule_interval_cases t m2 now)
    as [[-> H2]|[[-> H2]|[[-> H2]|[-> H2]]]];
  (split; [first [lia | exfalso; lra]
          | split; [repeat first [apply list_elem_of_here
                                 | apply list_elem_of_further] | lia]]).
Qed.

Lemma schedule_repetition_monotone_witness :
  intervalDays
    (schedule_repetition "Physics"
       (update_mastery (load_progress "Physics" []) 30) 0)
  ≤ intervalDays
      (schedule_repetition "Physics"
         (update_mastery
            {| prev_masteryLevel := 70; prev_timeSpent := 0;
               prev_sessionsCount := 3 |} 30) 0).
Proof.
  apply (schedule_repetition_monotone "Physics"
           (update_mastery (load_progress "Physics" []) 30)
           (update_mastery
              {| prev_masteryLevel := 70; prev_timeSpent := 0;
                 prev_sessionsCount := 3 |} 30) 0).
  by vm_compute.
Defined.

(** X20: for a previous level in [0,100] and a duration that is not
    negative, step [update-mastery] never lowers the level and never
    exceeds 100, and the increase it reports is never negative; a level of
    95 or more becomes 100; from 100 minutes on the time bonus is 10, so
    the new level is [min(100, previousLevel + 5 + 10)]. *)
Theorem update_mastery_bounds (prev : PreviousProgress) (d : Z) :
  (0 <= prev_masteryLevel prev <= 100)%Q →
  0 ≤ d →
  let m := update_mastery prev d in
  (previousLevel m <= newLevel m <= 100)%Q ∧
  (0 <= increase m)%Q ∧
  ((95 <= prev_masteryLevel prev)%Q → (newLevel m == 100)%Q) ∧
  (100 ≤ d →
   (newLevel m == Qmin 100 (prev_masteryLevel prev + 5 + 10))%Q).
Proof.
  intros Hp Hd. cbv zeta. unfold update_mastery.
  cbn [previousLevel newLevel increase].
  assert (Hb : 0 ≤ Z.min 10 (d / 10) ≤ 10).
  { split; [apply Z.min_glb; [lia | apply Z.div_pos; lia] | lia]. }
  assert (Hb0 : (0 <= inject_Z (Z.min 10 (d / 10)))%Q).
  { change 0%Q with (inject_Z 0). rewrite <- Zle_Qle. lia. }
  assert (Hb10 : (inject_Z (Z.min 10 (d / 10)) <= 10)%Q).
  { change 10%Q with (inject_Z 10). rewrite <- Zle_Qle. lia. }
  assert (Hlong : 100 ≤ d → inject_Z (Z.min 10 (d / 10)) = 10%Q).
  { intros H100. rewrite Z.min_l; [done|].
    apply Z.div_le_lower_bound; lia. }
  change (inject_Z 5) with 5%Q.
  set (b := inject_Z (Z.min 10 (d / 10))) in *.
  split; [|split; [|split]].
  - destruct (Q.min_spec 100 (prev_masteryLevel prev + 5 + b))
      as [[? ->]|[? ->]]; lra.
  - destruct (Q.min_spec 100 (prev_masteryLevel prev + 5 + b))
      as [[? ->]|[? ->]]; lra.
  - intros H95. destruct (Q.min_spec 100 (prev_masteryLevel prev + 5 + b))
      as [[? ->]|[? ->]]; lra.
  - intros H100. by rewrite (Hlong H100).
Qed.

Lemma update_mastery_bounds_witness :
  let m := update_mastery
             {| prev_masteryLevel := 92; prev_timeSpent := 0;
                prev_sessionsCount := 9 |} 120 in
  (92 <= newLevel m <= 100)%Q ∧ (newLevel m == 100)%Q.
Proof.
  cbv zeta.
  destruct (update_mastery_bounds
              {| prev_masteryLevel := 92; prev_timeSpent := 0;
                 prev_sessionsCount := 9 |} 120) as (H & _ & _ & H100).
  - cbn. lra.
  - lia.
  - split; [exact H|]. rewrite H100 by lia. by vm_compute.
Defined.

Lemma load_progress_found t ts i tp :
  find_topic t ts = Some (i, tp) →
  load_progress t ts
  = {| prev_masteryLevel := json_number_or_0 (masteryLevel tp);
       prev_timeSpent := json_number_or_0 (timeSpent tp);
       prev_sessionsCount := sessionsCount tp |}.
Proof. unfold load_progress, find_topic, find_entry. by intros ->. Qed.

Lemma load_progress_absent t ts :
  find_topic t ts = None →
  load_progress t ts
  = {| prev_masteryLevel := 0; prev_timeSpent := 0;
       prev_sessionsCount := 0 |}.
Proof. unfold load_progress, find_topic, find_entry. by intros ->. Qed.

(** X21: what step [load-progress] reads from a reachable state (the
    quizzes saved having at least one question and positive points): the
    level it reads is the mastery level of the topic, a number in
    [0,100], so the mastery update applies to it; the count it reads is
    the number of sessions recorded; and the approach is ["introduction"]
    exactly when the topic has no entry. *)
Theorem load_progress_reachable `{L : Lowercase} (s : UserState)
    (t : string) :
  reachable_gradable s →
  let prev := load_progress t (getTopicProgress s) in
  (0 <= prev_masteryLevel prev <= 100)%Q ∧
  jeq (mastery_of t s) (Fin (prev_masteryLevel prev)) ∧
  prev_sessionsCount prev = sessionsCount_of t s ∧
  (approach prev = "introduction" ↔
   find_topic t (topicsStudied (progress s)) = None).
Proof.
  intros Hs. cbv zeta. unfold getTopicProgress.
  pose proof (mastery_of_range t s (reachable_state_ok s Hs))
    as (q & Hq & Hrange).
  unfold mastery_of, sessionsCount_of in *.
  destruct (find_topic t (topicsStudied (progress s))) as [[i tp]|] eqn:E.
  - rewrite (load_progress_found _ _ _ _ E). cbn. rewrite Hq. cbn.
    split; [done|]. split; [reflexivity|]. split; [done|].
    pose proof (reachable_counts_positive s
                  (reachable_gradable_reachable s Hs)) as Hpos.
    rewrite Forall_forall in Hpos.
    apply find_topic_Some_topic in E as [_ E].
    assert (H1 : 1 ≤ sessionsCount tp).
    { apply Hpos. by eapply list_elem_of_lookup_2. }
    unfold approach. cbn.
    destruct (sessionsCount tp =? 0) eqn:E0;
      [apply Z.eqb_eq in E0; lia|].
    split; [|done]. by destruct (negb _).
  - rewrite (load_progress_absent _ _ E). cbn.
    split; [lra|]. split; [reflexivity|]. done.
Qed.

Lemma load_progress_reachable_witness :
  approach
    (load_progress "Physics"
       (getTopicProgress (run session_then_quiz createDefaultState)))
  = "advanced" ∧
  approach
    (load_progress "Algebra"
       (getTopicProgress (run session_then_quiz createDefaultState)))
  = "introduction".
Proof.
  destruct (load_progress_reachable
              (run session_then_quiz createDefaultState) "Algebra")
    as (_ & _ & _ & H).
  - apply run_reachable_gradable; [constructor|].
    repeat constructor; discriminate.
  - split; [by vm_compute|]. apply H. by vm_compute.
Defined.

End SessionWorkflow.

(** ** Extraction of the text between braces *)

Section Braces.
Import Spec QuizGenerationWorkflow.

Lemma occurs_app c a b : occurs c (a +:+ b) ↔ occurs c a ∨ occurs c b.
Proof.
  induction a as [|x a IH]; simpl; [tauto|]. rewrite IH. tauto.
Qed.

Lemma upto_last_close_None r :
  upto_last_close r = None ↔ ¬ occurs "}" r.
Proof.
  induction r as [|c r IH]; cbn; [tauto|].
  destruct (upto_last_close r) as [m|].
  - split; [done|]. intros H.
    assert (Hn : ¬ occurs "}" r) by tauto. by apply IH in Hn.
  - destruct (Ascii.eqb_spec c "}") as [->|Hne].
    + split; [done|]. intros H. exfalso. apply H. by left.
    + split; [|done]. intros _ [?|?]; [done|]. by apply (proj1 IH).
Qed.

Lemma upto_last_close_Some r m :
  upto_last_close r = Some m →
  ∃ body post, m = body +:+ "}" ∧ r = m +:+ post ∧ ¬ occurs "}" post.
Proof.
  revert m. induction r as [|c r IH]; intros m; cbn; [done|].
  destruct (upto_last_close r) as [m'|] eqn:E.
  - intros [= <-]. destruct (IH m' eq_refl) as (body & post & -> & Hr & Hp).
    exists (String c body), post. cbn. by rewrite Hr at 1.
  - destruct (Ascii.eqb_spec c "}") as [->|Hne]; [|done].
    intros [= <-]. exists EmptyString, r. cbn.
    split; [done|]. split; [done|]. by apply upto_last_close_None.
Qed.

(** X22: when the extraction finds a text, the answer of the model is
    some prefix without opening brace, then the text found, then some rest
    without closing brace; the text found starts at the first opening
    brace of the answer and ends at its last closing brace. *)
Theorem match_braces_Some (content m : string) :
  match_braces content = Some m →
  ∃ pre body post,
    content = pre +:+ m +:+ post ∧
    m = "{" +:+ body +:+ "}" ∧
    ¬ occurs "{" pre ∧ ¬ occurs "}" post.
Proof.
  revert m. induction content as [|c r IH]; intros m; simpl; [done|].
  destruct (Ascii.eqb_spec c "{") as [->|Hne].
  - destruct (upto_last_close r) as [m'|] eqn:E; [|done].
    intros [= <-].
    destruct (upto_last_close_Some r m' E) as (body & post & -> & Hr & Hp).
    exists EmptyString, body, post. simpl.
    split; [by rewrite Hr at 1|]. split; [done|]. split; [tauto|done].
  - intros Hm. destruct (IH m Hm) as (pre & body & post & -> & -> & H1 & H2).
    exists (String c pre), body, post. simpl.
    split; [done|]. split; [done|]. split; [|done].
    intros [?|?]; [done|]. by apply H1.
Qed.

Lemma match_braces_Some_witness :
  match_braces "Here you go: {a}{b} enjoy" = Some "{a}{b}" ∧
  ∃ pre body post,
    "Here you go: {a}{b} enjoy" = pre +:+ "{a}{b}" +:+ post ∧
    "{a}{b}" = "{" +:+ body +:+ "}" ∧
    ¬ occurs "{" pre ∧ ¬ occurs "}" post.
Proof.
  split; [reflexivity|].
  apply (match_braces_Some "Here you go: {a}{b} enjoy" "{a}{b}").
  reflexivity.
Defined.

(** X23: the extraction fails exactly when no closing brace comes after
    an opening brace in the answer of the model; in particular on an empty
    answer, and on an answer whose braces are all in the wrong order. *)
Theorem match_braces_None (content : string) :
  match_braces content = None ↔
  ∀ pre rest, content = pre +:+ String "{" rest → ¬ occurs "}" rest.
Proof.
  induction content as [|c r IH]; simpl.
  - split; [|done]. intros _ [|? ?] rest; simpl; discriminate.
  - destruct (Ascii.eqb_spec c "{") as [->|Hne].
    + destruct (upto_last_close r) as [m'|] eqn:E.
      * split; [done|]. intros H. exfalso.
        apply (H EmptyString r eq_refl).
        destruct (upto_last_close_Some r m' E) as (body & post & -> & -> & _).
        rewrite !occurs_app. left. right. simpl. by left.
      * split; [|done]. intros _ [|x pre] rest; simpl.
        -- intros [= ->]. by apply upto_last_close_None.
        -- intros [= _ ->]. apply upto_last_close_None in E.
           intros Hocc. apply E. rewrite occurs_app. right. simpl. by right.
    + rewrite IH. split.
      * intros H [|x pre] rest; simpl; [by intros [= ? _]|].
        intros [= _ ->]. by apply (H pre).
      * intros H pre rest ->. by apply (H (String c pre) rest).
Qed.

End Braces.

(** ** What the validation step returns *)

Section Validated.
Import StudyState Spec Store QuizGenerationWorkflow.

Lemma str_or_nonempty x d : d ≠ EmptyString → str_or x d ≠ EmptyString.
Proof.
  intros Hd. unfold str_or. destruct x as [v|]; [|done].
  destruct (String.eqb_spec v EmptyString); done.
Qed.

Lemma num_or_nonzero x d : d ≠ 0 → num_or x d ≠ 0.
Proof.
  intros Hd. unfold num_or. destruct x as [n|]; [|done].
  destruct (Z.eqb_spec n 0); done.
Qed.

Lemma validatedQ_ok q n : complete q → question_ok (validatedQ q n).
Proof.
  intros ((vq & Eq & Hq) & (va & Ea & Ha) & (ve & Ee & He)).
  unfold question_ok, validatedQ. cbn. rewrite Eq, Ea, Ee. cbn.
  repeat split; try done.
  - by apply str_or_nonempty.
  - by apply str_or_nonempty.
  - by apply num_or_nonzero.
Qed.

Lemma slice0_sublist {A} (n : Z) (l : list A) : slice0 n l `prefix_of` l.
Proof. unfold slice0. destruct (n <? 0); apply prefix_take. Qed.

Lemma validate_loop_all_ok cands :
  Forall question_ok (validate_loop cands []).
Proof.
  rewrite validate_loop_spec. cbn [app]. apply Forall_forall.
  intros v Hv. apply list_elem_of_lookup in Hv as [n Hn].
  rewrite list_lookup_imap in Hn.
  destruct (filter complete cands !! n) as [q|] eqn:Hq; [|done].
  injection Hn as <-. apply validatedQ_ok.
  apply list_elem_of_lookup_2 in Hq.
  by apply list_elem_of_filter in Hq as [? _].
Qed.

Lemma validate_questions_all_ok cands questionCount :
  Forall question_ok (validate_questions cands questionCount).
Proof.
  unfold validate_questions.
  destruct (slice0_sublist questionCount (validate_loop cands []))
    as [k Hk].
  pose proof (validate_loop_all_ok cands) as Hall.
  rewrite Hk in Hall. by apply Forall_app in Hall as [? _].
Qed.

(** X24: whatever the candidates and the count, every question step
    [validate-questions] returns has an id, a question text, a type, a
    correct answer and an explanation that are not empty, and points that
    are not 0; and the step returns at most as many questions as there are
    candidates. *)
Theorem validate_questions_ok (cands : list Candidate) (questionCount : Z) :
  Forall question_ok (validate_questions cands questionCount) ∧
  (length (validate_questions cands questionCount) ≤ length cands)%nat.
Proof.
  split; [apply validate_questions_all_ok|].
  unfold validate_questions.
  pose proof (slice0_sublist questionCount (validate_loop cands [])) as Hp.
  - apply prefix_length in Hp. etrans; [exact Hp|].
    rewrite validate_loop_spec. cbn [app].
    rewrite length_imap. apply length_filter.
Qed.

Lemma as_candidate_ok v n :
  question_ok v →
  missing_required (as_candidate v) = false ∧
  validatedQ (as_candidate v) n = v.
Proof.
  intros (Hid & Hq & Hty & Ha & He & Hp). split.
  - apply missing_required_complete. unfold complete. cbn.
    repeat split; eexists; eauto.
  - unfold validatedQ, as_candidate.
    cbn [c_id c_question c_type c_options c_correctAnswer c_explanation
         c_points default].
    rewrite !str_or_Some, num_or_Some by done. by destruct v.
Qed.

Lemma validate_loop_as_candidate l validated :
  Forall question_ok l →
  validate_loop (as_candidate <$> l) validated = validated ++ l.
Proof.
  intros Hall. revert validated.
  induction Hall as [|v l Hv _ IH]; intros validated.
  - cbn. by rewrite app_nil_r.
  - cbn [fmap list_fmap validate_loop].
    change (list_fmap ?f ?l) with (f <$> l).
    destruct (as_candidate_ok v (length validated) Hv) as [-> ->].
    by rewrite IH, <- app_assoc.
Qed.

(** X25: validating twice changes nothing: the questions step
    [validate-questions] returns, read again as candidates and validated
    with the same count, come back as they are, ids included. *)
Theorem validate_questions_idempotent (cands : list Candidate)
    (questionCount : Z) :
  0 ≤ questionCount →
  validate_questions
    (as_candidate <$> validate_questions cands questionCount) questionCount
  = validate_questions cands questionCount.
Proof.
  intros Hc.
  pose proof (validate_questions_all_ok cands questionCount) as Hok.
  unfold validate_questions at 1.
  rewrite validate_loop_as_candidate by done. cbn [app].
  rewrite slice0_take by done. apply take_ge.
  unfold validate_questions. rewrite slice0_take by done.
  rewrite length_take. lia.
Qed.

Lemma validate_questions_idempotent_witness :
  validate_questions
    (as_candidate <$>
       validate_questions
         [ {| c_id := None; c_question := Some "Why?"; c_type := None;
              c_options := None; c_correctAnswer := Some "Because";
              c_explanation := Some "E"; c_points := None |} ] 3) 3
  = [ {| q_id := "q1"; question := "Why?"; q_type := "short-answer";
         options := None; correctAnswer := "Because"; explanation := "E";
         points := 10 |} ].
Proof.
  rewrite validate_questions_idempotent; [reflexivity | lia].
Defined.

End Validated.

(** ** Fallback questions of the workflow and of the service *)

Section Fallbacks.
Import StudyState Spec Store QuizGenerationWorkflow.

Lemma synthetic_id_inj : Inj (=) (=) (λ i : nat, "q" +:+ pretty (i + 1)%nat).
Proof.
  intros i j H. simpl in H. injection H as H.
  apply pretty_nat_inj in H. lia.
Qed.

Lemma AIService_getFallbackQuestions_map t count :
  AIService.getFallbackQuestions t count
  = AIService.fallback_question t <$> seq 0 (Z.to_nat (Z.min count 3)).
Proof. unfold AIService.getFallbackQuestions. by rewrite push_loop_map. Qed.

(** X26: the fallback questions of the workflow are at most five, none
    when the count is not positive; their ids [q1], [q2], ... are pairwise
    different, and each has every field the validation step asks for. *)
Theorem getFallbackQuestions_shape (t : string) (count : Z)
    (concepts : list string) :
  let qs := getFallbackQuestions t count concepts in
  (length qs ≤ 5)%nat ∧
  (count ≤ 0 → qs = []) ∧
  q_id <$> qs
    = (λ i : nat, "q" +:+ pretty (i + 1)%nat) <$> seq 0 (length qs) ∧
  NoDup (q_id <$> qs) ∧
  Forall question_ok qs.
Proof.
  cbv zeta. rewrite getFallbackQuestions_map.
  rewrite length_fmap, length_seq. split; [lia|]. split.
  - intros Hc. by replace (Z.to_nat (Z.min count 5)) with 0%nat by lia.
  - split; [by rewrite <- list_fmap_compose|]. split.
    + rewrite <- list_fmap_compose.
      apply (@NoDup_fmap_2 _ _ _ synthetic_id_inj), NoDup_seq.
    + apply Forall_fmap, Forall_forall. intros i _.
      unfold question_ok. cbn. repeat split; done.
Qed.

(** X27: the key concepts step [identify-concepts] hands over are never
    empty texts: empty pieces of the answer of the model are dropped, in
    their order the others are kept, and when the call to the model fails
    there are exactly three concepts, each naming the topic. *)
Theorem identify_concepts_shape (t : string) (pieces : option (list string)) :
  Forall (λ c, c ≠ EmptyString) (identify_concepts t pieces) ∧
  (∀ cs, pieces = Some cs →
     identify_concepts t pieces `sublist_of` cs ∧
     ∀ c, c ∈ cs → c ≠ EmptyString → c ∈ identify_concepts t pieces) ∧
  (pieces = None →
     identify_concepts t pieces
     = [ "Core " +:+ t +:+ " concepts"; t +:+ " fundamentals";
         t +:+ " applications" ]).
Proof.
  split; [|split].
  - destruct pieces as [cs|]; cbn [identify_concepts].
    + apply Forall_forall. intros c Hc.
      apply list_elem_of_filter in Hc as [Hc _]. intros ->. cbn in Hc. lia.
    + repeat constructor; [discriminate | |];
        by apply app_nonempty_r.
  - intros cs ->. cbn [identify_concepts]. split.
    + apply sublist_filter.
    + intros c Hc Hne. apply list_elem_of_filter. split; [|done].
      destruct c; [done | cbn; lia].
  - by intros ->.
Qed.

(** X28: a quiz made of fallback questions can be graded: for a count of
    at least 1, the fallback of the workflow and the fallback of the
    service both give at least one question and only questions worth 10
    points, so the maximal score the store computes is 10 times the
    number of questions and is never 0. *)
Theorem fallback_quiz_gradable (t : string) (count : Z)
    (concepts : list string) (id : string) (d : Difficulty) (now : Z) :
  1 ≤ count →
  let workflow_quiz :=
    {| quiz_id := id; quiz_topic := t; quiz_difficulty := d;
       questions := getFallbackQuestions t count concepts;
       createdAt := now |} in
  let service_quiz :=
    {| quiz_id := id; quiz_topic := t; quiz_difficulty := d;
       questions := AIService.getFallbackQuestions t count;
       createdAt := now |} in
  quiz_ok workflow_quiz ∧ quiz_ok service_quiz ∧
  compute_maxScore (questions workflow_quiz) = 10 * Z.min count 5 ∧
  compute_maxScore (questions service_quiz) = 10 * Z.min count 3.
Proof.
  intros Hc. cbv zeta. cbn [questions].
  rewrite getFallbackQuestions_map, AIService_getFallbackQuestions_map.
  assert (Hsum : ∀ (f : nat → QuizQuestion) l,
            (∀ i, points (f i) = 10) →
            sum_points (f <$> l) = 10 * Z.of_nat (length l)).
  { intros f l Hf. induction l as [|i l IH]; [done|].
    cbn [fmap list_fmap sum_points length].
    change (list_fmap ?g ?k) with (g <$> k). rewrite Hf, IH. lia. }
  assert (Hpos : ∀ (f : nat → QuizQuestion) n,
            (∀ i, points (f i) = 10) → (0 < n)%nat →
            quiz_ok {| quiz_id := id; quiz_topic := t; quiz_difficulty := d;
                       questions := f <$> seq 0 n; createdAt := now |}).
  { intros f n Hf Hn. split; cbn [questions].
    - destruct n; [lia | done].
    - apply Forall_fmap, Forall_forall. intros i _. cbn. rewrite Hf. lia. }
  split; [apply Hpos; [done | lia]|].
  split; [apply Hpos; [done | lia]|].
  rewrite !compute_maxScore_sum, !Hsum, !length_seq by done. lia.
Qed.

Lemma fallback_quiz_gradable_witness :
  compute_maxScore (getFallbackQuestions "Calculus" 7 []) = 50 ∧
  compute_maxScore (AIService.getFallbackQuestions "Calculus" 7) = 30.
Proof.
  destruct (fallback_quiz_gradable "Calculus" 7 [] "quiz_9" beginner 0)
    as (_ & _ & H1 & H2); [lia|].
  cbn [questions] in H1, H2. rewrite H1, H2. split; reflexivity.
Defined.

End Fallbacks.

(** ** Completing a session *)

Section Completing.
Import StudyState Spec Store Examples.

(** X29: [completeSession] on a stored session marks it completed with
    [endTime = now] and keeps its other fields; the other sessions, the
    counters of sessions and quizzes and the recent activity are left
    alone.  Nothing stops a second call on the same session: it adds the
    minutes elapsed since the start once more, and one more session to the
    topic.  (A total that was [NaN] stays [NaN].) *)
Theorem completeSession_marks (s : UserState) (sessionId : string)
    (session : StudySession) (now now2 : Z) :
  sessions s !! sessionId = Some session →
  let s1 := (completeSession sessionId now s).2 in
  let s2 := (completeSession sessionId now2 s1).2 in
  (∃ done1, sessions s1 !! sessionId = Some done1 ∧
     status done1 = completed ∧ endTime done1 = Some now ∧
     session_topic done1 = session_topic session ∧
     startTime done1 = startTime session ∧
     duration done1 = duration session) ∧
  (∀ other, other ≠ sessionId → sessions s1 !! other = sessions s !! other) ∧
  totalSessions (progress s1) = totalSessions (progress s) ∧
  recentActivity (progress s1) = recentActivity (progress s) ∧
  (∀ T, totalStudyTime (progress s) = Fin T →
        ∃ T2, totalStudyTime (progress s2) = Fin T2 ∧
              (T2 == T + elapsed_minutes session now
                     + elapsed_minutes session now2)%Q) ∧
  (totalStudyTime (progress s) = NaN →
   totalStudyTime (progress s2) = NaN) ∧
  sessionsCount_of (session_topic session) s2
  = sessionsCount_of (session_topic session) s + 2.
Proof.
  intros Hs. cbv zeta.
  destruct (completeSession_known s sessionId session now Hs)
    as (Ht1 & Hc1 & _).
  assert (Hs1 : sessions (completeSession sessionId now s).2 !! sessionId
                = Some {| session_id := session_id session;
                          session_topic := session_topic session;
                          duration := duration session;
                          difficulty := difficulty session;
                          startTime := startTime session;
                          endTime := Some now;
                          status := completed |}).
  { unfold completeSession. rewrite (js_get_Own _ _ _ Hs). cbn.
    apply lookup_insert_eq. }
  destruct (completeSession_known _ sessionId _ now2 Hs1)
    as (Ht2 & Hc2 & _).
  split; [eexists; split; [exact Hs1 | done]|].
  split.
  { intros other Hne. unfold completeSession. rewrite (js_get_Own _ _ _ Hs).
    cbn. by rewrite lookup_insert_ne. }
  split; [unfold completeSession; by rewrite (js_get_Own _ _ _ Hs)|].
  split; [unfold completeSession; by rewrite (js_get_Own _ _ _ Hs)|].
  split; [|split].
  - intros T HT. rewrite Ht2, Ht1, HT. eexists. split; [reflexivity|].
    unfold elapsed_minutes. cbn [startTime]. reflexivity.
  - intros HT. by rewrite Ht2, Ht1, HT.
  - rewrite Hc2, Hc1. cbn [session_topic].
    rewrite !decide_True by done. lia.
Qed.

Lemma completeSession_marks_witness :
  let s := run [CreateSession (physics_session 0)] createDefaultState in
  let s2 := (completeSession "session_0" 1200000
               (completeSession "session_0" 600000 s).2).2 in
  jeq (totalStudyTime (progress s2)) (Fin 30) ∧
  sessionsCount_of "Physics" s2 = 2.
Proof.
  assert (Hgen : ∀ s session T,
            sessions s !! "session_0" = Some session →
            totalStudyTime (progress s) = Fin T →
            (T + elapsed_minutes session 600000
             + elapsed_minutes session 1200000 == 30)%Q →
            sessionsCount_of (session_topic session) s + 2 = 2 →
            session_topic session = "Physics" →
            let s2 := (completeSession "session_0" 1200000
                         (completeSession "session_0" 600000 s).2).2 in
            jeq (totalStudyTime (progress s2)) (Fin 30) ∧
            sessionsCount_of "Physics" s2 = 2).
  { intros s session T Hs HT E1 E2 <-. cbv zeta.
    destruct (completeSession_marks s "session_0" session 600000 1200000
                Hs)
      as (_ & _ & _ & _ & Hfin & _ & Hc).
    destruct (Hfin T HT) as (T2 & -> & Ht).
    split; [exact (Qeq_trans _ _ _ Ht E1) | by rewrite Hc]. }
  apply (Hgen _ (physics_session 0) 0%Q); by vm_compute.
Defined.

End Completing.
